(** * KouriChat core: message debounce queue and idle re-engagement scheduler

    A shallow embedding of
    - [src/handlers/message.py]  ([MessageHandler]: queue key, queue store,
      debounce timers, flush processing),
    - [src/handlers/autosend.py] ([AutoSendHandler]: quiet hours, countdown,
      proactive outreach),
    - [src/main.py]              ([ChatBot.handle_wxauto_message]),
    followed by the properties established about them.

    Conventions.  Python [str] values are byte strings (UTF-8); floats holding
    seconds ([time.time()], timer intervals, the queue timeout) are exact
    rationals; dictionaries are [gmap]s; [threading.Timer] objects live in a
    heap indexed by creation order.  Calls that leave the process (language
    model, web, classifiers, chat transport) are answered by an oracle
    record and leave an event in the trace. *)

From Stdlib Require Import Ascii String QArith Qround.
From stdpp Require Import gmap strings list fin_maps.

Local Open Scope string_scope.
Local Open Scope list_scope.

(** ** Python string operations used by the handlers *)

Module PyStr.

(** [str.lower()], on the ASCII range.  Bytes of multi-byte UTF-8 sequences
    are at least 128 and are left alone; this agrees with Python on the
    comparisons made here, against "system" and the image suffixes, since no
    other character lowers to one of their letters. *)
Definition lower_ascii (c : ascii) : ascii :=
  let n := nat_of_ascii c in
  if (65 <=? n)%nat && (n <=? 90)%nat then ascii_of_nat (n + 32) else c.

Fixpoint lower (s : string) : string :=
  match s with
  | EmptyString => EmptyString
  | String c r => String (lower_ascii c) (lower r)
  end.

(** [needle in hay] *)
Fixpoint contains (needle hay : string) : bool :=
  String.prefix needle hay ||
  match hay with
  | EmptyString => false
  | String _ r => contains needle r
  end.

(** [sep.join(parts)] *)
Definition join (sep : string) (parts : list string) : string :=
  String.concat sep parts.

(** [s.endswith(suffix)] *)
Definition endswith (s suffix : string) : bool :=
  let n := String.length s in
  let k := String.length suffix in
  (k <=? n)%nat && String.eqb (String.substring (n - k) k s) suffix.

(** Truthiness of a [str]. *)
Definition truthy (s : string) : bool := negb (String.eqb s "").

End PyStr.

(** ** [datetime.time] and [datetime.strptime(_, "%H:%M")] *)

Module Datetime.

Record time := mk_time
  { hour : nat; minute : nat; second : nat; microsecond : nat }.

(** Comparison of naive [time] objects: lexicographic on
    (hour, minute, second, microsecond). *)
Definition cmp_time (a b : time) : comparison :=
  match Nat.compare (hour a) (hour b) with
  | Eq =>
      match Nat.compare (minute a) (minute b) with
      | Eq =>
          match Nat.compare (second a) (second b) with
          | Eq => Nat.compare (microsecond a) (microsecond b)
          | c => c
          end
      | c => c
      end
  | c => c
  end.

Definition time_le (a b : time) : bool :=
  match cmp_time a b with Gt => false | _ => true end.

Definition time_ge (a b : time) : bool := time_le b a.

Definition is_digit (c : ascii) : bool :=
  let n := nat_of_ascii c in (48 <=? n)%nat && (n <=? 57)%nat.

Definition digit (c : ascii) : nat := nat_of_ascii c - 48.

Definition in_range (lo hi : nat) (c : ascii) : bool :=
  is_digit c && (lo <=? digit c)%nat && (digit c <=? hi)%nat.

(** A reader of one decimal digit.  In a [str] pattern [\d] matches a
    character of the Unicode category Nd in any script, and [int] takes its
    value: so ["1٢:00"] is read as 12:00.  A reader gives, for the character
    at the head of the text, its value and the unread remainder; which
    characters are digits is the interpreter's Unicode database. *)
Definition digit_reader : Type := list ascii -> option (nat * list ascii).

(** What holds of the reader of every interpreter: the ASCII digits are
    read as themselves, and a decimal digit is worth nine at most. *)
Definition sound_reader (read : digit_reader) : Prop :=
  (forall c r, is_digit c = true -> read (c :: r) = Some (digit c, r)) /\
  (forall s d r, read s = Some (d, r) -> d <= 9).

(** The reader of the ASCII digits alone. *)
Definition ascii_reader : digit_reader :=
  fun s => match s with
           | c :: r => if is_digit c then Some (digit c, r) else None
           | [] => None
           end.

(** The alternatives [2[0-3]|[0-1]\d|\d] of the [%H] directive, in the order
    the regular expression tries them; each yields the value read and the
    unread remainder.  The classes [[0-3]] and [[0-1]] hold ASCII digits
    only. *)
Definition alt_H (read : digit_reader) (s : list ascii)
  : list (nat * list ascii) :=
  (match s with
   | c :: d :: r =>
       if Ascii.eqb c "2"%char && in_range 0 3 d then [(20 + digit d, r)] else []
   | _ => []
   end) ++
  (match s with
   | c :: r1 =>
       if in_range 0 1 c then
         match read r1 with
         | Some (d, r) => [(10 * digit c + d, r)]
         | None => []
         end
       else []
   | _ => []
   end) ++
  (match read s with
   | Some (d, r) => [(d, r)]
   | None => []
   end).

(** The alternatives [[0-5]\d|\d] of the [%M] directive. *)
Definition alt_M (read : digit_reader) (s : list ascii)
  : list (nat * list ascii) :=
  (match s with
   | c :: r1 =>
       if in_range 0 5 c then
         match read r1 with
         | Some (d, r) => [(10 * digit c + d, r)]
         | None => []
         end
       else []
   | _ => []
   end) ++
  (match read s with
   | Some (d, r) => [(d, r)]
   | None => []
   end).

Definition expect_colon (s : list ascii) : option (list ascii) :=
  match s with
  | c :: r => if Ascii.eqb c ":"%char then Some r else None
  | [] => None
  end.

(** First success of a backtracking search. *)
Fixpoint first_match {A B} (f : A -> option B) (l : list A) : option B :=
  match l with
  | [] => None
  | a :: r => match f a with Some b => Some b | None => first_match f r end
  end.

(** [re.match] of the compiled format against the text: the first way, in
    backtracking order, to read [H], a colon and [M]. *)
Definition match_HM (read : digit_reader) (s : list ascii)
  : option (nat * nat * list ascii) :=
  first_match
    (fun '(h, r1) =>
       match expect_colon r1 with
       | None => None
       | Some r2 =>
           first_match (fun '(m, r3) => Some (h, m, r3)) (alt_M read r2)
       end)
    (alt_H read s).

(** [datetime.strptime(s, "%H:%M").time()]; [None] stands for the
    [ValueError] raised when the text does not match or when unconverted
    data remains. *)
Definition strptime_HM (read : digit_reader) (s : string) : option time :=
  match match_HM read (list_ascii_of_string s) with
  | Some (h, m, []) => Some (mk_time h m 0 0)
  | _ => None
  end.

(** Microseconds since midnight: the numeric reading of a [time]. *)
Definition micros (t : time) : Z :=
  ((Z.of_nat (hour t) * 60 + Z.of_nat (minute t)) * 60 + Z.of_nat (second t))
  * 1000000 + Z.of_nat (microsecond t).

(** The field ranges every [datetime.time] object satisfies. *)
Definition valid_time (t : time) : Prop :=
  (hour t < 24)%nat /\ (minute t < 60)%nat /\ (second t < 60)%nat /\
  (Z.of_nat (microsecond t) < 1000000)%Z.

End Datetime.

(** ** Results of calls that may raise *)

Inductive outcome (A : Type) : Type :=
| Ok (a : A)
| Raise (msg : string).

Arguments Ok {A} a.
Arguments Raise {A} msg.

(** ** Configuration and collaborators

    [src.config], the voice/image handlers, the network search service, the
    time recognition service, the debug command handler and the image
    recognition service are imported by the handlers but are not part of
    the sources at hand: the configuration is a record of values, and each
    collaborator call is answered by a field of [Oracle]. *)

Record web_result := { original : string }.

Record search_intent := { search_required : bool; search_query : string }.

Inductive responder := VoiceResponder | RandomImageResponder | TextResponder.

Record Config := {
  WEBLENS_ENABLED : bool;
  NETWORK_SEARCH_ENABLED : bool;
  QUEUE_TIMEOUT : Q;                 (* config.behavior.message_queue.timeout *)
  quiet_time_start : string;         (* config.behavior.quiet_time.start *)
  quiet_time_end : string;           (* config.behavior.quiet_time.end *)
  auto_message_min_hours : Q;        (* config.behavior.auto_message.min_hours *)
  auto_message_max_hours : Q;        (* config.behavior.auto_message.max_hours *)
  auto_message_content : string;     (* config.behavior.auto_message.content *)
  listen_list : list string;         (* config.user.listen_list *)
  current_avatar : string;
  robot_name : string
}.

Record Oracle := {
  detect_urls : string -> outcome (list string);
  extract_web_content : string -> outcome (option web_result);
  recognize_time_and_search : string -> string -> string -> outcome search_intent;
  search_internet : string -> outcome (option web_result);
  is_voice_request : string -> outcome bool;
  is_random_image_request : string -> outcome bool;
  (* _handle_voice_request, _handle_random_image_request and
     _handle_text_message: model call, delivery and history write *)
  respond : responder -> string -> string -> string -> string -> bool ->
            outcome (option string);
  is_debug_command : string -> outcome bool;
  process_command : string -> string -> outcome (bool * option string);
  strip_mention : string -> string -> string;   (* re.sub(...).strip() *)
  capture_and_save_screenshot : string -> outcome string;
  recognize_image : string -> bool -> outcome string
}.

(** What one handler invocation reads from the clock and from [random], and
    what it has from the interpreter: the decimal digits of its Unicode
    database, and the rounding of its float arithmetic, which gives for the
    exact value of a sum or a product the double that is returned. *)
Record Ambient := {
  strftime_now : string;        (* datetime.now().strftime("%Y-%m-%d %H:%M:%S") *)
  time_time : Q;                (* time.time(), also datetime.now() as a timestamp *)
  time_now : Datetime.time;     (* datetime.now().time() *)
  rand_index : nat;             (* raw draw behind random.choice *)
  rand_unit : Q;                (* random.random(), behind random.uniform *)
  decimal_digit : Datetime.digit_reader;   (* \d and int() *)
  float_round : Q -> Q          (* round to nearest double *)
}.


(** ** Events *)

Inductive event :=
| EvAcquire                       (* queue_lock.__enter__ *)
| EvRelease                       (* queue_lock.__exit__ *)
| EvDetectUrls (content : string)
| EvExtractWeb (url : string)
| EvRecognize (message user_name avatar_name : string)
| EvSearch (query : string)
| EvIsVoice (message : string)
| EvIsImage (message : string)
| EvRespond (r : responder) (content chat_id sender_name username : string)
            (is_group : bool)
| EvSendRaw (text chat_id : string)
| EvDebugCommand (content : string)
| EvScreenshot (username : string)
| EvRecognizeImage (path : string) (is_emoji : bool)
| EvLogError (origin : string).

(** Events that leave the process: web, model, classifier and transport
    calls. *)
Definition is_external_io (e : event) : bool :=
  match e with
  | EvExtractWeb _ | EvRecognize _ _ _ | EvSearch _ | EvIsVoice _ | EvIsImage _
  | EvRespond _ _ _ _ _ _ | EvSendRaw _ _ | EvDetectUrls _
  | EvDebugCommand _ | EvScreenshot _ | EvRecognizeImage _ _ => true
  | EvAcquire | EvRelease | EvLogError _ => false
  end.

(** ** State *)

Record queue_data := {
  messages : list string;
  chat_id : string;
  sender_name : string;
  username : string;
  is_group : bool;
  is_image_recognition : bool;
  last_update : Q;
  has_link : bool;
  urls : list string
}.

Inductive callback :=
| CbProcessMessageQueue (queue_key : string)   (* self._process_message_queue, args=[queue_key] *)
| CbAutoSendMessage.                           (* self.auto_send_message *)

(** A [threading.Timer]: [finished] is the event set by [cancel()] and at
    the end of [run()]. *)
Record Timer := {
  interval : Q;
  function : callback;
  daemon : bool;
  started : bool;
  finished : bool
}.

Record MessageHandlerState := {
  message_queues : gmap string queue_data;
  queue_timers : gmap string (option nat)
}.

Record AutoSendHandlerState := {
  countdown_timer : option nat;
  is_countdown_running : bool;
  countdown_end_time : option Q;
  unanswered_count : Z;
  last_chat_time : option Q
}.

Record World := {
  timers : list Timer;
  message_handler : MessageHandlerState;
  auto_sender : AutoSendHandlerState;
  trace : list event
}.

(** [AutoSendHandler.__init__] and the queue fields of
    [MessageHandler.__init__]. *)
Definition init_world : World :=
  {| timers := [];
     message_handler := {| message_queues := ∅; queue_timers := ∅ |};
     auto_sender := {| countdown_timer := None;
                       is_countdown_running := false;
                       countdown_end_time := None;
                       unanswered_count := 0;
                       last_chat_time := None |};
     trace := [] |}.

Definition set_timers (f : list Timer -> list Timer) (w : World) : World :=
  {| timers := f (timers w); message_handler := message_handler w;
     auto_sender := auto_sender w; trace := trace w |}.

Definition set_message_handler
  (f : MessageHandlerState -> MessageHandlerState) (w : World) : World :=
  {| timers := timers w; message_handler := f (message_handler w);
     auto_sender := auto_sender w; trace := trace w |}.

Definition set_auto_sender
  (f : AutoSendHandlerState -> AutoSendHandlerState) (w : World) : World :=
  {| timers := timers w; message_handler := message_handler w;
     auto_sender := f (auto_sender w); trace := trace w |}.

Definition set_trace (f : list event -> list event) (w : World) : World :=
  {| timers := timers w; message_handler := message_handler w;
     auto_sender := auto_sender w; trace := f (trace w) |}.

Definition set_message_queues
  (f : gmap string queue_data -> gmap string queue_data)
  (h : MessageHandlerState) : MessageHandlerState :=
  {| message_queues := f (message_queues h); queue_timers := queue_timers h |}.

Definition set_queue_timers
  (f : gmap string (option nat) -> gmap string (option nat))
  (h : MessageHandlerState) : MessageHandlerState :=
  {| message_queues := message_queues h; queue_timers := f (queue_timers h) |}.

(** ** The handler monad: state, trace and exceptions *)

Definition M (A : Type) : Type := World -> outcome A * World.

Definition ret {A} (a : A) : M A := fun w => (Ok a, w).

Definition bind {A B} (m : M A) (k : A -> M B) : M B :=
  fun w => match m w with
           | (Ok a, w') => k a w'
           | (Raise e, w') => (Raise e, w')
           end.

Notation "x <- m ;; k" := (bind m (fun x => k))
  (at level 100, m at next level, right associativity).
Notation "m ;;; k" := (bind m (fun _ => k))
  (at level 100, right associativity).

Definition get : M World := fun w => (Ok w, w).

Definition modify (f : World -> World) : M unit := fun w => (Ok tt, f w).

Definition emit (e : event) : M unit :=
  modify (set_trace (fun t => t ++ [e])).

Definition lift {A} (o : outcome A) : M A := fun w => (o, w).

(** A collaborator call: the event, then the oracle's answer. *)
Definition call {A} (e : event) (o : outcome A) : M A := emit e ;;; lift o.

(** [try: body  except Exception as e: handler] *)
Definition try_except {A} (body : M A) (handler : string -> M A) : M A :=
  fun w => match body w with
           | (Ok a, w') => (Ok a, w')
           | (Raise e, w') => handler e w'
           end.

(** [with self.queue_lock: body]: the lock is released when the block is
    left, by completion, by [return] or by an exception. *)
Definition with_queue_lock {A} (body : M A) : M A :=
  fun w => match (emit EvAcquire ;;; body) w with
           | (r, w') => (r, set_trace (fun t => t ++ [EvRelease]) w')
           end.

Definition when (b : bool) (m : M unit) : M unit := if b then m else ret tt.

(** Rational comparison [a < b]. *)
Definition Qltb (a b : Q) : bool := negb (Qle_bool b a).

(** ** [threading.Timer] *)

Module Threading.

(** [threading.Timer(interval, function)]: a fresh object, neither started
    nor finished; its handle is its position in the heap. *)
Definition new_timer (i : Q) (f : callback) : M nat :=
  w <- get ;;
  modify (set_timers (fun ts => ts ++ [{| interval := i; function := f;
                                           daemon := false; started := false;
                                           finished := false |}])) ;;;
  ret (length (timers w)).

Definition mark_daemon (t : Timer) : Timer :=
  {| interval := interval t; function := function t; daemon := true;
     started := started t; finished := finished t |}.

Definition mark_started (t : Timer) : Timer :=
  {| interval := interval t; function := function t; daemon := daemon t;
     started := true; finished := finished t |}.

Definition mark_finished (t : Timer) : Timer :=
  {| interval := interval t; function := function t; daemon := daemon t;
     started := started t; finished := true |}.

Definition set_daemon (id : nat) : M unit :=
  modify (set_timers (alter mark_daemon id)).

Definition start (id : nat) : M unit :=
  modify (set_timers (alter mark_started id)).

(** [Timer.cancel()]: sets [finished]; a timer still waiting will then not
    call its function. *)
Definition cancel (id : nat) : M unit :=
  modify (set_timers (alter mark_finished id)).

(** A daemon timer that has been started and waits. *)
Definition armed (i : Q) (f : callback) : Timer :=
  {| interval := i; function := f; daemon := true; started := true;
     finished := false |}.

(** A timer that has been started and whose [finished] event is not set:
    it is waiting and will call its function. *)
Definition live (w : World) (id : nat) : bool :=
  match timers w !! id with
  | Some t => started t && negb (finished t)
  | None => false
  end.

End Threading.

(** The line feed of Python's ["\n"]. *)
Definition nl : string := String (ascii_of_nat 10) EmptyString.

(** ** [MessageHandler] (src/handlers/message.py) *)

Module MessageHandler.

(** [_get_queue_key]: [f"{chat_id}_{sender_name}" if is_group else chat_id] *)
Definition _get_queue_key (chat_id sender_name : string) (is_group : bool)
  : string :=
  if is_group then chat_id +:+ "_" +:+ sender_name else chat_id.

(** [_check_time_reminder_and_search]: system senders are skipped; what
    follows the marker test is a string literal, so every other path falls
    off the end and returns [None], which the caller reads as false. *)
Definition _check_time_reminder_and_search (content sender_name : string)
  : bool :=
  if String.eqb sender_name "System"
     || String.eqb (PyStr.lower sender_name) "system"
  then false
  else if PyStr.contains "可作为你的回复参考" content then true
  else false.

Definition on_handler (f : MessageHandlerState -> MessageHandlerState)
  : M unit :=
  modify (set_message_handler f).

(** The update of an existing queue in [_add_to_message_queue]: the message
    is appended as it is, [last_update] is refreshed, [has_link] is or-ed
    in, and a detected link contributes its first URL. *)
Definition append_message (q : queue_data) (content : string) (now : Q)
  (link : bool) (detected : list string) : queue_data :=
  {| messages := messages q ++ [content];
     chat_id := chat_id q;
     sender_name := sender_name q;
     username := username q;
     is_group := is_group q;
     is_image_recognition := is_image_recognition q;
     last_update := now;
     has_link := link || has_link q;
     urls := match detected with
             | u :: _ => if link then urls q ++ [u] else urls q
             | [] => urls q
             end |}.

Section WithCollaborators.

Context (cfg : Config) (ext : Oracle).

(** [_add_to_message_queue] *)
Definition _add_to_message_queue (amb : Ambient)
  (content chat_id sender_name username : string)
  (is_group is_image_recognition : bool) : M unit :=
  (* urls is bound only under WEBLENS_ENABLED, and read only when has_link *)
  urls <- (if WEBLENS_ENABLED cfg
           then call (EvDetectUrls content) (detect_urls ext content)
           else ret []) ;;
  let has_link :=
    WEBLENS_ENABLED cfg && match urls with [] => false | _ => true end in
  with_queue_lock (
    let current_time := strftime_now amb in
    let queue_key := _get_queue_key chat_id sender_name is_group in
    w <- get ;;
    match message_queues (message_handler w) !! queue_key with
    | None =>
        on_handler (set_message_queues (insert queue_key
          {| messages := ["[" +:+ current_time +:+ "]" +:+ nl +:+ content];
             chat_id := chat_id;
             sender_name := sender_name;
             username := username;
             is_group := is_group;
             is_image_recognition := is_image_recognition;
             last_update := time_time amb;
             has_link := has_link;
             urls := if has_link then urls else [] |}))
    | Some q =>
        on_handler (set_message_queues (insert queue_key
          (append_message q content (time_time amb) has_link urls)))
    end ;;;
    w <- get ;;
    match queue_timers (message_handler w) !! queue_key with
    | Some (Some old) =>
        Threading.cancel old ;;;
        on_handler (set_queue_timers (insert queue_key None))
    | _ => ret tt
    end ;;;
    timer <- Threading.new_timer (QUEUE_TIMEOUT cfg)
                                 (CbProcessMessageQueue queue_key) ;;
    Threading.set_daemon timer ;;;
    Threading.start timer ;;;
    on_handler (set_queue_timers (insert queue_key (Some timer)))).

(** [add_to_queue] *)
Definition add_to_queue (amb : Ambient)
  (chat_id content sender_name username : string) (is_group : bool) : M unit :=
  _add_to_message_queue amb content chat_id sender_name username is_group false.

(** The three responders [_handle_voice_request],
    [_handle_random_image_request] and [_handle_text_message], each called as
    [(content, chat_id, sender_name, username, is_group)]. *)
Definition dispatch (r : responder) (content : string) (q : queue_data)
  : M (option string) :=
  call (EvRespond r content (chat_id q) (sender_name q) (username q) (is_group q))
       (respond ext r content (chat_id q) (sender_name q) (username q) (is_group q)).

Definition combined_message (q : queue_data) : string :=
  PyStr.join nl (messages q).

Definition with_original (combined : string) (r : option web_result)
  (otherwise : string) : string :=
  match r with
  | Some res =>
      if PyStr.truthy (original res)
      then combined +:+ nl +:+ nl +:+ original res
      else otherwise
  | None => otherwise
  end.

(** [_process_message_queue] after the pop, in the three steps the source
    takes.  First the link step: with [has_link] set and WebLens enabled, the
    content behind the first URL is fetched and appended. *)
Definition resolve_links (q : queue_data) : M string :=
  let combined := combined_message q in
  if has_link q && WEBLENS_ENABLED cfg then
    match urls q with
    | url :: _ =>
        web_results <- call (EvExtractWeb url) (extract_web_content ext url) ;;
        ret (with_original combined web_results combined)
    | [] => ret combined
    end
  else ret combined.

(** The search step, taken when the search gate did not fire. *)
Definition search_step (q : queue_data) (processed_message : string)
  : M string :=
  let combined := combined_message q in
  if NETWORK_SEARCH_ENABLED cfg then
    search_intent <-
      call (EvRecognize combined (sender_name q) (current_avatar cfg))
           (recognize_time_and_search ext combined (sender_name q)
                                      (current_avatar cfg)) ;;
    if search_required search_intent
       && PyStr.truthy (search_query search_intent)
    then
      search_results <-
        call (EvSearch (search_query search_intent))
             (search_internet ext (search_query search_intent)) ;;
      ret (with_original combined search_results processed_message)
    else ret processed_message
  else ret processed_message.

(** The classification: voice, else random image, else text. *)
Definition classify_and_dispatch (q : queue_data) (processed_message : string)
  : M (option string) :=
  voice <- call (EvIsVoice processed_message)
                (is_voice_request ext processed_message) ;;
  if voice then dispatch VoiceResponder processed_message q
  else
    image <- call (EvIsImage processed_message)
                  (is_random_image_request ext processed_message) ;;
    if image then dispatch RandomImageResponder processed_message q
    else dispatch TextResponder processed_message q.

Definition process_popped (q : queue_data) : M (option string) :=
  processed_message <- resolve_links q ;;
  if _check_time_reminder_and_search processed_message (sender_name q) then
    dispatch TextResponder processed_message q
  else
    processed_message <- search_step q processed_message ;;
    classify_and_dispatch q processed_message.

(** The elapsed-time test of [_process_message_queue]:
    [current_time - last_update < self.QUEUE_TIMEOUT - 0.1]. *)
Definition too_early (now : Q) (q : queue_data) : bool :=
  Qltb (now - last_update q) (QUEUE_TIMEOUT cfg - (1 # 10)).

(** [_process_message_queue] *)
Definition _process_message_queue (amb : Ambient) (queue_key : string)
  : M (option string) :=
  try_except
    (with_queue_lock (
       w <- get ;;
       match message_queues (message_handler w) !! queue_key with
       | None => ret None
       | Some queue_data =>
           if too_early (time_time amb) queue_data then ret None
           else
             on_handler (set_message_queues (delete queue_key)) ;;;
             on_handler (set_queue_timers (delete queue_key)) ;;;
             process_popped queue_data
       end))
    (fun e => emit (EvLogError "处理消息队列失败") ;;; ret None).

(** [_send_raw_message]: failures are logged inside, never raised. *)
Definition _send_raw_message (text chat_id : string) : M unit :=
  emit (EvSendRaw text chat_id).

(** [handle_user_message] *)
Definition handle_user_message (amb : Ambient)
  (content chat_id sender_name username : string)
  (is_group is_image_recognition : bool) : M unit :=
  try_except
    (debug <- call (EvDebugCommand content) (is_debug_command ext content) ;;
     intercepted <-
       (if debug then
          r <- lift (process_command ext content chat_id) ;;
          let '(intercept, response) := r in
          if intercept then
            match response with
            | Some text =>
                when (PyStr.truthy text)
                     (_send_raw_message
                        (if is_group
                         then "@" +:+ sender_name +:+ " " +:+ text
                         else text) chat_id)
            | None => ret tt
            end ;;;
            ret true
          else ret false
        else ret false) ;;
     if (intercepted : bool) then ret tt
     else _add_to_message_queue amb content chat_id sender_name username
                                is_group is_image_recognition)
    (fun e => emit (EvLogError "处理消息失败") ;;; ret tt).

End WithCollaborators.

End MessageHandler.

(** ** [AutoSendHandler] (src/handlers/autosend.py) *)

Module AutoSendHandler.

Definition on_sender (f : AutoSendHandlerState -> AutoSendHandlerState)
  : M unit :=
  modify (set_auto_sender f).

(** [int(x)] on a float: truncation towards zero. *)
Definition py_int (x : Q) : Z :=
  if Qle_bool 0 x then Qfloor x else Qceiling x.

(** [random.uniform(a, b)] is [a + (b - a) * random()], a float product
    and a float sum; [a] and [b] are integers here. *)
Definition uniform (fl : Q -> Q) (unit_draw a b : Q) : Q :=
  fl (a + fl ((b - a) * unit_draw))%Q.

(** [random.choice(seq)] is [seq[_randbelow(len(seq))]]; the raw draw is
    brought into range here.  Only called on a non-empty list. *)
Definition choice (draw : nat) (seq : list string) : string :=
  nth (draw mod length seq) seq "".

(** The instruction appended to the configured outreach text. *)
Definition standing_instruction : string :=
  " 这是对方可能因为在忙碌或者有自己的事没有回复你，根据上下文联系，判断用户现在的状态，回复符合角色的话语。".

(** [self.unanswered_count += 1] *)
Definition increment_unanswered (a : AutoSendHandlerState)
  : AutoSendHandlerState :=
  {| countdown_timer := countdown_timer a;
     is_countdown_running := is_countdown_running a;
     countdown_end_time := countdown_end_time a;
     unanswered_count := unanswered_count a + 1;
     last_chat_time := last_chat_time a |}.

(** [update_last_chat_time] *)
Definition update_last_chat_time (amb : Ambient) : M unit :=
  on_sender (fun a => {| countdown_timer := countdown_timer a;
                         is_countdown_running := is_countdown_running a;
                         countdown_end_time := countdown_end_time a;
                         unanswered_count := 0;
                         last_chat_time := Some (time_time amb) |}).

Section WithCollaborators.

Context (cfg : Config) (ext : Oracle).

(** [is_quiet_time]: a [ValueError] from either [strptime] is caught and
    answered with [False]. *)
Definition is_quiet_time (amb : Ambient) : bool :=
  let current_time := time_now amb in
  match Datetime.strptime_HM (decimal_digit amb) (quiet_time_start cfg) with
  | None => false
  | Some quiet_start =>
      match Datetime.strptime_HM (decimal_digit amb) (quiet_time_end cfg) with
      | None => false
      | Some quiet_end =>
          if Datetime.time_le quiet_start quiet_end
          then Datetime.time_le quiet_start current_time
               && Datetime.time_le current_time quiet_end
          else Datetime.time_ge current_time quiet_start
               || Datetime.time_le current_time quiet_end
      end
  end.

(** [get_random_countdown_time]: [int] truncates the product as the float
    arithmetic returns it, so [int(0.3 * 3600)] is 1080 although the double
    nearest to 0.3 lies below it. *)
Definition get_random_countdown_time (amb : Ambient) : Q :=
  let fl := float_round amb in
  let min_seconds := py_int (fl (auto_message_min_hours cfg * 3600)%Q) in
  let max_seconds := py_int (fl (auto_message_max_hours cfg * 3600)%Q) in
  uniform fl (rand_unit amb) (inject_Z min_seconds) (inject_Z max_seconds).

(** [start_countdown] *)
Definition start_countdown (amb : Ambient) : M unit :=
  w <- get ;;
  match countdown_timer (auto_sender w) with
  | Some old => Threading.cancel old
  | None => ret tt
  end ;;;
  let countdown_seconds := get_random_countdown_time amb in
  on_sender (fun a => {| countdown_timer := countdown_timer a;
                         is_countdown_running := is_countdown_running a;
                         countdown_end_time :=
                           Some (time_time amb + countdown_seconds)%Q;
                         unanswered_count := unanswered_count a;
                         last_chat_time := last_chat_time a |}) ;;;
  timer <- Threading.new_timer countdown_seconds CbAutoSendMessage ;;
  on_sender (fun a => {| countdown_timer := Some timer;
                         is_countdown_running := is_countdown_running a;
                         countdown_end_time := countdown_end_time a;
                         unanswered_count := unanswered_count a;
                         last_chat_time := last_chat_time a |}) ;;;
  Threading.set_daemon timer ;;;
  Threading.start timer ;;;
  on_sender (fun a => {| countdown_timer := countdown_timer a;
                         is_countdown_running := true;
                         countdown_end_time := countdown_end_time a;
                         unanswered_count := unanswered_count a;
                         last_chat_time := last_chat_time a |}).

(** The text built at line 85: the configured content, then the
    instruction.  The counter is not part of it. *)
Definition reply_content : string :=
  auto_message_content cfg +:+ standing_instruction.

(** [auto_send_message] *)
Definition auto_send_message (amb : Ambient) : M unit :=
  if is_quiet_time amb then start_countdown amb
  else
    match listen_list cfg with
    | _ :: _ =>
        let user_id := choice (rand_index amb) (listen_list cfg) in
        on_sender increment_unanswered ;;;
        try_except
          (MessageHandler.add_to_queue cfg ext amb
             user_id reply_content "System" "System" false ;;;
           start_countdown amb)
          (fun e => emit (EvLogError "自动发送消息失败") ;;; start_countdown amb)
    | [] =>
        emit (EvLogError "没有可用的聊天对象") ;;; start_countdown amb
    end.

(** [stop] *)
Definition stop : M unit :=
  w <- get ;;
  match countdown_timer (auto_sender w) with
  | Some t =>
      Threading.cancel t ;;;
      on_sender (fun a => {| countdown_timer := None;
                             is_countdown_running := is_countdown_running a;
                             countdown_end_time := countdown_end_time a;
                             unanswered_count := unanswered_count a;
                             last_chat_time := last_chat_time a |})
  | None => ret tt
  end ;;;
  on_sender (fun a => {| countdown_timer := countdown_timer a;
                         is_countdown_running := false;
                         countdown_end_time := countdown_end_time a;
                         unanswered_count := unanswered_count a;
                         last_chat_time := last_chat_time a |}).

End WithCollaborators.

End AutoSendHandler.

(** ** [ChatBot] (src/main.py) *)

Module ChatBot.

(** A wxauto message: [msg.sender], and the [content] and [text]
    attributes, either of which may be missing. *)
Record message := {
  sender : string;
  content : option string;
  text : option string
}.

Definition truthy_opt (o : option string) : bool :=
  match o with Some s => PyStr.truthy s | None => false end.

(** [a or b] on optional strings. *)
Definition py_or (a b : option string) : option string :=
  if truthy_opt a then a else b.

Definition image_suffixes : list string :=
  [".png"; ".jpg"; ".jpeg"; ".gif"; ".bmp"].

Definition is_image_name (s : string) : bool :=
  existsb (PyStr.endswith (PyStr.lower s)) image_suffixes.

Section WithCollaborators.

Context (cfg : Config) (ext : Oracle).

(** [handle_wxauto_message] *)
Definition handle_wxauto_message (amb : Ambient) (msg : message)
  (chatName : string) (is_group : bool) : M unit :=
  try_except
    (let username := sender msg in
     let content := py_or (content msg) (text msg) in
     AutoSendHandler.start_countdown cfg amb ;;;
     let content :=
       match content with
       | Some c =>
           if is_group && PyStr.truthy (robot_name cfg) && PyStr.truthy c
           then Some (strip_mention ext (robot_name cfg) c)
           else content
       | None => content
       end in
     let '(img_path, content) :=
       match content with
       | Some c =>
           if PyStr.truthy c && is_image_name c then (Some c, None)
           else (None, content)
       | None => (None, content)
       end in
     r <- match content with
          | Some c =>
              if PyStr.truthy c && PyStr.contains "[动画表情]" c then
                p <- call (EvScreenshot username)
                          (capture_and_save_screenshot ext username) ;;
                ret (Some p, true, None)
              else ret (img_path, false, content)
          | None => ret (img_path, false, content)
          end ;;
     let '(img_path, is_emoji, content) := r in
     r <- (if truthy_opt img_path then
             let path := default "" img_path in
             recognized_text <- call (EvRecognizeImage path is_emoji)
                                     (recognize_image ext path is_emoji) ;;
             ret (match content with
                  | None => recognized_text
                  | Some c => c +:+ " " +:+ recognized_text
                  end, true)
           else ret (default "" content, false)) ;;
     let '(content, is_image_recognition) := r in
     when (PyStr.truthy content)
          (MessageHandler.handle_user_message cfg ext amb
             content chatName username username is_group is_image_recognition))
    (fun e => emit (EvLogError "消息处理失败") ;;; ret tt).

End WithCollaborators.

End ChatBot.

(** ** [threading.Timer.run]: what a timer does when its wait ends *)

Module TimerThread.

Section WithCollaborators.

Context (cfg : Config) (ext : Oracle).

Definition invoke (amb : Ambient) (f : callback) : M unit :=
  match f with
  | CbProcessMessageQueue queue_key =>
      MessageHandler._process_message_queue cfg ext amb queue_key ;;; ret tt
  | CbAutoSendMessage => AutoSendHandler.auto_send_message cfg ext amb
  end.

(** [run]: the function is called unless [finished] was set during the
    wait; [finished] is set afterwards. *)
Definition run (amb : Ambient) (id : nat) : M unit :=
  w <- get ;;
  match timers w !! id with
  | Some t =>
      when (started t && negb (finished t)) (invoke amb (function t)) ;;;
      Threading.cancel id
  | None => ret tt
  end.

End WithCollaborators.

End TimerThread.

(** ** Observations used in the statements *)

(** Scanning a trace with the lock state: is some external call made while
    the queue lock is held? *)
Fixpoint io_under_lock (held : bool) (t : list event) : bool :=
  match t with
  | [] => false
  | EvAcquire :: r => io_under_lock true r
  | EvRelease :: r => io_under_lock false r
  | e :: r => (held && is_external_io e) || io_under_lock held r
  end.

Definition is_lock_event (e : event) : bool :=
  match e with EvAcquire | EvRelease => true | _ => false end.

Definition is_respond (e : event) : bool :=
  match e with EvRespond _ _ _ _ _ _ => true | _ => false end.

(** The events a computation adds to the trace of [w]. *)
Definition new_events {A} (m : M A) (w : World) : list event :=
  drop (length (trace w)) (trace (snd (m w))).

(** One arrival at the queue store. *)
Record arrival := {
  arr_ambient : Ambient;
  arr_content : string;
  arr_chat_id : string;
  arr_sender_name : string;
  arr_username : string;
  arr_is_group : bool;
  arr_is_image_recognition : bool
}.

Definition arrival_key (a : arrival) : string :=
  MessageHandler._get_queue_key (arr_chat_id a) (arr_sender_name a)
                                (arr_is_group a).

Definition enqueue (cfg : Config) (ext : Oracle) (a : arrival) : M unit :=
  MessageHandler._add_to_message_queue cfg ext (arr_ambient a)
    (arr_content a) (arr_chat_id a) (arr_sender_name a) (arr_username a)
    (arr_is_group a) (arr_is_image_recognition a).

(** Arrivals handled one after the other. *)
Fixpoint enqueue_all (cfg : Config) (ext : Oracle) (l : list arrival)
  : M unit :=
  match l with
  | [] => ret tt
  | a :: r => enqueue cfg ext a ;;; enqueue_all cfg ext r
  end.

(** The link detection step of [_add_to_message_queue]. *)
Definition detection (cfg : Config) (ext : Oracle) (content : string)
  : outcome (list string) :=
  if WEBLENS_ENABLED cfg then detect_urls ext content else Ok [].

Definition link_found (cfg : Config) (detected : list string) : bool :=
  WEBLENS_ENABLED cfg && match detected with [] => false | _ => true end.

(** The entry a first message creates. *)
Definition first_entry (cfg : Config) (a : arrival) (detected : list string)
  : queue_data :=
  {| messages := ["[" +:+ strftime_now (arr_ambient a) +:+ "]" +:+ nl
                  +:+ arr_content a];
     chat_id := arr_chat_id a;
     sender_name := arr_sender_name a;
     username := arr_username a;
     is_group := arr_is_group a;
     is_image_recognition := arr_is_image_recognition a;
     last_update := time_time (arr_ambient a);
     has_link := link_found cfg detected;
     urls := if link_found cfg detected then detected else [] |}.

(** The timer heap after [_add_to_message_queue] has cancelled the timer
    registered for the key, if any. *)
Definition cancel_registered (o : option (option nat)) (ts : list Timer)
  : list Timer :=
  match o with
  | Some (Some old) => alter Threading.mark_finished old ts
  | _ => ts
  end.

(** The store after [_process_message_queue] has popped the entry and the
    timer handle of a key. *)
Definition pop_entry (k : string) (w : World) : World :=
  set_message_handler
    (fun h => set_queue_timers (delete k) (set_message_queues (delete k) h)) w.

(** [m], run from [w], ends with [r] and adds exactly [evs] to the trace,
    touching nothing else. *)
Definition runs {A} (m : M A) (w : World) (r : outcome A) (evs : list event)
  : Prop :=
  m w = (r, set_trace (fun t => t ++ evs) w).

(** Events of the steps before a responder is called. *)
Definition is_preparation (e : event) : bool :=
  negb (is_respond e) && negb (is_lock_event e).

(** The routing as the specification words it: voice request first, then
    random-image request, otherwise plain text. *)
Definition spec_route (ext : Oracle) (processed : string) : outcome responder :=
  match is_voice_request ext processed with
  | Raise e => Raise e
  | Ok true => Ok VoiceResponder
  | Ok false =>
      match is_random_image_request ext processed with
      | Raise e => Raise e
      | Ok true => Ok RandomImageResponder
      | Ok false => Ok TextResponder
      end
  end.

(** The responder call made for a batch. *)
Definition respond_event (r : responder) (p : string) (q : queue_data) : event :=
  EvRespond r p (chat_id q) (sender_name q) (username q) (is_group q).

Definition is_extract (e : event) : bool :=
  match e with EvExtractWeb _ => true | _ => false end.

(** Events of the search step. *)
Definition is_search (e : event) : bool :=
  match e with EvRecognize _ _ _ | EvSearch _ => true | _ => false end.

(** The classifier calls made on [p]: the voice test, and the picture test
    when the voice test answers no. *)
Definition classification_events (ext : Oracle) (p : string) : list event :=
  EvIsVoice p ::
  match is_voice_request ext p with
  | Ok false => [EvIsImage p]
  | _ => []
  end.

(** The responder call the classification of [p] leads to, if any, and what
    comes back from it; a classifier that raises leaves no call. *)
Definition routed_events (ext : Oracle) (p : string) (q : queue_data)
  : list event :=
  match spec_route ext p with
  | Ok resp => [respond_event resp p q]
  | Raise _ => []
  end.

Definition routed (ext : Oracle) (p : string) (q : queue_data)
  : outcome (option string) :=
  match spec_route ext p with
  | Ok resp =>
      respond ext resp p (chat_id q) (sender_name q) (username q) (is_group q)
  | Raise e => Raise e
  end.

(** The collaborator call recorded by an event raised [e]. *)
Definition raised_by (ext : Oracle) (e : string) (ev : event) : Prop :=
  match ev with
  | EvExtractWeb url => extract_web_content ext url = Raise e
  | EvRecognize m u a => recognize_time_and_search ext m u a = Raise e
  | EvSearch query => search_internet ext query = Raise e
  | EvIsVoice m => is_voice_request ext m = Raise e
  | EvIsImage m => is_random_image_request ext m = Raise e
  | _ => False
  end.

(** The error logged by the handler of [_process_message_queue] when the
    body raised. *)
Definition flush_tail {A} (r : outcome A) : list event :=
  match r with
  | Ok _ => []
  | Raise _ => [EvLogError "处理消息队列失败"]
  end.

Definition flush_result (r : outcome (option string)) : option string :=
  match r with Ok v => v | Raise _ => None end.

(** What a flush that found a due entry for [k] comes to, when the body
    recorded [evs] and ended in [r]: the entry and the timer handle of [k]
    are gone, [evs] lie between taking and releasing the lock, and a body
    that raised is logged. *)
Definition flushed (k : string) (evs : list event)
  (r : outcome (option string)) (w : World)
  : outcome (option string) * World :=
  (Ok (flush_result r),
   set_trace (fun t => t ++ [EvAcquire] ++ evs ++ [EvRelease] ++ flush_tail r)
             (pop_entry k w)).

(** A trigger pops the entry of [k]: the entry was there and is gone
    afterwards. *)
Definition pops (cfg : Config) (ext : Oracle) (amb : Ambient) (k : string)
  (w : World) : Prop :=
  is_Some (message_queues (message_handler w) !! k) /\
  message_queues
    (message_handler
       (snd (MessageHandler._process_message_queue cfg ext amb k w))) !! k
  = None.

(** The entry of [k] is due at [now]: the time since its last update is at
    least the queue timeout less the tolerance of a tenth of a second. *)
Definition due (cfg : Config) (now : Q) (k : string) (w : World) : Prop :=
  exists q, message_queues (message_handler w) !! k = Some q /\
            (QUEUE_TIMEOUT cfg - (1 # 10) <= now - last_update q)%Q.




(** An arrival for key [k] whose link detection returns. *)
Definition arrives_at (cfg : Config) (ext : Oracle) (k : string) (a : arrival)
  : Prop :=
  arrival_key a = k /\ exists l, detection cfg ext (arr_content a) = Ok l.

(** A wall-clock time written as two digits, a colon and two digits. *)
Definition two_digits (n : nat) : string :=
  String (ascii_of_nat (48 + n / 10))
         (String (ascii_of_nat (48 + n mod 10)) EmptyString).

Definition render_HM (h m : nat) : string :=
  two_digits h +:+ ":" +:+ two_digits m.

(** The arrival [auto_send_message] hands to [add_to_queue]. *)
Definition outreach_arrival (cfg : Config) (amb : Ambient) : arrival :=
  {| arr_ambient := amb;
     arr_content := AutoSendHandler.reply_content cfg;
     arr_chat_id := AutoSendHandler.choice (rand_index amb) (listen_list cfg);
     arr_sender_name := "System";
     arr_username := "System";
     arr_is_group := false;
     arr_is_image_recognition := false |}.

(** The messages buffered for a key. *)
Definition buffered (k : string) (w : World) : list string :=
  match message_queues (message_handler w) !! k with
  | Some q => messages q
  | None => []
  end.

Definition count (w : World) : Z := unanswered_count (auto_sender w).

(** A countdown is armed in [w']: the handler holds the timer created
    last, a waiting daemon timer that will call [auto_send_message] after
    the sampled delay. *)
Definition countdown_armed (cfg : Config) (amb : Ambient) (w' : World) : Prop :=
  exists n,
    countdown_timer (auto_sender w') = Some n /\
    length (timers w') = S n /\
    timers w' !! n
    = Some (Threading.armed (AutoSendHandler.get_random_countdown_time cfg amb)
                            CbAutoSendMessage) /\
    Threading.live w' n = true /\
    is_countdown_running (auto_sender w') = true /\
    countdown_end_time (auto_sender w')
    = Some (time_time amb + AutoSendHandler.get_random_countdown_time cfg amb)%Q.

(** ** A concrete configuration, for the scenarios below *)

Module Sample.

Definition config (weblens : bool) : Config :=
  {| WEBLENS_ENABLED := weblens;
     NETWORK_SEARCH_ENABLED := false;
     QUEUE_TIMEOUT := 8;
     quiet_time_start := "22:00";
     quiet_time_end := "08:00";
     auto_message_min_hours := 1;
     auto_message_max_hours := 3;
     auto_message_content := "hello";
     listen_list := ["alice"; "bob"];
     current_avatar := "ava";
     robot_name := "bot" |}.

Definition url : string := "http://example.com/a".

Definition oracle : Oracle :=
  {| detect_urls := fun c => Ok (if PyStr.contains url c then [url] else []);
     extract_web_content := fun _ => Ok None;
     recognize_time_and_search :=
       fun _ _ _ => Ok {| search_required := false; search_query := "" |};
     search_internet := fun _ => Ok None;
     is_voice_request := fun c => Ok (PyStr.contains "voice" c);
     is_random_image_request := fun c => Ok (PyStr.contains "picture" c);
     respond := fun _ _ _ _ _ _ => Ok (Some "ok");
     is_debug_command := fun _ => Ok false;
     process_command := fun _ _ => Ok (false, None);
     strip_mention := fun _ c => c;
     capture_and_save_screenshot := fun _ => Ok "shot.png";
     recognize_image := fun _ _ => Ok "a picture" |}.


(** A reader of the ASCII digits and of the Arabic-Indic ones, U+0660 to
    U+0669, which UTF-8 writes as the byte 217 and a byte from 160 to 169. *)
Definition reader : Datetime.digit_reader :=
  fun s =>
    match s with
    | c :: r =>
        if Datetime.is_digit c then Some (Datetime.digit c, r)
        else
          match r with
          | d :: r' =>
              if Nat.eqb (nat_of_ascii c) 217
                 && (160 <=? nat_of_ascii d)%nat && (nat_of_ascii d <=? 169)%nat
              then Some (nat_of_ascii d - 160, r')
              else None
          | [] => None
          end
    | [] => None
    end.

(** The clock at [t] seconds, wall time [h:m], with fixed random draws; the
    numbers met in the samples are doubles, which rounding leaves alone. *)
Definition ambient (t : Q) (h m : nat) : Ambient :=
  {| strftime_now := "2025-01-01 " +:+ "12:00:00";
     time_time := t;
     time_now := Datetime.mk_time h m 0 0;
     rand_index := 1;
     rand_unit := 1 # 2;
     decimal_digit := reader;
     float_round := fun x => x |}.

Definition private_arrival (t : Q) (who content : string) : arrival :=
  {| arr_ambient := ambient t 12 0;
     arr_content := content;
     arr_chat_id := who;
     arr_sender_name := who;
     arr_username := who;
     arr_is_group := false;
     arr_is_image_recognition := false |}.

Definition group_arrival (t : Q) (chat who content : string) : arrival :=
  {| arr_ambient := ambient t 12 0;
     arr_content := content;
     arr_chat_id := chat;
     arr_sender_name := who;
     arr_username := who;
     arr_is_group := true;
     arr_is_image_recognition := false |}.

(** The world after the given arrivals, starting from the initial one. *)
Definition after (cfg : Config) (ext : Oracle) (l : list arrival) : World :=
  snd (enqueue_all cfg ext l init_world).

(** Three countdown expiries outside quiet hours, from the initial world,
    and then one inbound private message. *)
Definition three_fires : M unit :=
  AutoSendHandler.auto_send_message (config false) oracle (ambient 100 12 0) ;;;
  AutoSendHandler.auto_send_message (config false) oracle (ambient 200 12 0) ;;;
  AutoSendHandler.auto_send_message (config false) oracle (ambient 300 12 0).

Definition hello_from_alice : ChatBot.message :=
  {| ChatBot.sender := "alice"; ChatBot.content := Some "hi";
     ChatBot.text := None |}.

Definition inbound_after_three_fires : M unit :=
  three_fires ;;;
  ChatBot.handle_wxauto_message (config false) oracle (ambient 400 12 0)
    hello_from_alice "alice" false.

End Sample.

(** A computation that leaves a projection of the world alone. *)
Definition keeps {A X} (f : World -> X) (m : M A) : Prop :=
  forall w, f (snd (m w)) = f w.

(** A projection that does not look at the trace. *)
Definition trace_blind {X} (f : World -> X) : Prop :=
  forall g w, f (set_trace g w) = f w.

(** A computation that only extends the trace. *)
Definition trace_only {A} (m : M A) : Prop :=
  forall w, exists evs, snd (m w) = set_trace (fun t => t ++ evs) w.

(** * Further functions and observations *)

From Stdlib Require Import Lqa.

(** ** [start_countdown], half by half *)

(** [start_countdown] takes no lock and runs on two threads: the listener
    calls it for every inbound message ([handle_wxauto_message]) and the
    thread of the countdown timer calls it from [auto_send_message].  Its
    two halves, as another thread can come between them: lines 111-115, the
    cancelling of the timer held, and lines 118-132, the sampling of the
    delay and the arming of a new timer. *)
Definition start_countdown_cancel : M unit :=
  w <- get ;;
  match countdown_timer (auto_sender w) with
  | Some old => Threading.cancel old
  | None => ret tt
  end.

Definition start_countdown_arm (cfg : Config) (amb : Ambient) : M unit :=
  let countdown_seconds := AutoSendHandler.get_random_countdown_time cfg amb in
  AutoSendHandler.on_sender
    (fun a => {| countdown_timer := countdown_timer a;
                 is_countdown_running := is_countdown_running a;
                 countdown_end_time :=
                   Some (time_time amb + countdown_seconds)%Q;
                 unanswered_count := unanswered_count a;
                 last_chat_time := last_chat_time a |}) ;;;
  timer <- Threading.new_timer countdown_seconds CbAutoSendMessage ;;
  AutoSendHandler.on_sender
    (fun a => {| countdown_timer := Some timer;
                 is_countdown_running := is_countdown_running a;
                 countdown_end_time := countdown_end_time a;
                 unanswered_count := unanswered_count a;
                 last_chat_time := last_chat_time a |}) ;;;
  Threading.set_daemon timer ;;;
  Threading.start timer ;;;
  AutoSendHandler.on_sender
    (fun a => {| countdown_timer := countdown_timer a;
                 is_countdown_running := true;
                 countdown_end_time := countdown_end_time a;
                 unanswered_count := unanswered_count a;
                 last_chat_time := last_chat_time a |}).

(** ** Operations of a running bot *)

(** What happens to a bot: a message from the transport
    ([handle_wxauto_message]), a message handed to [add_to_queue] (the
    outreach of [auto_send_message] and other callers), the thread of a
    timer reaching the end of its wait, the two countdown controls, and the
    two halves of a [start_countdown] that another thread overtakes. *)
Inductive op :=
| OpInbound (amb : Ambient) (msg : ChatBot.message) (chatName : string)
            (is_group : bool)
| OpAddToQueue (amb : Ambient) (chat_id content sender_name username : string)
               (is_group : bool)
| OpTimerRun (amb : Ambient) (id : nat)
| OpStartCountdown (amb : Ambient)
| OpStop
| OpCountdownCancel
| OpCountdownArm (amb : Ambient).

Definition perform (cfg : Config) (ext : Oracle) (o : op) : M unit :=
  match o with
  | OpInbound amb msg chatName g =>
      ChatBot.handle_wxauto_message cfg ext amb msg chatName g
  | OpAddToQueue amb chat content who user g =>
      MessageHandler.add_to_queue cfg ext amb chat content who user g
  | OpTimerRun amb id => TimerThread.run cfg ext amb id
  | OpStartCountdown amb => AutoSendHandler.start_countdown cfg amb
  | OpStop => AutoSendHandler.stop
  | OpCountdownCancel => start_countdown_cancel
  | OpCountdownArm amb => start_countdown_arm cfg amb
  end.

(** A run: the operations in the order in which they take effect.  The
    queue store and the debounce timers change only under [queue_lock]
    ([_add_to_message_queue], [_process_message_queue]), so that those
    sections follow one another in every execution; the countdown is not
    protected, and a [start_countdown] that is overtaken appears in a run as
    its two halves, with the operations of the other thread in between. *)
Fixpoint run_ops (cfg : Config) (ext : Oracle) (ops : list op) (w : World)
  : World :=
  match ops with
  | [] => w
  | o :: r => run_ops cfg ext r (snd (perform cfg ext o w))
  end.

(** A timer that was started and whose [finished] event is not set. *)
Definition waiting (t : Timer) : bool := started t && negb (finished t).

(** Every waiting debounce timer is the one registered for its key. *)
Definition debounce_registered (w : World) : Prop :=
  forall i t k,
    timers w !! i = Some t -> waiting t = true ->
    function t = CbProcessMessageQueue k ->
    queue_timers (message_handler w) !! k = Some (Some i).

(** Every waiting countdown timer is the one the auto sender holds. *)
Definition countdown_registered (w : World) : Prop :=
  forall i t,
    timers w !! i = Some t -> waiting t = true ->
    function t = CbAutoSendMessage ->
    countdown_timer (auto_sender w) = Some i.

(** The handles held by the handlers are timers of the right kind: a
    handle registered for a key is a debounce timer of that key, and the
    handle of the auto sender is a countdown timer. *)
Definition handles_in_heap (w : World) : Prop :=
  (forall k n, queue_timers (message_handler w) !! k = Some (Some n) ->
               exists t, timers w !! n = Some t /\
                         function t = CbProcessMessageQueue k) /\
  (forall n, countdown_timer (auto_sender w) = Some n ->
             exists t, timers w !! n = Some t /\
                       function t = CbAutoSendMessage).

(** The invariant of the runs.  It says nothing of the countdown timers
    that wait: an overtaken [start_countdown] leaves one that the auto
    sender does not hold. *)
Definition timers_accounted (w : World) : Prop :=
  debounce_registered w /\ handles_in_heap w.

(** A computation that keeps a property of the world. *)
Definition preserves {A} (I : World -> Prop) (m : M A) : Prop :=
  forall w, I w -> I (snd (m w)).

(** A property that does not look at the trace. *)
Definition trace_blind_prop (I : World -> Prop) : Prop :=
  forall g w, I w -> I (set_trace g w).


(** A countdown is under way: the auto sender holds a waiting countdown
    timer and says so. *)
Definition countdown_waits (w : World) : Prop :=
  exists n t,
    countdown_timer (auto_sender w) = Some n /\
    is_countdown_running (auto_sender w) = true /\
    timers w !! n = Some t /\ waiting t = true /\
    function t = CbAutoSendMessage.

Definition accounted_and_waiting (w : World) : Prop :=
  timers_accounted w /\ countdown_waits w.

(** ** Observations on queue entries *)

(** What an entry records about the conversation. *)
Definition metadata (q : queue_data) : string * string * string * bool * bool :=
  (chat_id q, sender_name q, username q, is_group q, is_image_recognition q).

Definition arrival_metadata (a : arrival)
  : string * string * string * bool * bool :=
  (arr_chat_id a, arr_sender_name a, arr_username a, arr_is_group a,
   arr_is_image_recognition a).

(** The link flag of an entry says whether it holds a URL. *)
Definition links_consistent (q : queue_data) : Prop :=
  has_link q = match urls q with [] => false | _ => true end.

Definition store_links_consistent (w : World) : Prop :=
  forall k q, message_queues (message_handler w) !! k = Some q ->
              links_consistent q.

(** A computation all of whose events satisfy [P], from every world. *)
Definition emits_only {A} (P : event -> bool) (m : M A) : Prop :=
  forall w, exists r evs, runs m w r evs /\ forallb P evs = true.

Definition not_extract (e : event) : bool := negb (is_extract e).

(** The link fetch a flush of [q] makes. *)
Definition link_fetch (cfg : Config) (q : queue_data) : list event :=
  if has_link q && WEBLENS_ENABLED cfg then
    match urls q with
    | url :: _ => [EvExtractWeb url]
    | [] => []
    end
  else [].

(** ** A command handler that intercepts slash commands *)

Module Scenario.


End Scenario.

(** ** [ImageHandler.is_random_image_request] (src/handlers/image.py)

    The message is folded to lower case before the search, as in the
    source; [PyStr.lower] folds the ASCII letters.  The phrases searched
    hold no cased character, and no character lowers to one of theirs, so
    the folding of the other characters would not change an answer. *)

Module ImageHandler.

Definition basic_patterns : list string :=
  ["来个图"; "来张图"; "来点图"; "想看图"].

(** [re.search] of a pattern made of a character, a class of characters
    and a character, as in [来[张个幅]图]: some member of the class stands
    between the two. *)
Definition search_class (first : string) (class : list string) (last : string)
  (text : string) : bool :=
  existsb (fun mid => PyStr.contains (first +:+ mid +:+ last) text) class.

Definition complex_patterns : list (string * list string * string) :=
  [("来", ["张"; "个"; "幅"], "图");
   ("发", ["张"; "个"; "幅"], "图");
   ("看", ["张"; "个"; "幅"], "图")].

Definition is_random_image_request (message : string) : bool :=
  let message := PyStr.lower message in
  if existsb (fun pattern => PyStr.contains pattern message) basic_patterns
  then true
  else if existsb (fun '(first, class, last) =>
                     search_class first class last message) complex_patterns
  then true
  else false.

(** The phrases the two pattern lists stand for. *)
Definition phrases : list string :=
  ["来个图"; "来张图"; "来点图"; "想看图";
   "来幅图"; "发张图"; "发个图"; "发幅图"; "看张图"; "看个图"; "看幅图"].

End ImageHandler.

(** A byte that is an ASCII letter. *)
Definition is_letter (c : ascii) : bool :=
  let n := nat_of_ascii c in
  ((65 <=? n)%nat && (n <=? 90)%nat) || ((97 <=? n)%nat && (n <=? 122)%nat).

Definition no_letters (s : string) : bool :=
  forallb (fun c => negb (is_letter c)) (list_ascii_of_string s).


(** The collaborators of [ext] with the picture test of [ImageHandler] in
    place, as [MessageHandler] holds it in [self.image_handler]. *)
Definition with_image_handler (ext : Oracle) : Oracle :=
  {| detect_urls := detect_urls ext;
     extract_web_content := extract_web_content ext;
     recognize_time_and_search := recognize_time_and_search ext;
     search_internet := search_internet ext;
     is_voice_request := is_voice_request ext;
     is_random_image_request :=
       fun message => Ok (ImageHandler.is_random_image_request message);
     respond := respond ext;
     is_debug_command := is_debug_command ext;
     process_command := process_command ext;
     strip_mention := strip_mention ext;
     capture_and_save_screenshot := capture_and_save_screenshot ext;
     recognize_image := recognize_image ext |}.

(** ** The text responder and the record of an exchange
       ([_handle_text_message], [_send_command_response], [save_message]) *)

Module Reply.

(** What the text responder does outside itself, in order: the model call,
    the two ways of sending, the thread that saves the exchange, and in that
    thread the database row and the memory entry. *)
Inductive action :=
| GetApiResponse (message user_id : string) (is_group : bool)
| SendRawMessage (text chat_id : string)
| SendMessageWithDollar (reply chat_id : string)
| StartSaveMessage (sender_id sender_name message reply : string)
                   (is_system_message : bool)
| SessionAdd (sender_id sender_name message reply : string)
| AddConversation (avatar_name message reply user_id : string)
                  (is_system_message : bool)
| LogError (origin : string).

(** The collaborators.  [get_api_response] and [_send_message_with_dollar]
    may raise; [_send_raw_message] catches what it meets. *)
Record Env := {
  get_api_response : string -> string -> bool -> outcome string;
  _send_message_with_dollar : string -> string -> outcome unit;
  session_add : string -> string -> string -> string -> outcome unit;
  add_conversation : string -> string -> string -> string -> bool
                     -> outcome unit
}.

(** Actions done so far, and a result or the exception raised. *)
Definition R (A : Type) : Type := (list action * outcome A)%type.

Definition ret {A} (a : A) : R A := ([], Ok a).

Definition bind {A B} (m : R A) (k : A -> R B) : R B :=
  match m with
  | (l, Ok a) => let '(l', r) := k a in (l ++ l', r)
  | (l, Raise e) => (l, Raise e)
  end.

Definition call {A} (a : action) (o : outcome A) : R A := ([a], o).

Definition try_except {A} (body : R A) (handler : string -> R A) : R A :=
  match body with
  | (l, Ok a) => (l, Ok a)
  | (l, Raise e) => let '(l', r) := handler e in (l ++ l', r)
  end.

(** [s[n:]] *)
Fixpoint skip (n : nat) (s : string) : string :=
  match n, s with
  | O, _ => s
  | S n', String _ r => skip n' r
  | S _, EmptyString => EmptyString
  end.

(** [content.split(' ')[0]] *)
Fixpoint first_word (s : string) : string :=
  match s with
  | EmptyString => EmptyString
  | String c r =>
      if Ascii.eqb c " "%char then EmptyString else String c (first_word r)
  end.

(** [s.split(sep, 1)] for a [sep] that occurs in [s]: what stands before the
    first occurrence, and what stands after it. *)
Fixpoint split_once (sep s : string) : option (string * string) :=
  if String.prefix sep s then Some (EmptyString, skip (String.length sep) s)
  else match s with
       | EmptyString => None
       | String c r =>
           match split_once sep r with
           | Some (before, after) => Some (String c before, after)
           | None => None
           end
       end.

Definition preserve_format_commands : list (option string) :=
  [None; Some "/diary"; Some "/state"; Some "/letter"; Some "/list";
   Some "/pyq"; Some "/gift"; Some "/shopping"].

Definition same_command (a b : option string) : bool :=
  match a, b with
  | None, None => true
  | Some x, Some y => String.eqb x y
  | _, _ => false
  end.

(** [command in self.preserve_format_commands] *)
Definition preserved (command : option string) : bool :=
  existsb (same_command command) preserve_format_commands.

(** The command read off the content by [_handle_text_message]. *)
Definition command_of (content : string) : option string :=
  if String.prefix "/" content
  then Some (PyStr.lower (first_word content))
  else None.

(** Truthiness of [command]. *)
Definition command_truthy (command : option string) : bool :=
  match command with Some c => PyStr.truthy c | None => false end.

(** The reply once the reasoning that precedes [</think>] is cut off. *)
Definition without_think (reply : string) : string :=
  if PyStr.contains "</think>" reply then
    match split_once "</think>" reply with
    | Some (_, rest) => rest
    | None => reply
    end
  else reply.

Definition mention (sender_name : string) : string :=
  "@" +:+ sender_name +:+ " ".

Definition group_content (sender_name content : string) : string :=
  "<用户 " +:+ sender_name +:+ ">" +:+ nl +:+ content +:+ nl +:+ "</用户>".

Section WithEnv.

Context (env : Env).

(** [_send_command_response] *)
Definition _send_command_response (command : option string)
  (reply chat_id : string) : R unit :=
  if negb (PyStr.truthy reply) then ret tt
  else if preserved command
  then call (SendRawMessage reply chat_id) (Ok tt)
  else call (SendMessageWithDollar reply chat_id)
            (_send_message_with_dollar env reply chat_id).

(** [_handle_text_message] *)
Definition _handle_text_message
  (content chat_id sender_name username : string) (is_group : bool)
  : R string :=
  let command := command_of content in
  let api_content :=
    if is_group then group_content sender_name content else content in
  bind (call (GetApiResponse api_content chat_id is_group)
             (get_api_response env api_content chat_id is_group))
  (fun reply =>
  let reply := without_think reply in
  let reply := if is_group then mention sender_name +:+ reply else reply in
  let is_system_message :=
    String.eqb sender_name "System" || String.eqb username "System" in
  bind (if command_truthy command && preserved command
        then _send_command_response command reply chat_id
        else call (SendMessageWithDollar reply chat_id)
                  (_send_message_with_dollar env reply chat_id))
  (fun _ =>
  let save_content := if is_group then api_content else content in
  bind (call (StartSaveMessage chat_id sender_name save_content reply
                               is_system_message) (Ok tt))
  (fun _ => ret reply))).

(** [save_message], run by the thread [_handle_text_message] starts.  The
    mention is cut off by its length; it was just matched as a prefix, so
    counting bytes or characters gives the same rest. *)
Definition save_message (current_avatar : string)
  (sender_id sender_name message reply : string) (is_system_message : bool)
  : R unit :=
  try_except
    (let clean_reply :=
       if String.prefix (mention sender_name) reply
       then skip (String.length (mention sender_name)) reply
       else reply in
     bind (call (SessionAdd sender_id sender_name message reply)
                (session_add env sender_id sender_name message reply))
     (fun _ =>
     call (AddConversation current_avatar message clean_reply sender_id
                           is_system_message)
          (add_conversation env current_avatar message clean_reply sender_id
                            is_system_message)))
    (fun e => call (LogError "保存消息失败") (Ok tt)).

End WithEnv.

Definition is_raw (a : action) : bool :=
  match a with SendRawMessage _ _ => true | _ => false end.

Definition is_save (a : action) : bool :=
  match a with StartSaveMessage _ _ _ _ _ => true | _ => false end.

End Reply.

(** The first message of an entry carries the time stamp. *)
Definition stamped (q : queue_data) : Prop :=
  exists m rest, messages q = m :: rest /\ String.prefix "[" m = true.

(** A property of every entry of the store. *)
Definition store_all (P : queue_data -> Prop) (w : World) : Prop :=
  forall k q, message_queues (message_handler w) !! k = Some q -> P q.

Module ReplySample.

(** A model that reasons before it answers, a transport and a store that
    work. *)
Definition env : Reply.Env :=
  {| Reply.get_api_response :=
       fun _ _ _ => Ok ("let me see" +:+ "</think>" +:+ "hello");
     Reply._send_message_with_dollar := fun _ _ => Ok tt;
     Reply.session_add := fun _ _ _ _ => Ok tt;
     Reply.add_conversation := fun _ _ _ _ _ => Ok tt |}.

(** The same with a database that fails. *)
Definition env_without_database : Reply.Env :=
  {| Reply.get_api_response := Reply.get_api_response env;
     Reply._send_message_with_dollar := Reply._send_message_with_dollar env;
     Reply.session_add := fun _ _ _ _ => Raise "session";
     Reply.add_conversation := Reply.add_conversation env |}.

(** The same with a transport that fails. *)
Definition env_without_transport : Reply.Env :=
  {| Reply.get_api_response := Reply.get_api_response env;
     Reply._send_message_with_dollar := fun _ _ => Raise "send";
     Reply.session_add := Reply.session_add env;
     Reply.add_conversation := Reply.add_conversation env |}.

(** The same with a model that fails. *)
Definition env_without_model : Reply.Env :=
  {| Reply.get_api_response := fun _ _ _ => Raise "model";
     Reply._send_message_with_dollar := Reply._send_message_with_dollar env;
     Reply.session_add := Reply.session_add env;
     Reply.add_conversation := Reply.add_conversation env |}.

End ReplySample.

(** ** Reference information for the model
       ([_add_to_system_prompt], [get_api_response]) *)

Module Prompts.

(** [self.system_prompts]: absent until the first addition, then a list of
    texts for each chat. *)
Definition prompts : Type := option (gmap string (list string)).

Definition entries (sp : prompts) (chat_id : string) : option (list string) :=
  match sp with
  | Some d => d !! chat_id
  | None => None
  end.

(** [l[-5:]] *)
Definition last_five (l : list string) : list string :=
  drop (length l - 5) l.

(** [_add_to_system_prompt]; nothing in its body can raise. *)
Definition _add_to_system_prompt (chat_id content : string) (sp : prompts)
  : prompts :=
  let d := match sp with Some d => d | None => ∅ end in
  let d := match d !! chat_id with
           | Some _ => d
           | None => <[chat_id := []]> d
           end in
  let d := <[chat_id := default [] (d !! chat_id) ++ [content]]> d in
  Some (if (5 <? length (default [] (d !! chat_id)))%nat
        then <[chat_id := last_five (default [] (d !! chat_id))]> d
        else d).

(** The services [get_api_response] reads from.  The two prompt files are
    read whole, the group one stripped of the white space around it;
    [get_core_memory] may answer [None]; [in_chat_contexts] says whether the
    model service already holds a context for the user. *)
Record Env := {
  read_avatar : outcome string;
  read_group_prompt : outcome string;
  get_core_memory : string -> string -> outcome (option string);
  in_chat_contexts : string -> bool;
  get_recent_context : string -> string -> outcome (list string);
  get_response : string -> string -> string -> option (list string)
                 -> option string -> outcome string
}.

(** A call of [self.deepseek.get_response]; the last two arguments are
    [None] when the call leaves them out. *)
Inductive request :=
| GetResponse (message user_id system_prompt : string)
              (previous_context : option (list string))
              (core_memory : option string).

(** State of the prompts, requests made, and a result or an exception. *)
Definition P (A : Type) : Type :=
  prompts -> (list request * outcome A * prompts)%type.

Definition ret {A} (a : A) : P A := fun sp => ([], Ok a, sp).

Definition bind {A B} (m : P A) (k : A -> P B) : P B :=
  fun sp => match m sp with
            | (l, Ok a, sp') =>
                match k a sp' with (l', r, sp'') => (l ++ l', r, sp'') end
            | (l, Raise e, sp') => (l, Raise e, sp')
            end.

Definition lift {A} (o : outcome A) : P A := fun sp => ([], o, sp).

Definition get : P prompts := fun sp => ([], Ok sp, sp).

Definition put (sp : prompts) : P unit := fun _ => ([], Ok tt, sp).

Definition call {A} (q : request) (o : outcome A) : P A :=
  fun sp => ([q], o, sp).

Definition try_except {A} (body : P A) (handler : string -> P A) : P A :=
  fun sp => match body sp with
            | (l, Ok a, sp') => (l, Ok a, sp')
            | (l, Raise e, sp') =>
                match handler e sp' with (l', r, sp'') => (l ++ l', r, sp'') end
            end.

Definition nonempty (l : list string) : bool :=
  match l with [] => false | _ => true end.

Section WithEnv.

Context (env : Env) (current_avatar prompt_content : string).

(** [get_api_response].  [len(core_memory)] in the debug line raises on
    [None]. *)
Definition get_api_response (message user_id : string) (is_group : bool)
  : P string :=
  let avatar_name := current_avatar in
  try_except
    (bind (lift (read_avatar env)) (fun avatar_content =>
     bind (lift (get_core_memory env avatar_name user_id)) (fun core_memory =>
     let core_memory_prompt :=
       match core_memory with
       | Some m => if PyStr.truthy m then "# 核心记忆" +:+ nl +:+ m else ""
       | None => ""
       end in
     bind (match core_memory with
           | Some _ => ret tt
           | None => lift (Raise "TypeError")
           end) (fun _ =>
     bind (if negb (in_chat_contexts env user_id)
           then bind (lift (get_recent_context env avatar_name user_id))
                     (fun c => ret (Some c))
           else ret None) (fun recent_context =>
     bind (if is_group
           then bind (lift (read_group_prompt env)) (fun group_chat_prompt =>
                ret (group_chat_prompt +:+ nl +:+ nl +:+ avatar_content))
           else ret avatar_content) (fun combined_system_prompt =>
     bind get (fun sp =>
     bind (match entries sp user_id with
           | Some l =>
               if nonempty l then
                 let additional_prompt := PyStr.join (nl +:+ nl) l in
                 bind (put (Some (<[user_id := []]>
                                    (default ∅ sp))))
                      (fun _ =>
                 ret (combined_system_prompt +:+ nl +:+ nl +:+ "参考信息:"
                        +:+ nl +:+ additional_prompt))
               else ret combined_system_prompt
           | None => ret combined_system_prompt
           end) (fun combined_system_prompt =>
     call (GetResponse message user_id combined_system_prompt
                       recent_context (Some core_memory_prompt))
          (get_response env message user_id combined_system_prompt
                        recent_context (Some core_memory_prompt))))))))))
    (fun e =>
       call (GetResponse message user_id prompt_content None None)
            (get_response env message user_id prompt_content None None)).

End WithEnv.

(** Additions and questions, one after the other. *)
Inductive step :=
| Add (chat_id content : string)
| Ask (env : Env) (current_avatar prompt_content message user_id : string)
      (is_group : bool).

Definition do_step (s : step) (sp : prompts) : prompts :=
  match s with
  | Add chat_id content => _add_to_system_prompt chat_id content sp
  | Ask env avatar fallback message user_id is_group =>
      snd (get_api_response env avatar fallback message user_id is_group sp)
  end.

Definition do_steps (l : list step) (sp : prompts) : prompts :=
  fold_left (fun sp s => do_step s sp) l sp.

(** The texts added for a chat, oldest first. *)
Definition added_for (chat_id : string) (l : list (string * string))
  : list string :=
  map snd (List.filter (fun a => String.eqb (fst a) chat_id) l).

Definition add_all (l : list (string * string)) (sp : prompts) : prompts :=
  fold_left (fun sp a => _add_to_system_prompt (fst a) (snd a) sp) l sp.

(** No chat holds more than five texts. *)
Definition at_most_five (sp : prompts) : Prop :=
  forall chat l, entries sp chat = Some l -> length l <= 5.

End Prompts.

Module PromptsSample.

(** Files and memory that answer, and a model that fails on its first kind
    of call and answers the fallback. *)
Definition env : Prompts.Env :=
  {| Prompts.read_avatar := Ok "persona";
     Prompts.read_group_prompt := Ok "group rules";
     Prompts.get_core_memory := fun _ _ => Ok (Some "likes tea");
     Prompts.in_chat_contexts := fun _ => false;
     Prompts.get_recent_context := fun _ _ => Ok [];
     Prompts.get_response :=
       fun _ _ _ _ core =>
         match core with
         | Some _ => Raise "timeout"
         | None => Ok "hello"
         end |}.

End PromptsSample.

(** ** [ImageRecognitionService]
       (src/services/ai/image_recognition_service.py) *)

Module ImageRecognitionService.

(** The exceptions the service tells apart: [requests.exceptions.Timeout],
    the other [RequestException]s, and everything else. *)
Inductive exn := Timeout | RequestException | OtherError.

Inductive res (A : Type) : Type :=
| Val (a : A)
| Exn (e : exn).

Arguments Val {A} a.
Arguments Exn {A} e.

Definition bind {A B} (m : res A) (k : A -> res B) : res B :=
  match m with
  | Val a => k a
  | Exn e => Exn e
  end.

(** The decoded body: whether ['choices'] is there and not empty, and
    [result['choices'][0]['message']['content']], which may fail to be found
    and may be something else than a string ([None]). *)
Record body := {
  has_choices : res bool;
  message_content : res (option string)
}.

Record response := {
  status_code : Z;
  json : res body
}.

Record request := {
  url : string;
  request_model : string;
  image_url : string;
  text : string;
  request_temperature : Q;
  timeout : Z
}.

Record service := {
  base_url : string;
  temperature : Q;
  model : string
}.

(** [max(a, b)] and [min(a, b)] of Python. *)
Definition py_max (a b : Q) : Q := if Qltb a b then b else a.
Definition py_min (a b : Q) : Q := if Qltb b a then b else a.

(** [__init__], as far as [recognize_image] reads what it sets. *)
Definition init (base_url : string) (temperature : Q) (model : string)
  : service :=
  {| base_url := base_url;
     temperature := py_min (py_max 0 temperature) 1;
     model := model |}.

(** The file system, the transport, and [str.strip]. *)
Record Env := {
  os_path_exists : string -> res bool;
  os_path_getsize : string -> res Z;
  read_base64 : string -> res string;
  requests_post : request -> res response;
  strip : string -> string
}.

Definition photo_prompt : string := "请描述这个图片".

Definition emoji_prompt : string :=
  "这是一张微信聊天的图片截图，请描述这个聊天窗口左边的聊天用户用户发送的最后一张表情，不要去识别聊天用户的头像".

Definition emoji_marker : string := "最后一张表情包是".

Definition emoji_heading : string := "用户发送了一张表情包，表情包的内容是：：".

Definition photo_heading : string := "用户发送了一张照片，照片的内容是：".

Definition apologies : list string :=
  ["抱歉，图片文件不存在"; "抱歉，图片文件太大了"; "抱歉，读取图片时出现错误";
   "抱歉，图片识别服务暂时不可用"; "抱歉，无法解析图片内容";
   "抱歉，图片识别服务响应超时"; "抱歉，图片识别服务出现错误";
   "抱歉，处理图片识别结果时出现错误"; "抱歉，图片识别过程出现错误"].

Section WithEnv.

Context (self : service) (env : Env).

(** The request and what is made of the response, inside the inner [try]. *)
Definition ask (image_content : string) (is_emoji : bool) : res string :=
  let text_prompt := if negb is_emoji then photo_prompt else emoji_prompt in
  let data :=
    {| url := base_url self +:+ "/chat/completions";
       request_model := model self;
       image_url := "data:image/jpeg;base64," +:+ image_content;
       text := text_prompt;
       request_temperature := temperature self;
       timeout := 30 |} in
  bind (requests_post env data) (fun response =>
  if negb (status_code response =? 200)%Z
  then Val "抱歉，图片识别服务暂时不可用"
  else
    bind (json response) (fun result =>
    bind (has_choices result) (fun present =>
    if negb present then Val "抱歉，无法解析图片内容"
    else
      bind (message_content result) (fun content =>
      match content with
      | None => Exn OtherError
      | Some recognized_text =>
          if is_emoji then
            let recognized_text :=
              if PyStr.contains emoji_marker recognized_text then
                match Reply.split_once emoji_marker recognized_text with
                | Some (_, rest) => strip env rest
                | None => recognized_text
                end
              else recognized_text in
            Val (emoji_heading +:+ recognized_text)
          else Val (photo_heading +:+ recognized_text)
      end)))).

(** [recognize_image] *)
Definition recognize_image (image_path : string) (is_emoji : bool)
  : res string :=
  match
    bind (os_path_exists env image_path) (fun found =>
    if negb found then Val "抱歉，图片文件不存在"
    else
      bind (os_path_getsize env image_path) (fun size =>
      let file_size := (inject_Z size / inject_Z (1024 * 1024))%Q in
      if Qltb 100 file_size then Val "抱歉，图片文件太大了"
      else
        match read_base64 env image_path with
        | Exn _ => Val "抱歉，读取图片时出现错误"
        | Val image_content =>
            match ask image_content is_emoji with
            | Val recognized_text => Val recognized_text
            | Exn Timeout => Val "抱歉，图片识别服务响应超时"
            | Exn RequestException => Val "抱歉，图片识别服务出现错误"
            | Exn OtherError => Val "抱歉，处理图片识别结果时出现错误"
            end
        end))
  with
  | Val recognized_text => Val recognized_text
  | Exn _ => Val "抱歉，图片识别过程出现错误"
  end.

End WithEnv.

End ImageRecognitionService.

(** The collaborators of [ext] with the image recognition service in place,
    as [ChatBot] holds it in [self.image_recognition_service]. *)
Definition with_recognition (self : ImageRecognitionService.service)
  (env : ImageRecognitionService.Env) (ext : Oracle) : Oracle :=
  {| detect_urls := detect_urls ext;
     extract_web_content := extract_web_content ext;
     recognize_time_and_search := recognize_time_and_search ext;
     search_internet := search_internet ext;
     is_voice_request := is_voice_request ext;
     is_random_image_request := is_random_image_request ext;
     respond := respond ext;
     is_debug_command := is_debug_command ext;
     process_command := process_command ext;
     strip_mention := strip_mention ext;
     capture_and_save_screenshot := capture_and_save_screenshot ext;
     recognize_image :=
       fun image_path is_emoji =>
         match ImageRecognitionService.recognize_image self env image_path
                 is_emoji with
         | ImageRecognitionService.Val recognized_text => Ok recognized_text
         | ImageRecognitionService.Exn _ => Raise "recognize_image"
         end |}.

Module RecognitionSample.

(** A file system without the picture. *)
Definition offline : ImageRecognitionService.Env :=
  {| ImageRecognitionService.os_path_exists :=
       fun _ => ImageRecognitionService.Val false;
     ImageRecognitionService.os_path_getsize :=
       fun _ => ImageRecognitionService.Exn ImageRecognitionService.OtherError;
     ImageRecognitionService.read_base64 :=
       fun _ => ImageRecognitionService.Exn ImageRecognitionService.OtherError;
     ImageRecognitionService.requests_post :=
       fun _ => ImageRecognitionService.Exn ImageRecognitionService.Timeout;
     ImageRecognitionService.strip := fun s => s |}.

Definition service : ImageRecognitionService.service :=
  ImageRecognitionService.init "http://vision" (7 # 10) "vision-model".

End RecognitionSample.

(** ** [LoggerConfig] (src/utils/logger.py)

    File names are taken to be ASCII, as the names [get_log_file] makes
    are: a slice then counts bytes as Python counts characters, and a
    digit is one of [0] to [9]. *)

Module LoggerConfig.

Record date := mk_date { year : nat; month : nat; day : nat }.

Definition is_leap (y : nat) : bool :=
  Nat.eqb (y mod 4) 0 && (negb (Nat.eqb (y mod 100) 0) || Nat.eqb (y mod 400) 0).

Definition days_in_month (y m : nat) : nat :=
  match m with
  | 1 | 3 | 5 | 7 | 8 | 10 | 12 => 31
  | 4 | 6 | 9 | 11 => 30
  | 2 => if is_leap y then 29 else 28
  | _ => 0
  end.

(** The dates [datetime] accepts. *)
Definition valid_date (d : date) : bool :=
  (1 <=? year d)%nat && (Z.of_nat (year d) <=? 9999)%Z
  && (1 <=? month d)%nat && (month d <=? 12)%nat
  && (1 <=? day d)%nat && (day d <=? days_in_month (year d) (month d))%nat.

Definition days_before_year (y : nat) : nat :=
  let p := y - 1 in p * 365 + p / 4 - p / 100 + p / 400.

Definition days_before_month (y m : nat) : nat :=
  list_sum (map (days_in_month y) (seq 1 (m - 1))).

(** [date.toordinal()] *)
Definition toordinal (d : date) : nat :=
  days_before_year (year d) + days_before_month (year d) (month d) + day d.

Record datetime := { date_of : date; time_of : Datetime.time }.

Definition midnight : Datetime.time := Datetime.mk_time 0 0 0 0.

Definition day_micros : Z := 86400000000.

(** Microseconds since the start of the calendar. *)
Definition instant (t : datetime) : Z :=
  Z.of_nat (toordinal (date_of t)) * day_micros + Datetime.micros (time_of t).

(** [(a - b).days]: a [timedelta] holds the whole days below the
    difference. *)
Definition days_between (a b : datetime) : Z :=
  (instant a - instant b) / day_micros.

Definition four_digits (n : nat) : string :=
  String (ascii_of_nat (48 + n / 1000))
    (String (ascii_of_nat (48 + (n / 100) mod 10))
       (String (ascii_of_nat (48 + (n / 10) mod 10))
          (String (ascii_of_nat (48 + n mod 10)) EmptyString))).

(** [strftime("%Y%m%d")], for a year of four digits. *)
Definition strftime_Ymd (d : date) : string :=
  four_digits (year d) +:+ two_digits (month d) +:+ two_digits (day d).

(** The alternatives of [%Y], [%m] and [%d] in the regular expression
    [strptime] builds: [\d\d\d\d], [1[0-2]|0[1-9]|[1-9]] and
    [3[0-1]|[1-2]\d|0[1-9]|[1-9]| [1-9]]. *)
Definition alt_Y (s : list ascii) : list (nat * list ascii) :=
  match s with
  | a :: b :: c :: d :: r =>
      if Datetime.is_digit a && Datetime.is_digit b
         && Datetime.is_digit c && Datetime.is_digit d
      then [(1000 * Datetime.digit a + 100 * Datetime.digit b
             + 10 * Datetime.digit c + Datetime.digit d, r)]
      else []
  | _ => []
  end.

Definition alt_m (s : list ascii) : list (nat * list ascii) :=
  (match s with
   | c :: d :: r =>
       if Ascii.eqb c "1"%char && Datetime.in_range 0 2 d
       then [(10 + Datetime.digit d, r)] else []
   | _ => []
   end) ++
  (match s with
   | c :: d :: r =>
       if Ascii.eqb c "0"%char && Datetime.in_range 1 9 d
       then [(Datetime.digit d, r)] else []
   | _ => []
   end) ++
  (match s with
   | c :: r => if Datetime.in_range 1 9 c then [(Datetime.digit c, r)] else []
   | _ => []
   end).

Definition alt_d (s : list ascii) : list (nat * list ascii) :=
  (match s with
   | c :: d :: r =>
       if Ascii.eqb c "3"%char && Datetime.in_range 0 1 d
       then [(30 + Datetime.digit d, r)] else []
   | _ => []
   end) ++
  (match s with
   | c :: d :: r =>
       if Datetime.in_range 1 2 c && Datetime.is_digit d
       then [(10 * Datetime.digit c + Datetime.digit d, r)] else []
   | _ => []
   end) ++
  (match s with
   | c :: d :: r =>
       if Ascii.eqb c "0"%char && Datetime.in_range 1 9 d
       then [(Datetime.digit d, r)] else []
   | _ => []
   end) ++
  (match s with
   | c :: r => if Datetime.in_range 1 9 c then [(Datetime.digit c, r)] else []
   | _ => []
   end) ++
  (match s with
   | c :: d :: r =>
       if Ascii.eqb c " "%char && Datetime.in_range 1 9 d
       then [(Datetime.digit d, r)] else []
   | _ => []
   end).

(** The first way, in backtracking order, to read a month and a day. *)
Definition match_md (s : list ascii) : option (nat * nat * list ascii) :=
  Datetime.first_match
    (fun '(m, r1) =>
       Datetime.first_match (fun '(d, r2) => Some (m, d, r2)) (alt_d r1))
    (alt_m s).

(** [re.match] of the compiled format against the text. *)
Definition match_Ymd (s : list ascii)
  : option (nat * nat * nat * list ascii) :=
  Datetime.first_match
    (fun '(y, r1) =>
       match match_md r1 with
       | Some (m, d, r2) => Some (y, m, d, r2)
       | None => None
       end)
    (alt_Y s).

(** [datetime.strptime(s, "%Y%m%d")], at midnight of the date read; [None]
    stands for the [ValueError] raised when the text does not match, when
    unconverted data remains, or when there is no such date. *)
Definition strptime_Ymd (s : string) : option date :=
  match match_Ymd (list_ascii_of_string s) with
  | Some (y, m, d, []) =>
      if valid_date (mk_date y m d) then Some (mk_date y m d) else None
  | _ => None
  end.

(** The base name [get_log_file] gives the log of a day, and the names
    [RotatingFileHandler] gives its backups. *)
Definition log_name (today : date) : string :=
  "bot_" +:+ strftime_Ymd today +:+ ".log".

Definition backup_name (today : date) (n : nat) : string :=
  log_name today +:+ "." +:+ String (ascii_of_nat (48 + n)) EmptyString.

(** The directory listing and the removal of a file of the directory;
    a removal that fails raises something else than [ValueError]. *)
Record Env := {
  listdir : string -> outcome (list string);
  remove : string -> string -> outcome unit
}.

(** A call of [os.remove] on the file of that name in that directory. *)
Inductive action := OsRemove (log_dir filename : string).

(** [get_log_file]: the directory and the base name that are joined. *)
Definition get_log_file (log_dir : string) (now : datetime)
  : string * string :=
  (log_dir, log_name (date_of now)).

Section WithEnv.

Context (env : Env) (log_dir : string) (current_date : datetime) (days : Z).

(** The test made on a file name before it is removed. *)
Definition expired (filename : string) : bool :=
  if negb (String.prefix "bot_" filename)
     || negb (PyStr.endswith filename ".log")
  then false
  else
    match strptime_Ymd (String.substring 4 8 filename) with
    | Some file_date =>
        let days_old :=
          days_between current_date
            {| date_of := file_date; time_of := midnight |} in
        (days <? days_old)%Z
    | None => false
    end.

(** The loop over the listing: the removals called, and how it ended. *)
Fixpoint sweep (files : list string) : list action * outcome unit :=
  match files with
  | [] => ([], Ok tt)
  | filename :: rest =>
      if expired filename then
        match remove env log_dir filename with
        | Ok _ =>
            let '(l, r) := sweep rest in (OsRemove log_dir filename :: l, r)
        | Raise e => ([OsRemove log_dir filename], Raise e)
        end
      else sweep rest
  end.

(** [cleanup_old_logs]: the removals called, and whether the failure
    message was printed. *)
Definition cleanup_old_logs : list action * bool :=
  match listdir env log_dir with
  | Ok files =>
      match sweep files with
      | (l, Ok _) => (l, false)
      | (l, Raise _) => (l, true)
      end
  | Raise _ => ([], true)
  end.

End WithEnv.

End LoggerConfig.

Module LoggerSample.

Definition env : LoggerConfig.Env :=
  {| LoggerConfig.listdir :=
       fun _ => Ok ["bot_20250101.log"; "bot_20250101.log.1";
                    "bot_20250110.log"; "notes.txt"];
     LoggerConfig.remove := fun _ _ => Ok tt |}.

(** A disk that refuses every removal. *)
Definition read_only : LoggerConfig.Env :=
  {| LoggerConfig.listdir := LoggerConfig.listdir env;
     LoggerConfig.remove := fun _ _ => Raise "PermissionError" |}.

Definition now : LoggerConfig.datetime :=
  {| LoggerConfig.date_of := LoggerConfig.mk_date 2025 1 10;
     LoggerConfig.time_of := Datetime.mk_time 9 30 0 0 |}.

End LoggerSample.
(** * Properties *)

(** ** The handler monad *)

Lemma bind_ok {A B} (m : M A) (k : A -> M B) w a w' :
  m w = (Ok a, w') -> bind m k w = k a w'.
Proof. intros H. unfold bind. now rewrite H. Qed.

Lemma bind_raise {A B} (m : M A) (k : A -> M B) w e w' :
  m w = (Raise e, w') -> bind m k w = (Raise e, w').
Proof. intros H. unfold bind. now rewrite H. Qed.

Lemma set_trace_set_trace f g w :
  set_trace f (set_trace g w) = set_trace (fun t => f (g t)) w.
Proof. reflexivity. Qed.

Lemma set_trace_nil w : set_trace (fun t => t ++ []) w = w.
Proof. destruct w; unfold set_trace; simpl. now rewrite app_nil_r. Qed.

Lemma set_trace_app w evs1 evs2 :
  set_trace (fun t => t ++ evs2) (set_trace (fun t => t ++ evs1) w)
  = set_trace (fun t => t ++ (evs1 ++ evs2)) w.
Proof. destruct w; unfold set_trace; simpl. now rewrite app_assoc. Qed.

Lemma trace_set_trace evs w :
  trace (set_trace (fun t => t ++ evs) w) = trace w ++ evs.
Proof. reflexivity. Qed.

Lemma trace_only_ret {A} (a : A) : trace_only (ret a).
Proof. intros w. exists []. simpl. now rewrite set_trace_nil. Qed.

Lemma trace_only_lift {A} (o : outcome A) : trace_only (lift o).
Proof. intros w. exists []. simpl. now rewrite set_trace_nil. Qed.

Lemma trace_only_emit e : trace_only (emit e).
Proof. intros w. now exists [e]. Qed.

Lemma trace_only_bind {A B} (m : M A) (k : A -> M B) :
  trace_only m -> (forall a, trace_only (k a)) -> trace_only (bind m k).
Proof.
  intros Hm Hk w. destruct (Hm w) as [evs1 E1]. unfold bind.
  destruct (m w) as [[a|e] w1] eqn:Em; simpl in E1; subst w1.
  - destruct (Hk a (set_trace (fun t => t ++ evs1) w)) as [evs2 E2].
    exists (evs1 ++ evs2). now rewrite E2, set_trace_app.
  - now exists evs1.
Qed.

Lemma trace_only_call {A} e (o : outcome A) : trace_only (call e o).
Proof.
  apply trace_only_bind; [apply trace_only_emit | intros _; apply trace_only_lift].
Qed.

Lemma trace_only_try {A} (m : M A) h :
  trace_only m -> (forall e, trace_only (h e)) -> trace_only (try_except m h).
Proof.
  intros Hm Hh w. destruct (Hm w) as [evs1 E1]. unfold try_except.
  destruct (m w) as [[a|e] w1] eqn:Em; simpl in E1; subst w1.
  - now exists evs1.
  - destruct (Hh e (set_trace (fun t => t ++ evs1) w)) as [evs2 E2].
    exists (evs1 ++ evs2). now rewrite E2, set_trace_app.
Qed.

Lemma trace_only_lock {A} (m : M A) :
  trace_only m -> trace_only (with_queue_lock m).
Proof.
  intros Hm w. unfold with_queue_lock.
  assert (H : trace_only (emit EvAcquire ;;; m))
    by (apply trace_only_bind; [apply trace_only_emit | intros _; exact Hm]).
  destruct (H w) as [evs E]. destruct ((emit EvAcquire ;;; m) w) as [r w1].
  simpl in E. subst w1. exists (evs ++ [EvRelease]). simpl.
  now rewrite set_trace_app.
Qed.

Lemma trace_only_keeps {A X} (f : World -> X) (m : M A) :
  trace_blind f -> trace_only m -> keeps f m.
Proof. intros Hf Hm w. destruct (Hm w) as [evs E]. now rewrite E, Hf. Qed.

Lemma keeps_ret {A X} (f : World -> X) (a : A) : keeps f (ret a).
Proof. now intros w. Qed.

Lemma keeps_lift {A X} (f : World -> X) (o : outcome A) : keeps f (lift o).
Proof. now intros w. Qed.

Lemma keeps_get {X} (f : World -> X) : keeps f get.
Proof. now intros w. Qed.

Lemma keeps_bind {A B X} (f : World -> X) (m : M A) (k : A -> M B) :
  keeps f m -> (forall a, keeps f (k a)) -> keeps f (bind m k).
Proof.
  intros Hm Hk w. unfold bind. specialize (Hm w).
  destruct (m w) as [[a|e] w1]; simpl in *; [|exact Hm].
  now rewrite Hk.
Qed.

Lemma keeps_try {A X} (f : World -> X) (m : M A) h :
  keeps f m -> (forall e, keeps f (h e)) -> keeps f (try_except m h).
Proof.
  intros Hm Hh w. unfold try_except. specialize (Hm w).
  destruct (m w) as [[a|e] w1]; simpl in *; [exact Hm|].
  now rewrite Hh.
Qed.

Lemma keeps_emit {X} (f : World -> X) e : trace_blind f -> keeps f (emit e).
Proof. intros Hf w. apply Hf. Qed.

Lemma keeps_call {A X} (f : World -> X) e (o : outcome A) :
  trace_blind f -> keeps f (call e o).
Proof.
  intros Hf. apply keeps_bind; [now apply keeps_emit | intros _; apply keeps_lift].
Qed.

Lemma keeps_lock {A X} (f : World -> X) (m : M A) :
  trace_blind f -> keeps f m -> keeps f (with_queue_lock m).
Proof.
  intros Hf Hm w. unfold with_queue_lock.
  assert (H : keeps f (emit EvAcquire ;;; m))
    by (apply keeps_bind; [now apply keeps_emit | intros _; exact Hm]).
  specialize (H w). destruct ((emit EvAcquire ;;; m) w) as [r w1].
  simpl in *. now rewrite Hf.
Qed.

Lemma keeps_when {X} (f : World -> X) b m : keeps f m -> keeps f (when b m).
Proof. intros H. destruct b; [exact H | apply keeps_ret]. Qed.

Lemma keeps_modify {X} (f : World -> X) g :
  (forall w, f (g w) = f w) -> keeps f (modify g).
Proof. intros H w. apply H. Qed.

(** ** Timers *)

Lemma arm_new_timer (ts : list Timer) i f :
  alter Threading.mark_started (length ts)
    (alter Threading.mark_daemon (length ts)
       (ts ++ [{| interval := i; function := f; daemon := false;
                  started := false; finished := false |}]))
  = ts ++ [Threading.armed i f].
Proof.
  induction ts as [|t ts IH]; simpl; [reflexivity|].
  f_equal. exact IH.
Qed.

Lemma live_last ts i f w :
  timers w = ts ++ [Threading.armed i f] ->
  Threading.live w (length ts) = true.
Proof.
  intros H. unfold Threading.live. rewrite H.
  now rewrite list_lookup_middle.
Qed.

(** ** Enqueueing *)

Section Enqueue.

Context (cfg : Config) (ext : Oracle).

(** What one arrival does to the world, when link detection returns. *)
Lemma enqueue_run (a : arrival) (w : World) (l : list string) :
  detection cfg ext (arr_content a) = Ok l ->
  exists w',
    enqueue cfg ext a w = (Ok tt, w') /\
    message_queues (message_handler w') =
      <[arrival_key a :=
          match message_queues (message_handler w) !! arrival_key a with
          | None => first_entry cfg a l
          | Some q =>
              MessageHandler.append_message q (arr_content a)
                (time_time (arr_ambient a)) (link_found cfg l) l
          end]> (message_queues (message_handler w)) /\
    queue_timers (message_handler w') =
      <[arrival_key a := Some (length (timers w))]>
        (queue_timers (message_handler w)) /\
    timers w' =
      match queue_timers (message_handler w) !! arrival_key a with
      | Some (Some old) => alter Threading.mark_finished old (timers w)
      | _ => timers w
      end ++ [Threading.armed (QUEUE_TIMEOUT cfg)
                (CbProcessMessageQueue (arrival_key a))] /\
    auto_sender w' = auto_sender w /\
    trace w' =
      trace w ++ (if WEBLENS_ENABLED cfg then [EvDetectUrls (arr_content a)]
                  else []) ++ [EvAcquire; EvRelease].
Proof.
  intros Hdet. unfold detection in Hdet.
  unfold enqueue, MessageHandler._add_to_message_queue, arrival_key,
    first_entry, link_found.
  set (k := MessageHandler._get_queue_key _ _ _).
  destruct w as [ts [mq qt] au tr].
  unfold bind at 1.
  destruct (WEBLENS_ENABLED cfg) eqn:Ewl.
  - unfold call, bind, emit, modify, lift. simpl. rewrite Hdet.
    unfold with_queue_lock, bind, emit, modify, get, ret,
      MessageHandler.on_handler, Threading.cancel, Threading.new_timer,
      Threading.set_daemon, Threading.start, bind, modify, get, ret. simpl.
    destruct (mq !! k) as [q|] eqn:Eq; simpl;
      (destruct (qt !! k) as [[old|]|] eqn:Et; simpl;
       eexists; repeat split; simpl;
       rewrite ?arm_new_timer, ?length_alter, ?insert_insert_eq,
         <- ?app_assoc; reflexivity).
  - injection Hdet as <-. simpl.
    unfold with_queue_lock, bind, emit, modify, get, ret,
      MessageHandler.on_handler, Threading.cancel, Threading.new_timer,
      Threading.set_daemon, Threading.start, bind, modify, get, ret. simpl.
    destruct (mq !! k) as [q|] eqn:Eq; simpl;
      (destruct (qt !! k) as [[old|]|] eqn:Et; simpl;
       eexists; repeat split; simpl;
       rewrite ?arm_new_timer, ?length_alter, ?insert_insert_eq,
         <- ?app_assoc; reflexivity).
Qed.

End Enqueue.

Section EnqueueTwice.

Context (cfg : Config) (ext : Oracle).

Lemma length_cancel_registered o ts :
  length (cancel_registered o ts) = length ts.
Proof. destruct o as [[old|]|]; simpl; now rewrite ?length_alter. Qed.

Lemma enqueue_raise (a : arrival) (w : World) e :
  detection cfg ext (arr_content a) = Raise e ->
  enqueue cfg ext a w
  = (Raise e, set_trace (fun t => t ++ [EvDetectUrls (arr_content a)]) w).
Proof.
  unfold detection, enqueue, MessageHandler._add_to_message_queue.
  destruct (WEBLENS_ENABLED cfg); [|discriminate].
  intros H. unfold bind at 1, call, bind, emit, modify, lift. simpl.
  now rewrite H.
Qed.

(** Two arrivals under one key: one entry, one registered timer, and of the
    two timers armed only the second still waits. *)
Lemma enqueue_twice (a1 a2 : arrival) (w : World) l1 l2 :
  arrival_key a1 = arrival_key a2 ->
  message_queues (message_handler w) !! arrival_key a1 = None ->
  detection cfg ext (arr_content a1) = Ok l1 ->
  detection cfg ext (arr_content a2) = Ok l2 ->
  exists w',
    (enqueue cfg ext a1 ;;; enqueue cfg ext a2) w = (Ok tt, w') /\
    message_queues (message_handler w') =
      <[arrival_key a1 :=
          MessageHandler.append_message (first_entry cfg a1 l1)
            (arr_content a2) (time_time (arr_ambient a2))
            (link_found cfg l2) l2]> (message_queues (message_handler w)) /\
    queue_timers (message_handler w') =
      <[arrival_key a1 := Some (S (length (timers w)))]>
        (queue_timers (message_handler w)) /\
    length (timers w') = S (S (length (timers w))) /\
    Threading.live w' (length (timers w)) = false /\
    Threading.live w' (S (length (timers w))) = true.
Proof.
  intros Hk Hnone H1 H2.
  destruct (enqueue_run cfg ext a1 w l1 H1)
    as (w1 & E1 & Q1 & T1 & S1 & _ & _).
  destruct (enqueue_run cfg ext a2 w1 l2 H2)
    as (w2 & E2 & Q2 & T2 & S2 & _ & _).
  exists w2. rewrite (bind_ok _ _ _ _ _ E1), E2.
  rewrite Hnone in Q1. fold (cancel_registered
    (queue_timers (message_handler w) !! arrival_key a1) (timers w)) in S1.
  set (ts := cancel_registered _ _) in S1.
  assert (Hlen : length ts = length (timers w))
    by apply length_cancel_registered.
  rewrite <- Hk, Q1, lookup_insert_eq, insert_insert_eq in Q2.
  rewrite <- Hk, T1, insert_insert_eq in T2.
  rewrite <- Hk, T1, lookup_insert_eq in S2.
  assert (Hl1 : length (timers w1) = S (length (timers w)))
    by (rewrite S1, length_app, Hlen; simpl; lia).
  rewrite Hl1 in T2.
  rewrite S1, <- Hlen in S2.
  replace (length ts) with (length ts + 0)%nat in S2 at 1 by lia.
  rewrite alter_app_r in S2. simpl in S2.
  repeat split; try assumption.
  - rewrite S2, !length_app, Hlen. simpl. lia.
  - unfold Threading.live. rewrite S2, <- Hlen, <- app_assoc. simpl.
    now rewrite list_lookup_middle.
  - unfold Threading.live. rewrite S2.
    replace (S (length (timers w))) with
      (length (ts ++ [Threading.mark_finished
                        (Threading.armed (QUEUE_TIMEOUT cfg)
                           (CbProcessMessageQueue (arrival_key a1)))]))
      by (rewrite length_app, Hlen; simpl; lia).
    now rewrite list_lookup_middle.
Qed.

End EnqueueTwice.

(** ** The conversation key *)

(** C10. The key resolver is not injective.  A group message from sender
    [s] in chat [c] gets the key of the private chat named [c_s]; the group
    pairs (a_b, c) and (a, b_c) get the same key; and two arrivals whose
    keys coincide share one queue entry and one registered debounce
    timer. *)
Theorem queue_key_not_injective :
  (forall c s s',
      MessageHandler._get_queue_key c s true
      = MessageHandler._get_queue_key (c +:+ "_" +:+ s) s' false) /\
  MessageHandler._get_queue_key "a_b" "c" true
  = MessageHandler._get_queue_key "a" "b_c" true /\
  ("a_b", "c") <> ("a", "b_c") /\
  ~ (forall c1 s1 g1 c2 s2 g2,
        MessageHandler._get_queue_key c1 s1 g1
        = MessageHandler._get_queue_key c2 s2 g2 ->
        (c1, s1, g1) = (c2, s2, g2)) /\
  (forall cfg ext a1 a2 w l1 l2,
      arrival_key a1 = arrival_key a2 ->
      message_queues (message_handler w) !! arrival_key a1 = None ->
      detection cfg ext (arr_content a1) = Ok l1 ->
      detection cfg ext (arr_content a2) = Ok l2 ->
      exists w' q,
        (enqueue cfg ext a1 ;;; enqueue cfg ext a2) w = (Ok tt, w') /\
        message_queues (message_handler w') =
          <[arrival_key a1 := q]> (message_queues (message_handler w)) /\
        messages q =
          ["[" +:+ strftime_now (arr_ambient a1) +:+ "]" +:+ nl
           +:+ arr_content a1; arr_content a2] /\
        chat_id q = arr_chat_id a1 /\
        queue_timers (message_handler w') =
          <[arrival_key a1 := Some (S (length (timers w)))]>
            (queue_timers (message_handler w)) /\
        Threading.live w' (length (timers w)) = false /\
        Threading.live w' (S (length (timers w))) = true).
Proof.
  split; [|split; [|split; [|split]]].
  - intros c s s'. reflexivity.
  - reflexivity.
  - discriminate.
  - intros H. specialize (H "a_b" "c" true "a" "b_c" true eq_refl).
    discriminate.
  - intros cfg ext a1 a2 w l1 l2 Hk Hnone H1 H2.
    destruct (enqueue_twice cfg ext a1 a2 w l1 l2 Hk Hnone H1 H2)
      as (w' & E & Q & T & _ & L1 & L2).
    exists w'. eexists. repeat split; try eassumption; reflexivity.
Qed.

(** ** Runs and their events *)

Lemma runs_ret {A} (a : A) w : runs (ret a) w (Ok a) [].
Proof. unfold runs, ret. now rewrite set_trace_nil. Qed.

Lemma runs_call {A} e (o : outcome A) w : runs (call e o) w o [e].
Proof. reflexivity. Qed.

Lemma runs_bind {A B} (m : M A) (k : A -> M B) w a e1 r e2 :
  runs m w (Ok a) e1 ->
  runs (k a) (set_trace (fun t => t ++ e1) w) r e2 ->
  runs (bind m k) w r (e1 ++ e2).
Proof.
  unfold runs. intros H1 H2. rewrite (bind_ok _ _ _ _ _ H1), H2.
  now rewrite set_trace_app.
Qed.

Lemma runs_bind_raise {A B} (m : M A) (k : A -> M B) w e e1 :
  runs m w (Raise e) e1 -> runs (bind m k) w (Raise e) e1.
Proof. unfold runs. intros H. now rewrite (bind_raise _ _ _ _ _ H). Qed.

Lemma runs_new_events {A} (m : M A) w r evs :
  runs m w r evs -> new_events m w = evs.
Proof.
  unfold runs, new_events. intros ->. simpl. apply drop_app_length.
Qed.

Lemma runs_functional {A} (m : M A) w r1 e1 r2 e2 :
  runs m w r1 e1 -> runs m w r2 e2 -> r1 = r2 /\ e1 = e2.
Proof.
  intros H1 H2. pose proof (runs_new_events _ _ _ _ H1) as N1.
  pose proof (runs_new_events _ _ _ _ H2) as N2.
  unfold runs in H1, H2. rewrite H1 in H2. split; [congruence|].
  now rewrite <- N1, <- N2.
Qed.

Lemma prefix_refl s : String.prefix s s = true.
Proof.
  induction s as [|c s IH]; simpl; [reflexivity|].
  destruct (ascii_dec c c); [exact IH | congruence].
Qed.

Lemma prefix_append s t : String.prefix s (s +:+ t) = true.
Proof.
  induction s as [|c s IH]; simpl; [now destruct t|].
  destruct (ascii_dec c c); [exact IH | congruence].
Qed.

Section Flush.

Context (cfg : Config) (ext : Oracle).

Lemma with_original_prefix combined r other :
  String.prefix combined other = true ->
  String.prefix combined (MessageHandler.with_original combined r other) = true.
Proof.
  intros H. unfold MessageHandler.with_original.
  destruct r as [res|]; [|exact H].
  destruct (PyStr.truthy (original res)); [apply prefix_append | exact H].
Qed.

(** The link step calls no responder and returns a string that begins
    with the merged messages. *)
Lemma resolve_links_runs q w :
  exists r evs,
    runs (MessageHandler.resolve_links cfg ext q) w r evs /\
    forallb is_extract evs = true /\
    (forall p, r = Ok p ->
               String.prefix (MessageHandler.combined_message q) p = true).
Proof.
  unfold MessageHandler.resolve_links.
  destruct (has_link q && WEBLENS_ENABLED cfg).
  - destruct (urls q) as [|url rest].
    + exists (Ok (MessageHandler.combined_message q)), [].
      split; [apply runs_ret | split; [reflexivity|]].
      intros p [= <-]. apply prefix_refl.
    + destruct (extract_web_content ext url) as [res|e] eqn:E.
      * eexists _, ([EvExtractWeb url] ++ []). split.
        { eapply runs_bind; [apply runs_call | apply runs_ret]. }
        split; [reflexivity|]. intros p [= <-].
        apply with_original_prefix, prefix_refl.
      * exists (Raise e), [EvExtractWeb url]. split.
        { apply runs_bind_raise. apply runs_call. }
        split; [reflexivity | discriminate].
  - exists (Ok (MessageHandler.combined_message q)), [].
    split; [apply runs_ret | split; [reflexivity|]].
    intros p [= <-]. apply prefix_refl.
Qed.

Lemma search_step_runs q p0 w :
  String.prefix (MessageHandler.combined_message q) p0 = true ->
  exists r evs,
    runs (MessageHandler.search_step cfg ext q p0) w r evs /\
    forallb is_preparation evs = true /\
    (forall p, r = Ok p ->
               String.prefix (MessageHandler.combined_message q) p = true).
Proof.
  intros Hp. unfold MessageHandler.search_step.
  destruct (NETWORK_SEARCH_ENABLED cfg).
  - set (ev := EvRecognize _ _ _).
    destruct (recognize_time_and_search ext _ _ _) as [intent|e] eqn:E.
    + destruct (search_required intent && PyStr.truthy (search_query intent))
        eqn:Eb.
      * destruct (search_internet ext (search_query intent)) as [res|e] eqn:Es.
        -- eexists _, ([ev] ++ [EvSearch (search_query intent)] ++ []). split.
           { eapply runs_bind; [apply runs_call|]. rewrite Eb.
             eapply runs_bind; [rewrite Es; apply runs_call|]. apply runs_ret. }
           split; [reflexivity|]. intros p [= <-].
           now apply with_original_prefix.
        -- exists (Raise e), ([ev] ++ [EvSearch (search_query intent)]). split.
           { eapply runs_bind; [apply runs_call|]. rewrite Eb.
             apply runs_bind_raise. rewrite Es. apply runs_call. }
           split; [reflexivity | discriminate].
      * eexists _, ([ev] ++ []). split.
        { eapply runs_bind; [apply runs_call|]. rewrite Eb. apply runs_ret. }
        split; [reflexivity|]. now intros p [= <-].
    + exists (Raise e), [ev]. split.
      { apply runs_bind_raise. apply runs_call. }
      split; [reflexivity | discriminate].
  - exists (Ok p0), []. split; [apply runs_ret | split; [reflexivity|]].
    now intros p [= <-].
Qed.

Lemma dispatch_runs r p q w :
  runs (MessageHandler.dispatch ext r p q) w
       (respond ext r p (chat_id q) (sender_name q) (username q) (is_group q))
       [respond_event r p q].
Proof. apply runs_call. Qed.

(** The classification either fails in a classifier, calling no responder,
    or calls the one responder the priority order selects. *)
Lemma classify_and_dispatch_runs q p w :
  exists r pre d,
    runs (MessageHandler.classify_and_dispatch ext q p) w r (pre ++ d) /\
    forallb is_preparation pre = true /\
    ((d = [] /\ exists e, r = Raise e /\ spec_route ext p = Raise e) \/
     (exists resp,
         d = [respond_event resp p q] /\
         spec_route ext p = Ok resp /\
         r = respond ext resp p (chat_id q) (sender_name q) (username q)
                     (is_group q))).
Proof.
  unfold MessageHandler.classify_and_dispatch, spec_route.
  destruct (is_voice_request ext p) as [[|]|e] eqn:Ev.
  - eexists _, [EvIsVoice p], _. split.
    { eapply runs_bind; [apply runs_call|]. apply dispatch_runs. }
    split; [reflexivity|]. right. now exists VoiceResponder.
  - destruct (is_random_image_request ext p) as [[|]|e] eqn:Ei.
    + eexists _, ([EvIsVoice p] ++ [EvIsImage p]), _. split.
      { rewrite <- app_assoc. eapply runs_bind; [apply runs_call|].
        eapply runs_bind; [apply runs_call|]. apply dispatch_runs. }
      split; [reflexivity|]. right. now exists RandomImageResponder.
    + eexists _, ([EvIsVoice p] ++ [EvIsImage p]), _. split.
      { rewrite <- app_assoc. eapply runs_bind; [apply runs_call|].
        eapply runs_bind; [apply runs_call|]. apply dispatch_runs. }
      split; [reflexivity|]. right. now exists TextResponder.
    + exists (Raise e), ([EvIsVoice p] ++ [EvIsImage p]), []. split.
      { rewrite app_nil_r. eapply runs_bind; [apply runs_call|].
        apply runs_bind_raise. apply runs_call. }
      split; [reflexivity|]. left. split; [reflexivity|]. now exists e.
  - exists (Raise e), [EvIsVoice p], []. split.
    { rewrite app_nil_r. apply runs_bind_raise. apply runs_call. }
    split; [reflexivity|]. left. split; [reflexivity|]. now exists e.
Qed.

Lemma is_extract_preparation evs :
  forallb is_extract evs = true -> forallb is_preparation evs = true.
Proof.
  induction evs as [|e evs IH]; simpl; [reflexivity|].
  intros [He H]%andb_prop. rewrite (IH H).
  now destruct e.
Qed.

(** What [process_popped] does: preparation events, then either a failure
    with no responder called, or exactly one responder call, on a string
    that begins with the merged messages. *)
Lemma process_popped_runs q w :
  exists r pre d,
    runs (MessageHandler.process_popped cfg ext q) w r (pre ++ d) /\
    forallb is_preparation pre = true /\
    ((d = [] /\ exists e, r = Raise e) \/
     (exists resp p,
         d = [respond_event resp p q] /\
         r = respond ext resp p (chat_id q) (sender_name q) (username q)
                     (is_group q) /\
         String.prefix (MessageHandler.combined_message q) p = true /\
         ((MessageHandler._check_time_reminder_and_search p (sender_name q)
           = true /\ resp = TextResponder /\ forallb is_extract pre = true) \/
          spec_route ext p = Ok resp))).
Proof.
  unfold MessageHandler.process_popped.
  destruct (resolve_links_runs q w) as (r1 & e1 & R1 & P1 & X1).
  destruct r1 as [p1|e].
  - specialize (X1 p1 eq_refl).
    destruct (MessageHandler._check_time_reminder_and_search p1 (sender_name q))
      eqn:Eg.
    + eexists _, e1, _. split.
      { eapply runs_bind; [exact R1|]. rewrite Eg. apply dispatch_runs. }
      split; [now apply is_extract_preparation|].
      right. exists TextResponder, p1. repeat split; auto.
    + destruct (search_step_runs q p1 (set_trace (fun t => t ++ e1) w) X1)
        as (r2 & e2 & R2 & P2 & X2).
      destruct r2 as [p2|e].
      * specialize (X2 p2 eq_refl).
        destruct (classify_and_dispatch_runs q p2
                    (set_trace (fun t => t ++ e2)
                       (set_trace (fun t => t ++ e1) w)))
          as (r3 & pre & d & R3 & P3 & C3).
        exists r3, (e1 ++ e2 ++ pre), d. split.
        { rewrite <- !app_assoc. eapply runs_bind; [exact R1|]. rewrite Eg.
          eapply runs_bind; [exact R2|]. exact R3. }
        split.
        { rewrite !forallb_app, P2, P3, (is_extract_preparation _ P1).
          reflexivity. }
        destruct C3 as [(-> & e & -> & _) | (resp & -> & Hr & ->)].
        -- left. split; [reflexivity | now exists e].
        -- right. exists resp, p2. repeat split; auto.
      * exists (Raise e), (e1 ++ e2), []. split.
        { rewrite app_nil_r. eapply runs_bind; [exact R1|]. rewrite Eg.
          apply runs_bind_raise. exact R2. }
        split.
        { now rewrite forallb_app, P2, (is_extract_preparation _ P1). }
        left. split; [reflexivity | now exists e].
  - exists (Raise e), e1, []. split.
    { rewrite app_nil_r. apply runs_bind_raise. exact R1. }
    split; [now apply is_extract_preparation|].
    left. split; [reflexivity | now exists e].
Qed.

(** [_check_time_reminder_and_search], spelled out: the sender is not the
    system and the string holds the marker. *)
Lemma marker_test_spelled_out p s :
  MessageHandler._check_time_reminder_and_search p s
  = negb (String.eqb s "System" || String.eqb (PyStr.lower s) "system")
    && PyStr.contains "可作为你的回复参考" p.
Proof.
  unfold MessageHandler._check_time_reminder_and_search.
  destruct (String.eqb s "System" || String.eqb (PyStr.lower s) "system");
    [reflexivity|].
  now destruct (PyStr.contains "可作为你的回复参考" p).
Qed.

(** The link step once more, with the call that failed when it fails. *)
Lemma resolve_links_outcome q w :
  exists r evs,
    runs (MessageHandler.resolve_links cfg ext q) w r evs /\
    forallb is_extract evs = true /\
    (forall p, r = Ok p ->
               String.prefix (MessageHandler.combined_message q) p = true) /\
    (forall e, r = Raise e ->
               exists pre ev, evs = pre ++ [ev] /\ raised_by ext e ev).
Proof.
  unfold MessageHandler.resolve_links.
  destruct (has_link q && WEBLENS_ENABLED cfg).
  - destruct (urls q) as [|url rest].
    + exists (Ok (MessageHandler.combined_message q)), [].
      split; [apply runs_ret|]. split; [reflexivity|].
      split; [|discriminate]. intros p [= <-]. apply prefix_refl.
    + destruct (extract_web_content ext url) as [res|e] eqn:E.
      * eexists _, ([EvExtractWeb url] ++ []). split.
        { eapply runs_bind; [apply runs_call | apply runs_ret]. }
        split; [reflexivity|]. split; [|discriminate]. intros p [= <-].
        apply with_original_prefix, prefix_refl.
      * exists (Raise e), [EvExtractWeb url]. split.
        { apply runs_bind_raise. apply runs_call. }
        split; [reflexivity|]. split; [discriminate|].
        intros e' [= <-]. now exists [], (EvExtractWeb url).
  - exists (Ok (MessageHandler.combined_message q)), [].
    split; [apply runs_ret|]. split; [reflexivity|].
    split; [|discriminate]. intros p [= <-]. apply prefix_refl.
Qed.

Lemma search_step_outcome q p0 w :
  String.prefix (MessageHandler.combined_message q) p0 = true ->
  exists r evs,
    runs (MessageHandler.search_step cfg ext q p0) w r evs /\
    forallb is_search evs = true /\
    (forall p, r = Ok p ->
               String.prefix (MessageHandler.combined_message q) p = true) /\
    (forall e, r = Raise e ->
               exists pre ev, evs = pre ++ [ev] /\ raised_by ext e ev).
Proof.
  intros Hp. unfold MessageHandler.search_step.
  destruct (NETWORK_SEARCH_ENABLED cfg).
  - set (ev := EvRecognize _ _ _).
    destruct (recognize_time_and_search ext _ _ _) as [intent|e] eqn:E.
    + destruct (search_required intent && PyStr.truthy (search_query intent))
        eqn:Eb.
      * destruct (search_internet ext (search_query intent)) as [res|e] eqn:Es.
        -- eexists _, ([ev] ++ [EvSearch (search_query intent)] ++ []). split.
           { eapply runs_bind; [apply runs_call|]. rewrite Eb.
             eapply runs_bind; [rewrite Es; apply runs_call|]. apply runs_ret. }
           split; [reflexivity|]. split; [|discriminate]. intros p [= <-].
           now apply with_original_prefix.
        -- exists (Raise e), ([ev] ++ [EvSearch (search_query intent)]). split.
           { eapply runs_bind; [apply runs_call|]. rewrite Eb.
             apply runs_bind_raise. rewrite Es. apply runs_call. }
           split; [reflexivity|]. split; [discriminate|].
           intros e' [= <-]. now exists [ev], (EvSearch (search_query intent)).
      * eexists _, ([ev] ++ []). split.
        { eapply runs_bind; [apply runs_call|]. rewrite Eb. apply runs_ret. }
        split; [reflexivity|]. split; [|discriminate]. now intros p [= <-].
    + exists (Raise e), [ev]. split.
      { apply runs_bind_raise. apply runs_call. }
      split; [reflexivity|]. split; [discriminate|].
      intros e' [= <-]. exists [], ev. split; [reflexivity|]. exact E.
  - exists (Ok p0), []. split; [apply runs_ret|]. split; [reflexivity|].
    split; [|discriminate]. now intros p [= <-].
Qed.

(** The classification, event by event. *)
Lemma classify_and_dispatch_exact q p w :
  runs (MessageHandler.classify_and_dispatch ext q p) w (routed ext p q)
       (classification_events ext p ++ routed_events ext p q).
Proof.
  unfold MessageHandler.classify_and_dispatch, routed, routed_events,
    classification_events, spec_route.
  destruct (is_voice_request ext p) as [[|]|e] eqn:Ev.
  - change ([EvIsVoice p] ++ [respond_event VoiceResponder p q])
      with ([EvIsVoice p] ++ [respond_event VoiceResponder p q]).
    eapply runs_bind; [apply runs_call|]. apply dispatch_runs.
  - destruct (is_random_image_request ext p) as [[|]|e] eqn:Ei.
    + change ([EvIsVoice p; EvIsImage p]
              ++ [respond_event RandomImageResponder p q])
        with ([EvIsVoice p]
              ++ [EvIsImage p] ++ [respond_event RandomImageResponder p q]).
      eapply runs_bind; [apply runs_call|].
      eapply runs_bind; [apply runs_call|]. apply dispatch_runs.
    + change ([EvIsVoice p; EvIsImage p] ++ [respond_event TextResponder p q])
        with ([EvIsVoice p]
              ++ [EvIsImage p] ++ [respond_event TextResponder p q]).
      eapply runs_bind; [apply runs_call|].
      eapply runs_bind; [apply runs_call|]. apply dispatch_runs.
    + change ([EvIsVoice p; EvIsImage p] ++ [])
        with ([EvIsVoice p] ++ [EvIsImage p]).
      eapply runs_bind; [apply runs_call|].
      apply runs_bind_raise. apply runs_call.
  - change ([EvIsVoice p] ++ []) with [EvIsVoice p].
    apply runs_bind_raise. apply runs_call.
Qed.




(** [process_popped] in its four courses: the link step fails; the marked
    string goes to the text responder at once; the search step fails; the
    string is classified. *)
Lemma process_popped_link_raise q w e e1 :
  runs (MessageHandler.resolve_links cfg ext q) w (Raise e) e1 ->
  runs (MessageHandler.process_popped cfg ext q) w (Raise e) e1.
Proof. intros R. unfold MessageHandler.process_popped. now apply runs_bind_raise. Qed.

Lemma process_popped_marked q w p1 e1 :
  runs (MessageHandler.resolve_links cfg ext q) w (Ok p1) e1 ->
  MessageHandler._check_time_reminder_and_search p1 (sender_name q) = true ->
  runs (MessageHandler.process_popped cfg ext q) w
       (respond ext TextResponder p1 (chat_id q) (sender_name q) (username q)
                (is_group q))
       (e1 ++ [respond_event TextResponder p1 q]).
Proof.
  intros R Hg. unfold MessageHandler.process_popped.
  eapply runs_bind; [exact R|]. rewrite Hg. apply dispatch_runs.
Qed.

Lemma process_popped_search_raise q w p1 e1 e e2 :
  runs (MessageHandler.resolve_links cfg ext q) w (Ok p1) e1 ->
  MessageHandler._check_time_reminder_and_search p1 (sender_name q) = false ->
  runs (MessageHandler.search_step cfg ext q p1)
       (set_trace (fun t => t ++ e1) w) (Raise e) e2 ->
  runs (MessageHandler.process_popped cfg ext q) w (Raise e) (e1 ++ e2).
Proof.
  intros R Hg R2. unfold MessageHandler.process_popped.
  eapply runs_bind; [exact R|]. rewrite Hg. now apply runs_bind_raise.
Qed.

Lemma process_popped_classified q w p1 e1 p2 e2 :
  runs (MessageHandler.resolve_links cfg ext q) w (Ok p1) e1 ->
  MessageHandler._check_time_reminder_and_search p1 (sender_name q) = false ->
  runs (MessageHandler.search_step cfg ext q p1)
       (set_trace (fun t => t ++ e1) w) (Ok p2) e2 ->
  runs (MessageHandler.process_popped cfg ext q) w (routed ext p2 q)
       (e1 ++ e2 ++ classification_events ext p2 ++ routed_events ext p2 q).
Proof.
  intros R Hg R2. unfold MessageHandler.process_popped.
  eapply runs_bind; [exact R|]. rewrite Hg.
  eapply runs_bind; [exact R2|]. apply classify_and_dispatch_exact.
Qed.


(** A trigger for a missing key, or one that comes too early, takes and
    releases the lock and changes nothing else. *)
Lemma flush_noop amb k w :
  match message_queues (message_handler w) !! k with
  | None => True
  | Some q => MessageHandler.too_early cfg (time_time amb) q = true
  end ->
  MessageHandler._process_message_queue cfg ext amb k w
  = (Ok None, set_trace (fun t => t ++ [EvAcquire; EvRelease]) w).
Proof.
  intros H. unfold MessageHandler._process_message_queue, try_except,
    with_queue_lock, bind, emit, modify, get, ret. simpl.
  destruct w as [ts mh au tr]. simpl in *.
  destruct (message_queues mh !! k) as [q|].
  - rewrite H. unfold set_trace. simpl. now rewrite <- app_assoc.
  - unfold set_trace. simpl. now rewrite <- app_assoc.
Qed.

(** A due trigger pops the entry and its timer handle and processes the
    popped batch, all between taking and releasing the lock. *)
Lemma flush_due amb k w q r evs :
  message_queues (message_handler w) !! k = Some q ->
  MessageHandler.too_early cfg (time_time amb) q = false ->
  runs (MessageHandler.process_popped cfg ext q)
       (pop_entry k (set_trace (fun t => t ++ [EvAcquire]) w)) r evs ->
  MessageHandler._process_message_queue cfg ext amb k w
  = (Ok (flush_result r),
     set_trace (fun t => t ++ [EvAcquire] ++ evs ++ [EvRelease] ++ flush_tail r)
               (pop_entry k w)).
Proof.
  intros Hq He Hr. unfold MessageHandler._process_message_queue, try_except,
    with_queue_lock. unfold bind at 1, emit, modify. simpl.
  unfold bind at 1, get. simpl. rewrite Hq, He.
  unfold bind at 1, MessageHandler.on_handler, modify. simpl.
  unfold bind at 1, modify. simpl.
  change (set_message_handler
            (set_queue_timers (delete k))
            (set_message_handler
               (set_message_queues (delete k))
               (set_trace (fun t => t ++ [EvAcquire]) w)))
    with (pop_entry k (set_trace (fun t => t ++ [EvAcquire]) w)).
  unfold runs in Hr. rewrite Hr.
  destruct w as [ts mh au tr]. destruct r as [v|e]; simpl;
    unfold pop_entry, set_trace, set_message_handler, bind, emit, modify, ret;
    simpl; rewrite <- ?app_assoc; simpl; rewrite ?app_nil_r; reflexivity.
Qed.

End Flush.

(** ** The flush trigger *)

Lemma Qltb_false_iff a b : Qltb a b = false <-> (b <= a)%Q.
Proof.
  unfold Qltb. rewrite negb_false_iff. apply Qle_bool_iff.
Qed.

Lemma too_early_false_iff cfg now q :
  MessageHandler.too_early cfg now q = false
  <-> (QUEUE_TIMEOUT cfg - (1 # 10) <= now - last_update q)%Q.
Proof. apply Qltb_false_iff. Qed.

Lemma due_dec cfg now k w :
  due cfg now k w \/
  match message_queues (message_handler w) !! k with
  | None => True
  | Some q => MessageHandler.too_early cfg now q = true
  end.
Proof.
  unfold due. destruct (message_queues (message_handler w) !! k) as [q|].
  - destruct (MessageHandler.too_early cfg now q) eqn:E; [now right|].
    left. exists q. split; [reflexivity|]. now apply too_early_false_iff.
  - now right.
Qed.

Lemma not_due_early cfg now k w :
  ~ due cfg now k w ->
  match message_queues (message_handler w) !! k with
  | None => True
  | Some q => MessageHandler.too_early cfg now q = true
  end.
Proof. intros H. destruct (due_dec cfg now k w) as [D|E]; [contradiction|exact E]. Qed.

(** C3. The flush trigger removes the queue entry and its timer handle, and
    goes on to process the entry, exactly when an entry for the key exists
    and the time since its last update is at least the timeout less the
    tolerance; otherwise it is a no-op on the queue store and the timer map.
    Of two triggers for one key, at most one pops the entry. *)
Theorem flush_trigger_pops_iff_due cfg ext amb k w :
  let res := MessageHandler._process_message_queue cfg ext amb k w in
  (due cfg (time_time amb) k w ->
     exists q r evs,
       message_queues (message_handler w) !! k = Some q /\
       runs (MessageHandler.process_popped cfg ext q)
            (pop_entry k (set_trace (fun t => t ++ [EvAcquire]) w)) r evs /\
       res = (Ok (flush_result r),
              set_trace (fun t => t ++ [EvAcquire] ++ evs ++ [EvRelease]
                                    ++ flush_tail r) (pop_entry k w)) /\
       message_queues (message_handler (snd res))
       = delete k (message_queues (message_handler w)) /\
       queue_timers (message_handler (snd res))
       = delete k (queue_timers (message_handler w))) /\
  (~ due cfg (time_time amb) k w ->
     res = (Ok None, set_trace (fun t => t ++ [EvAcquire; EvRelease]) w) /\
     message_handler (snd res) = message_handler w /\
     timers (snd res) = timers w) /\
  (pops cfg ext amb k w <-> due cfg (time_time amb) k w) /\
  (forall amb2,
      ~ (pops cfg ext amb k w /\ pops cfg ext amb2 k (snd res))).
Proof.
  intros res.
  assert (Hdue : due cfg (time_time amb) k w ->
     exists q r evs,
       message_queues (message_handler w) !! k = Some q /\
       runs (MessageHandler.process_popped cfg ext q)
            (pop_entry k (set_trace (fun t => t ++ [EvAcquire]) w)) r evs /\
       res = (Ok (flush_result r),
              set_trace (fun t => t ++ [EvAcquire] ++ evs ++ [EvRelease]
                                    ++ flush_tail r) (pop_entry k w)) /\
       message_queues (message_handler (snd res))
       = delete k (message_queues (message_handler w)) /\
       queue_timers (message_handler (snd res))
       = delete k (queue_timers (message_handler w))).
  { intros (q & Hq & Ht). apply too_early_false_iff in Ht.
    destruct (process_popped_runs cfg ext q
                (pop_entry k (set_trace (fun t => t ++ [EvAcquire]) w)))
      as (r & pre & d & R & _).
    exists q, r, (pre ++ d).
    pose proof (flush_due cfg ext amb k w q r (pre ++ d) Hq Ht R) as E.
    fold res in E. rewrite E. repeat split; auto. }
  assert (Hnot : ~ due cfg (time_time amb) k w ->
     res = (Ok None, set_trace (fun t => t ++ [EvAcquire; EvRelease]) w) /\
     message_handler (snd res) = message_handler w /\
     timers (snd res) = timers w).
  { intros H%not_due_early. pose proof (flush_noop cfg ext amb k w H) as E.
    fold res in E. rewrite E. repeat split. }
  assert (Hiff : pops cfg ext amb k w <-> due cfg (time_time amb) k w).
  { split.
    - intros [Hs Hn]. destruct (due_dec cfg (time_time amb) k w) as [D|E];
        [exact D|].
      exfalso. rewrite (flush_noop cfg ext amb k w E) in Hn. simpl in Hn.
      rewrite Hn in Hs. now destruct Hs.
    - intros D. destruct (Hdue D) as (q & r & evs & Hq & _ & _ & Hm & _).
      split; [rewrite Hq; eauto|]. fold res. rewrite Hm.
      apply lookup_delete_eq. }
  split; [exact Hdue|]. split; [exact Hnot|]. split; [exact Hiff|].
  intros amb2 [[_ Hgone] [Hs _]]. fold res in Hgone. rewrite Hgone in Hs.
  now destruct Hs.
Qed.

(** ** The lock around the flush *)

Lemma io_under_lock_body evs rest :
  forallb (fun e => negb (is_lock_event e)) evs = true ->
  io_under_lock true (evs ++ EvRelease :: rest)
  = existsb is_external_io evs || io_under_lock false rest.
Proof.
  induction evs as [|e evs IH]; simpl; [reflexivity|].
  intros [He H]%andb_prop. rewrite <- orb_assoc, <- (IH H).
  now destruct e.
Qed.

Lemma io_under_lock_quiet held evs :
  forallb (fun e => negb (is_lock_event e) && negb (is_external_io e)) evs
  = true ->
  io_under_lock held evs = false.
Proof.
  induction evs as [|e evs IH]; simpl; [reflexivity|].
  intros [He H]%andb_prop. rewrite (IH H).
  apply andb_prop in He as [H1 H2].
  destruct e; simpl in *; try discriminate; now rewrite ?andb_false_r.
Qed.

Lemma preparation_no_lock evs :
  forallb is_preparation evs = true ->
  forallb (fun e => negb (is_lock_event e)) evs = true.
Proof.
  induction evs as [|e evs IH]; simpl; [reflexivity|].
  intros [He H]%andb_prop. rewrite (IH H).
  unfold is_preparation in He. apply andb_prop in He as [_ ->]. reflexivity.
Qed.

Lemma flush_tail_quiet {A} (r : outcome A) :
  forallb (fun e => negb (is_lock_event e) && negb (is_external_io e))
          (flush_tail r) = true.
Proof. now destruct r. Qed.

(** C2, as the code has it.  The flush trigger takes the queue lock once,
    on entry, and releases it once, when its body is left.  Everything a
    flush does for the popped batch (link extraction, search, classification,
    responder call) lies between the two, so a flush that makes an external
    call at all makes it while holding the lock; only the error log of the
    exception handler comes after the release. *)
Theorem flush_holds_lock_throughout cfg ext amb k w :
  let flush := MessageHandler._process_message_queue cfg ext amb k in
  exists evs tail,
    new_events flush w = [EvAcquire] ++ evs ++ [EvRelease] ++ tail /\
    forallb (fun e => negb (is_lock_event e)) evs = true /\
    forallb (fun e => negb (is_lock_event e) && negb (is_external_io e)) tail
    = true /\
    io_under_lock false (new_events flush w) = existsb is_external_io evs /\
    (forall q,
        message_queues (message_handler w) !! k = Some q ->
        MessageHandler.too_early cfg (time_time amb) q = false ->
        exists r,
          runs (MessageHandler.process_popped cfg ext q)
               (pop_entry k (set_trace (fun t => t ++ [EvAcquire]) w)) r evs).
Proof.
  intros flush.
  destruct (due_dec cfg (time_time amb) k w) as [(q & Hq & Ht)|Hn].
  - apply too_early_false_iff in Ht.
    destruct (process_popped_runs cfg ext q
                (pop_entry k (set_trace (fun t => t ++ [EvAcquire]) w)))
      as (r & pre & d & R & P & C).
    assert (Hnl : forallb (fun e => negb (is_lock_event e)) (pre ++ d) = true).
    { rewrite forallb_app, (preparation_no_lock _ P).
      destruct C as [[-> _] | (resp & p & -> & _)]; reflexivity. }
    exists (pre ++ d), (flush_tail r).
    assert (E : new_events flush w
                = [EvAcquire] ++ (pre ++ d) ++ [EvRelease] ++ flush_tail r).
    { unfold new_events, flush.
      rewrite (flush_due cfg ext amb k w q r (pre ++ d) Hq Ht R). simpl.
      apply (drop_app_length (trace w)). }
    split; [exact E|]. split; [exact Hnl|].
    split; [apply flush_tail_quiet|]. split.
    + rewrite E. simpl. rewrite (io_under_lock_body _ _ Hnl).
      now rewrite (io_under_lock_quiet _ _ (flush_tail_quiet r)), orb_false_r.
    + intros q' Hq' _. rewrite Hq in Hq'. injection Hq' as <-. now exists r.
  - exists [], [].
    assert (E : new_events flush w = [EvAcquire] ++ [] ++ [EvRelease] ++ []).
    { unfold new_events, flush. rewrite (flush_noop cfg ext amb k w Hn). simpl.
      apply (drop_app_length (trace w)). }
    split; [exact E|]. repeat split.
    + now rewrite E.
    + intros q Hq Ht. rewrite Hq, Ht in Hn. discriminate.
Qed.

(** C2, as stated, fails: a due trigger for a queue holding one message
    calls the classifiers and the responder between taking and releasing
    the lock. *)
Lemma flush_io_under_lock_example :
  let w := Sample.after (Sample.config false) Sample.oracle
             [Sample.private_arrival 0 "alice" "hi"] in
  let flush := MessageHandler._process_message_queue (Sample.config false)
                 Sample.oracle (Sample.ambient 8 12 0) "alice" in
  pops (Sample.config false) Sample.oracle (Sample.ambient 8 12 0) "alice" w /\
  existsb is_respond (new_events flush w) = true /\
  io_under_lock false (new_events flush w) = true.
Proof.
  split; [split; [vm_compute; eauto | vm_compute; reflexivity]|].
  split; vm_compute; reflexivity.
Qed.

(** ** Routing of a flushed batch *)

(** C9, as the code has it.  A due trigger pops the batch and runs the
    link step.  When the batch is not from a "System" sender and the string
    after the link step contains the search marker, the text responder is
    called on that string at once: no search, no classifier.  Otherwise the
    search step runs and its string is classified, voice request first,
    random-image request second, plain text otherwise, and the responder so
    selected is called.  Every responder call carries the chat id, sender
    name, username and group flag of the batch, and there is exactly one of
    them, the last event under the lock; when the link step, the search step
    or a classifier raises, no responder is called, the error is logged and
    the batch is dropped. *)
Theorem flush_calls_one_responder cfg ext amb k w q :
  message_queues (message_handler w) !! k = Some q ->
  MessageHandler.too_early cfg (time_time amb) q = false ->
  let flush := MessageHandler._process_message_queue cfg ext amb k w in
  let w0 := pop_entry k (set_trace (fun t => t ++ [EvAcquire]) w) in
  let answer r p :=
    respond ext r p (chat_id q) (sender_name q) (username q) (is_group q) in
  exists r1 e1,
    runs (MessageHandler.resolve_links cfg ext q) w0 r1 e1 /\
    forallb is_extract e1 = true /\
    match r1 with
    | Raise e => flush = flushed k e1 (Raise e) w
    | Ok p1 =>
        String.prefix (MessageHandler.combined_message q) p1 = true /\
        if negb (String.eqb (sender_name q) "System"
                 || String.eqb (PyStr.lower (sender_name q)) "system")
           && PyStr.contains "可作为你的回复参考" p1
        then
          flush = flushed k (e1 ++ [respond_event TextResponder p1 q])
                          (answer TextResponder p1) w
        else
          exists r2 e2,
            runs (MessageHandler.search_step cfg ext q p1)
                 (set_trace (fun t => t ++ e1) w0) r2 e2 /\
            forallb is_search e2 = true /\
            match r2 with
            | Raise e => flush = flushed k (e1 ++ e2) (Raise e) w
            | Ok p2 =>
                String.prefix (MessageHandler.combined_message q) p2 = true /\
                match spec_route ext p2 with
                | Ok resp =>
                    flush
                    = flushed k (e1 ++ e2 ++ classification_events ext p2
                                    ++ [respond_event resp p2 q])
                              (answer resp p2) w
                | Raise e =>
                    flush
                    = flushed k (e1 ++ e2 ++ classification_events ext p2)
                              (Raise e) w
                end
            end
    end.
Proof.
  intros Hq Ht flush w0 answer.
  destruct (resolve_links_outcome cfg ext q w0) as (r1 & e1 & R1 & P1 & X1 & _).
  exists r1, e1. split; [exact R1|]. split; [exact P1|].
  destruct r1 as [p1|e].
  - specialize (X1 p1 eq_refl). split; [exact X1|].
    rewrite <- marker_test_spelled_out.
    destruct (MessageHandler._check_time_reminder_and_search p1 (sender_name q))
      eqn:Eg.
    + exact (flush_due cfg ext amb k w q _ _ Hq Ht
               (process_popped_marked cfg ext q w0 p1 e1 R1 Eg)).
    + destruct (search_step_outcome cfg ext q p1
                  (set_trace (fun t => t ++ e1) w0) X1)
        as (r2 & e2 & R2 & P2 & X2 & _).
      exists r2, e2. split; [exact R2|]. split; [exact P2|].
      destruct r2 as [p2|e].
      * split; [exact (X2 p2 eq_refl)|].
        pose proof (flush_due cfg ext amb k w q _ _ Hq Ht
                      (process_popped_classified cfg ext q w0 p1 e1 p2 e2
                         R1 Eg R2)) as F.
        unfold routed, routed_events in F.
        destruct (spec_route ext p2) as [resp|e]; [exact F|].
        now rewrite app_nil_r in F.
      * exact (flush_due cfg ext amb k w q _ _ Hq Ht
                 (process_popped_search_raise cfg ext q w0 p1 e1 e e2
                    R1 Eg R2)).
  - exact (flush_due cfg ext amb k w q _ _ Hq Ht
             (process_popped_link_raise cfg ext q w0 e e1 R1)).
Qed.

(** C9, as stated, fails: a batch from alice that carries the search marker
    and asks for a voice message goes to the text responder, and no
    classifier is consulted. *)
Lemma marked_voice_request_goes_to_text :
  let cfg := Sample.config false in
  let a := Sample.private_arrival 0 "alice" "可作为你的回复参考 voice" in
  let q := first_entry cfg a [] in
  let p := MessageHandler.combined_message q in
  message_queues (message_handler (Sample.after cfg Sample.oracle [a])) !! "alice"
  = Some q /\
  new_events (MessageHandler._process_message_queue cfg Sample.oracle
                (Sample.ambient 8 12 0) "alice")
             (Sample.after cfg Sample.oracle [a])
  = [EvAcquire; respond_event TextResponder p q; EvRelease] /\
  spec_route Sample.oracle p = Ok VoiceResponder.
Proof. split; [|split]; vm_compute; reflexivity. Qed.

(** ** Coalescing *)

Section Coalescing.

Context (cfg : Config) (ext : Oracle).





End Coalescing.





(** ** Link accumulation *)

(** C8, as the code has it.  With WebLens enabled: a first message without
    a link followed, under the same key, by a message in which [u] is the
    first detected URL leaves the entry with [has_link] set and [urls = [u]];
    and on every append [has_link] is or-ed with the flag of the call and a
    detected link adds its first URL to [urls]. *)
Theorem link_accumulation cfg ext :
  WEBLENS_ENABLED cfg = true ->
  (forall a b w u rest,
      arrival_key a = arrival_key b ->
      message_queues (message_handler w) !! arrival_key a = None ->
      detect_urls ext (arr_content a) = Ok [] ->
      detect_urls ext (arr_content b) = Ok (u :: rest) ->
      exists w' q,
        (enqueue cfg ext a ;;; enqueue cfg ext b) w = (Ok tt, w') /\
        message_queues (message_handler w') !! arrival_key a = Some q /\
        has_link q = true /\ urls q = [u]) /\
  (forall b w q l,
      message_queues (message_handler w) !! arrival_key b = Some q ->
      detect_urls ext (arr_content b) = Ok l ->
      exists w' q',
        enqueue cfg ext b w = (Ok tt, w') /\
        message_queues (message_handler w') !! arrival_key b = Some q' /\
        has_link q' = match l with [] => false | _ => true end || has_link q /\
        urls q' = match l with u :: _ => urls q ++ [u] | [] => urls q end).
Proof.
  intros Hwl. split.
  - intros a b w u rest Hk Hnone Ha Hb.
    assert (Da : detection cfg ext (arr_content a) = Ok [])
      by (unfold detection; now rewrite Hwl).
    assert (Db : detection cfg ext (arr_content b) = Ok (u :: rest))
      by (unfold detection; now rewrite Hwl).
    destruct (enqueue_twice cfg ext a b w _ _ Hk Hnone Da Db)
      as (w' & E & Q & _).
    exists w'. eexists. split; [exact E|]. split.
    + rewrite Q. apply lookup_insert_eq.
    + simpl. unfold link_found. rewrite Hwl. simpl. split; reflexivity.
  - intros b w q l Hq Hb.
    assert (Db : detection cfg ext (arr_content b) = Ok l)
      by (unfold detection; now rewrite Hwl).
    destruct (enqueue_run cfg ext b w l Db) as (w' & E & Q & _).
    rewrite Hq in Q. exists w'. eexists. split; [exact E|]. split.
    + rewrite Q. apply lookup_insert_eq.
    + unfold link_found. rewrite Hwl. simpl. split; [reflexivity|].
      now destruct l.
Qed.

(** C8, as stated, fails when WebLens is disabled: detection is skipped,
    so the message with the URL leaves [has_link] false and [urls] empty. *)
Lemma link_ignored_without_weblens :
  let cfg := Sample.config false in
  let a := Sample.private_arrival 0 "alice" "hello" in
  let b := Sample.private_arrival 7 "alice" ("see " +:+ Sample.url) in
  detect_urls Sample.oracle (arr_content a) = Ok [] /\
  detect_urls Sample.oracle (arr_content b) = Ok [Sample.url] /\
  exists q,
    message_queues (message_handler (Sample.after cfg Sample.oracle [a; b]))
      !! "alice" = Some q /\
    messages q = ["[2025-01-01 12:00:00]" +:+ nl +:+ "hello";
                  "see " +:+ Sample.url] /\
    has_link q = false /\ urls q = [].
Proof.
  split; [vm_compute; reflexivity|]. split; [vm_compute; reflexivity|].
  eexists. split; [vm_compute; reflexivity|].
  split; [|split]; vm_compute; reflexivity.
Qed.

(** ** Quiet hours *)

Lemma time_le_micros a b :
  Datetime.valid_time a -> Datetime.valid_time b ->
  Datetime.time_le a b = true <-> (Datetime.micros a <= Datetime.micros b)%Z.
Proof.
  destruct a as [h1 m1 s1 u1], b as [h2 m2 s2 u2].
  unfold Datetime.valid_time, Datetime.time_le, Datetime.cmp_time,
    Datetime.micros. simpl.
  intros (_ & Hm1 & Hs1 & Hu1) (_ & Hm2 & Hs2 & Hu2).
  destruct (Nat.compare_spec h1 h2); [|split; [lia|reflexivity]
                                      |split; [discriminate|lia]].
  destruct (Nat.compare_spec m1 m2); [|split; [lia|reflexivity]
                                      |split; [discriminate|lia]].
  destruct (Nat.compare_spec s1 s2); [|split; [lia|reflexivity]
                                      |split; [discriminate|lia]].
  destruct (Nat.compare_spec u1 u2); subst; split;
    try reflexivity; try discriminate; lia.
Qed.

Lemma first_match_Some {A B} (f : A -> option B) l b :
  Datetime.first_match f l = Some b -> exists a, In a l /\ f a = Some b.
Proof.
  induction l as [|a l IH]; simpl; [discriminate|].
  destruct (f a) as [b'|] eqn:E.
  - intros [= <-]. exists a. auto.
  - intros H. destruct (IH H) as (a' & Hin & Ha'). exists a'. auto.
Qed.

Lemma digit_le_9 c : Datetime.is_digit c = true -> Datetime.digit c <= 9.
Proof.
  unfold Datetime.is_digit, Datetime.digit.
  intros [H1 H2]%andb_prop. apply Nat.leb_le in H1, H2. lia.
Qed.

Lemma in_range_le lo hi c :
  Datetime.in_range lo hi c = true -> Datetime.digit c <= hi.
Proof.
  unfold Datetime.in_range. intros [_ H]%andb_prop. now apply Nat.leb_le in H.
Qed.

Lemma alt_H_bound read s h r :
  Datetime.sound_reader read -> In (h, r) (Datetime.alt_H read s) -> h < 24.
Proof.
  intros [_ Hnine]. unfold Datetime.alt_H. intros H.
  apply in_app_or in H as [H|H]; [|apply in_app_or in H as [H|H]].
  - destruct s as [|c [|d r']]; try destruct H.
    destruct (Ascii.eqb c "2" && Datetime.in_range 0 3 d) eqn:E; [|destruct H].
    destruct H as [[= <- <-]|[]]. apply andb_prop in E as [_ E].
    apply in_range_le in E. lia.
  - destruct s as [|c r1]; [destruct H|].
    destruct (Datetime.in_range 0 1 c) eqn:E; [|destruct H].
    destruct (read r1) as [[d r']|] eqn:Er; [|destruct H].
    destruct H as [[= <- <-]|[]].
    apply in_range_le in E. apply Hnine in Er. lia.
  - destruct (read s) as [[d r']|] eqn:Er; [|destruct H].
    destruct H as [[= <- <-]|[]]. apply Hnine in Er. lia.
Qed.

Lemma alt_M_bound read s m r :
  Datetime.sound_reader read -> In (m, r) (Datetime.alt_M read s) -> m < 60.
Proof.
  intros [_ Hnine]. unfold Datetime.alt_M. intros H.
  apply in_app_or in H as [H|H].
  - destruct s as [|c r1]; [destruct H|].
    destruct (Datetime.in_range 0 5 c) eqn:E; [|destruct H].
    destruct (read r1) as [[d r']|] eqn:Er; [|destruct H].
    destruct H as [[= <- <-]|[]].
    apply in_range_le in E. apply Hnine in Er. lia.
  - destruct (read s) as [[d r']|] eqn:Er; [|destruct H].
    destruct H as [[= <- <-]|[]]. apply Hnine in Er. lia.
Qed.

(** Whatever [strptime] accepts is a time of day on the minute. *)
Lemma strptime_HM_valid read s t :
  Datetime.sound_reader read ->
  Datetime.strptime_HM read s = Some t ->
  Datetime.valid_time t /\ Datetime.second t = 0 /\ Datetime.microsecond t = 0.
Proof.
  intros Hread. unfold Datetime.strptime_HM, Datetime.match_HM.
  destruct (Datetime.first_match _ _) as [[[h m] [|c r]]|] eqn:E;
    try discriminate.
  intros [= <-]. apply first_match_Some in E as ([h' r1] & Hin & E).
  destruct (Datetime.expect_colon r1) as [r2|]; [|discriminate].
  apply first_match_Some in E as ([m' r3] & Hin' & [= -> -> ->]).
  apply (alt_H_bound read _ _ _ Hread) in Hin.
  apply (alt_M_bound read _ _ _ Hread) in Hin'.
  unfold Datetime.valid_time. simpl. repeat split; lia.
Qed.

(** Every "HH:MM" text of a wall-clock time is read back as that time,
    already by the reader of the ASCII digits. *)
Lemma strptime_HM_render h m :
  h < 24 -> m < 60 ->
  Datetime.strptime_HM Datetime.ascii_reader (render_HM h m)
  = Some (Datetime.mk_time h m 0 0).
Proof.
  intros Hh Hm.
  assert (H : forallb (fun i =>
            forallb (fun j =>
              match Datetime.strptime_HM Datetime.ascii_reader
                      (render_HM i j) with
              | Some t => Nat.eqb (Datetime.hour t) i
                          && Nat.eqb (Datetime.minute t) j
                          && Nat.eqb (Datetime.second t) 0
                          && Nat.eqb (Datetime.microsecond t) 0
              | None => false
              end) (seq 0 60)) (seq 0 24) = true)
    by (vm_compute; reflexivity).
  rewrite forallb_forall in H.
  assert (Hin : In h (seq 0 24)) by (apply in_seq; lia).
  specialize (H h Hin). rewrite forallb_forall in H.
  assert (Hin' : In m (seq 0 60)) by (apply in_seq; lia).
  specialize (H m Hin').
  destruct (Datetime.strptime_HM Datetime.ascii_reader (render_HM h m))
    as [[h' m' s' u']|]; [|discriminate].
  simpl in H. apply andb_prop in H as [H Hu]. apply andb_prop in H as [H Hs].
  apply andb_prop in H as [H1 H2].
  apply Nat.eqb_eq in H1, H2, Hs, Hu. now subst.
Qed.

Lemma ascii_reader_sound : Datetime.sound_reader Datetime.ascii_reader.
Proof.
  split.
  - intros c r H. unfold Datetime.ascii_reader. now rewrite H.
  - intros [|c s] d r; [discriminate|]. unfold Datetime.ascii_reader.
    destruct (Datetime.is_digit c) eqn:E; [|discriminate].
    intros [= <- _]. now apply digit_le_9.
Qed.

Lemma sample_reader_sound : Datetime.sound_reader Sample.reader.
Proof.
  split.
  - intros c r H. unfold Sample.reader. now rewrite H.
  - intros [|c s] d r; [discriminate|]. unfold Sample.reader.
    destruct (Datetime.is_digit c) eqn:E.
    + intros [= <- _]. now apply digit_le_9.
    + destruct s as [|x s]; [discriminate|].
      destruct (Nat.eqb (nat_of_ascii c) 217 && (160 <=? nat_of_ascii x)%nat
                && (nat_of_ascii x <=? 169)%nat) eqn:Ex; [|discriminate].
      intros [= <- _]. apply andb_prop in Ex as [_ Ex].
      apply Nat.leb_le in Ex. lia.
Qed.

(** Digits of another script are read as [strptime] reads them; with the
    ASCII reader alone the same texts would be refused. *)
Lemma strptime_HM_other_scripts :
  Datetime.strptime_HM Sample.reader "1٢:00"
  = Some (Datetime.mk_time 12 0 0 0) /\
  Datetime.strptime_HM Sample.reader "٩:٠"
  = Some (Datetime.mk_time 9 0 0 0) /\
  Datetime.strptime_HM Datetime.ascii_reader "1٢:00" = None.
Proof. repeat split; vm_compute; reflexivity. Qed.

(** C5. With both bounds readable, a same-day window suppresses exactly
    when start <= now <= end, and an overnight window exactly when
    now >= start or now <= end; an unreadable bound means not quiet.  The
    bounds are read as [strptime] reads them, digits of every script
    included. *)
Theorem quiet_hours_policy cfg amb :
  Datetime.valid_time (time_now amb) ->
  Datetime.sound_reader (decimal_digit amb) ->
  (forall s e,
      Datetime.strptime_HM (decimal_digit amb) (quiet_time_start cfg) = Some s ->
      Datetime.strptime_HM (decimal_digit amb) (quiet_time_end cfg) = Some e ->
      ((Datetime.micros s <= Datetime.micros e)%Z ->
       (AutoSendHandler.is_quiet_time cfg amb = true <->
        (Datetime.micros s <= Datetime.micros (time_now amb)
         /\ Datetime.micros (time_now amb) <= Datetime.micros e)%Z)) /\
      ((Datetime.micros s > Datetime.micros e)%Z ->
       (AutoSendHandler.is_quiet_time cfg amb = true <->
        (Datetime.micros (time_now amb) >= Datetime.micros s
         \/ Datetime.micros (time_now amb) <= Datetime.micros e)%Z))) /\
  (Datetime.strptime_HM (decimal_digit amb) (quiet_time_start cfg) = None
   \/ Datetime.strptime_HM (decimal_digit amb) (quiet_time_end cfg) = None ->
   AutoSendHandler.is_quiet_time cfg amb = false).
Proof.
  intros Hnow Hread. split.
  - intros s e Hs He. unfold AutoSendHandler.is_quiet_time. rewrite Hs, He.
    destruct (strptime_HM_valid _ _ _ Hread Hs) as [Vs _].
    destruct (strptime_HM_valid _ _ _ Hread He) as [Ve _].
    pose proof (time_le_micros s e Vs Ve) as Hse.
    pose proof (time_le_micros s (time_now amb) Vs Hnow) as Hsn.
    pose proof (time_le_micros (time_now amb) e Hnow Ve) as Hne.
    unfold Datetime.time_ge. split; intros Hord.
    + apply Hse in Hord. rewrite Hord, andb_true_iff, Hsn, Hne. reflexivity.
    + destruct (Datetime.time_le s e) eqn:E;
        [pose proof (proj1 Hse eq_refl); lia|].
      rewrite orb_true_iff, Hsn, Hne. lia.
  - intros [H|H]; unfold AutoSendHandler.is_quiet_time; rewrite H;
      [reflexivity|].
    now destruct (Datetime.strptime_HM (decimal_digit amb)
                    (quiet_time_start cfg)).
Qed.

(** ** The idle countdown *)

Section Countdown.

Context (cfg : Config) (ext : Oracle).

(** [start_countdown] returns, cancels the previous countdown timer, arms a
    new one and touches neither the counter nor the queue store. *)
Lemma start_countdown_run amb w :
  exists w',
    AutoSendHandler.start_countdown cfg amb w = (Ok tt, w') /\
    countdown_armed cfg amb w' /\
    timers w'
    = cancel_registered (Some (countdown_timer (auto_sender w))) (timers w)
      ++ [Threading.armed (AutoSendHandler.get_random_countdown_time cfg amb)
                          CbAutoSendMessage] /\
    count w' = count w /\
    last_chat_time (auto_sender w') = last_chat_time (auto_sender w) /\
    message_handler w' = message_handler w /\
    trace w' = trace w.
Proof.
  destruct w as [ts mh [ct run endt cnt lct] tr].
  unfold AutoSendHandler.start_countdown, AutoSendHandler.on_sender,
    Threading.cancel, Threading.new_timer, Threading.set_daemon,
    Threading.start, bind, get, modify, ret, countdown_armed, count. simpl.
  destruct ct as [old|]; unfold set_auto_sender, set_timers; simpl;
    rewrite arm_new_timer;
    (eexists; split; [reflexivity|]; simpl; split;
     [eexists; split; [reflexivity|]; rewrite ?length_alter;
      split; [rewrite length_app, ?length_alter; simpl; lia|];
      split; [apply list_lookup_middle; now rewrite ?length_alter|];
      split; [unfold Threading.live; simpl;
              rewrite list_lookup_middle by (now rewrite ?length_alter);
              reflexivity|];
      split; reflexivity
     | repeat split]).
Qed.

End Countdown.



Section Fire.

Context (cfg : Config) (ext : Oracle).

(** The message an outreach arrival leaves in the buffer of its target. *)
Lemma outreach_enqueued amb w0 l :
  detection cfg ext (AutoSendHandler.reply_content cfg) = Ok l ->
  exists w1,
    enqueue cfg ext (outreach_arrival cfg amb) w0 = (Ok tt, w1) /\
    buffered (arr_chat_id (outreach_arrival cfg amb)) w1
    = buffered (arr_chat_id (outreach_arrival cfg amb)) w0
      ++ [match message_queues (message_handler w0)
                  !! arr_chat_id (outreach_arrival cfg amb) with
          | Some _ => AutoSendHandler.reply_content cfg
          | None => "[" +:+ strftime_now amb +:+ "]" +:+ nl
                    +:+ AutoSendHandler.reply_content cfg
          end] /\
    (forall k, k <> arr_chat_id (outreach_arrival cfg amb) ->
               message_queues (message_handler w1) !! k
               = message_queues (message_handler w0) !! k) /\
    auto_sender w1 = auto_sender w0.
Proof.
  intros Hl.
  destruct (enqueue_run cfg ext (outreach_arrival cfg amb) w0 l Hl)
    as (w1 & E & Q & _ & _ & A & _).
  exists w1. split; [exact E|].
  change (arrival_key (outreach_arrival cfg amb))
    with (arr_chat_id (outreach_arrival cfg amb)) in Q.
  split; [|split; [|exact A]].
  - unfold buffered. rewrite Q, lookup_insert_eq.
    now destruct (message_queues (message_handler w0) !! _).
  - intros k Hk. rewrite Q. now apply lookup_insert_ne.
Qed.

Lemma auto_send_active amb w :
  AutoSendHandler.is_quiet_time cfg amb = false ->
  listen_list cfg <> [] ->
  AutoSendHandler.auto_send_message cfg ext amb w
  = try_except
      (enqueue cfg ext (outreach_arrival cfg amb) ;;;
       AutoSendHandler.start_countdown cfg amb)
      (fun e => emit (EvLogError "自动发送消息失败") ;;;
                AutoSendHandler.start_countdown cfg amb)
      (set_auto_sender AutoSendHandler.increment_unanswered w).
Proof.
  intros Hq Hne. unfold AutoSendHandler.auto_send_message. rewrite Hq.
  destruct (listen_list cfg) as [|u0 us] eqn:El; [contradiction|].
  rewrite <- El. reflexivity.
Qed.

End Fire.



(** ** The unanswered counter *)

Ltac keeps_step :=
  match goal with
  | |- trace_blind _ => intros ? ?; reflexivity
  | |- keeps _ (ret _) => apply keeps_ret
  | |- keeps _ (lift _) => apply keeps_lift
  | |- keeps _ get => apply keeps_get
  | |- keeps _ (emit _) => apply keeps_emit
  | |- keeps _ (call _ _) => apply keeps_call
  | |- keeps _ (modify _) => apply keeps_modify; intros ?; reflexivity
  | |- keeps _ (bind _ _) => apply keeps_bind; [|intros ?]
  | |- keeps _ (try_except _ _) => apply keeps_try; [|intros ?]
  | |- keeps _ (with_queue_lock _) => apply keeps_lock
  | |- keeps _ (when _ _) => apply keeps_when
  | |- keeps _ (if ?x then _ else _) => destruct x
  | |- keeps _ (match ?x with _ => _ end) => destruct x
  end.

Ltac keeps_all := cbv zeta; repeat keeps_step.

Section Counter.

Context (cfg : Config) (ext : Oracle).

Lemma add_to_message_queue_keeps_count amb c chat who user g ir :
  keeps count
    (MessageHandler._add_to_message_queue cfg ext amb c chat who user g ir).
Proof.
  unfold MessageHandler._add_to_message_queue, MessageHandler.on_handler,
    Threading.cancel, Threading.new_timer, Threading.set_daemon,
    Threading.start.
  keeps_all.
Qed.

Lemma start_countdown_keeps_count amb :
  keeps count (AutoSendHandler.start_countdown cfg amb).
Proof.
  unfold AutoSendHandler.start_countdown, AutoSendHandler.on_sender,
    Threading.cancel, Threading.new_timer, Threading.set_daemon,
    Threading.start.
  keeps_all.
Qed.

Lemma handle_user_message_keeps_count amb c chat who user g ir :
  keeps count
    (MessageHandler.handle_user_message cfg ext amb c chat who user g ir).
Proof.
  unfold MessageHandler.handle_user_message, MessageHandler._send_raw_message.
  keeps_all; apply add_to_message_queue_keeps_count.
Qed.

Lemma handle_wxauto_message_keeps_count amb msg chat g :
  keeps count (ChatBot.handle_wxauto_message cfg ext amb msg chat g).
Proof.
  unfold ChatBot.handle_wxauto_message.
  keeps_all;
    try apply start_countdown_keeps_count;
    try apply handle_user_message_keeps_count.
Qed.

End Counter.

(** C1, against the code.  [handle_wxauto_message] re-arms the countdown
    but never calls [update_last_chat_time]: the unanswered counter is the
    same after every inbound message.  After three countdown expiries have
    brought it to 3, an inbound message leaves it at 3, with a fresh
    countdown armed; [update_last_chat_time], the one method that resets the
    counter, would have set it to 0. *)
Theorem inbound_message_keeps_unanswered_count :
  (forall cfg ext amb msg chatName is_group w,
      count (snd (ChatBot.handle_wxauto_message cfg ext amb msg chatName
                    is_group w))
      = count w) /\
  (forall amb w, count (snd (AutoSendHandler.update_last_chat_time amb w)) = 0%Z) /\
  count (snd (Sample.three_fires init_world)) = 3%Z /\
  count (snd (Sample.inbound_after_three_fires init_world)) = 3%Z /\
  (exists n,
      countdown_timer (auto_sender
                         (snd (Sample.inbound_after_three_fires init_world)))
      = Some n /\
      Threading.live (snd (Sample.inbound_after_three_fires init_world)) n
      = true /\
      buffered "alice" (snd (Sample.inbound_after_three_fires init_world))
      = ["[2025-01-01 12:00:00]" +:+ nl +:+ "hi"]).
Proof.
  split; [|split; [|split; [|split]]].
  - intros cfg ext amb msg chatName is_group w.
    apply handle_wxauto_message_keeps_count.
  - reflexivity.
  - vm_compute. reflexivity.
  - vm_compute. reflexivity.
  - eexists. split; [vm_compute; reflexivity|].
    split; vm_compute; reflexivity.
Qed.

(** C7, against the code.  Outside quiet hours and with a target, a fire
    adds one to the unanswered counter and hands to the queue of the chosen
    target, as sender and username "System" and not as a group message, the
    configured text followed by a fixed instruction.  The text is built from
    the configuration alone: the attempt number is not part of it. *)
Theorem outreach_text_omits_attempt_number cfg ext amb w l :
  AutoSendHandler.is_quiet_time cfg amb = false ->
  listen_list cfg <> [] ->
  detection cfg ext (AutoSendHandler.reply_content cfg) = Ok l ->
  let res := AutoSendHandler.auto_send_message cfg ext amb w in
  let target := AutoSendHandler.choice (rand_index amb) (listen_list cfg) in
  count (snd res) = (count w + 1)%Z /\
  arr_sender_name (outreach_arrival cfg amb) = "System" /\
  arr_username (outreach_arrival cfg amb) = "System" /\
  arr_is_group (outreach_arrival cfg amb) = false /\
  arr_chat_id (outreach_arrival cfg amb) = target /\
  arr_content (outreach_arrival cfg amb)
  = auto_message_content cfg +:+ AutoSendHandler.standing_instruction /\
  buffered target (snd res)
  = buffered target w
    ++ [match message_queues (message_handler w) !! target with
        | Some _ =>
            auto_message_content cfg +:+ AutoSendHandler.standing_instruction
        | None =>
            "[" +:+ strftime_now amb +:+ "]" +:+ nl
            +:+ (auto_message_content cfg
                 +:+ AutoSendHandler.standing_instruction)
        end] /\
  (message_queues (message_handler w) !! target = None ->
   exists q,
     message_queues (message_handler (snd res)) !! target = Some q /\
     chat_id q = target /\ sender_name q = "System" /\
     username q = "System" /\ is_group q = false).
Proof.
  intros Hq Hne Hl res target.
  unfold res. rewrite (auto_send_active cfg ext amb w Hq Hne).
  set (w0 := set_auto_sender AutoSendHandler.increment_unanswered w).
  destruct (outreach_enqueued cfg ext amb w0 l Hl) as (w1 & E & B & _ & A).
  destruct (enqueue_run cfg ext (outreach_arrival cfg amb) w0 l Hl)
    as (w1' & E' & Q & _).
  rewrite E in E'. injection E' as <-.
  destruct (start_countdown_run cfg amb w1)
    as (w2 & S2 & _ & _ & C & _ & H & _).
  unfold try_except. rewrite (bind_ok _ _ _ _ _ E), S2. simpl.
  split; [unfold count in *; now rewrite C, A|].
  do 5 (split; [reflexivity|]). split.
  - unfold buffered in *. rewrite H. exact B.
  - intros Hnone. rewrite H, Q. eexists. split; [apply lookup_insert_eq|].
    change (arrival_key (outreach_arrival cfg amb)) with target.
    change (message_handler w0) with (message_handler w).
    rewrite Hnone. repeat split.
Qed.

(** ** Instances *)

Lemma outreach_text_omits_attempt_number_witness :
  let cfg := Sample.config false in
  let amb := Sample.ambient 300 12 0 in
  let w := snd ((AutoSendHandler.auto_send_message cfg Sample.oracle
                   (Sample.ambient 100 12 0) ;;;
                 AutoSendHandler.auto_send_message cfg Sample.oracle
                   (Sample.ambient 200 12 0)) init_world) in
  count w = 2%Z /\
  count (snd (AutoSendHandler.auto_send_message cfg Sample.oracle amb w)) = 3%Z /\
  buffered "bob" (snd (AutoSendHandler.auto_send_message cfg Sample.oracle amb w))
  = buffered "bob" w ++ ["hello" +:+ AutoSendHandler.standing_instruction].
Proof.
  intros cfg amb w.
  assert (Hq : AutoSendHandler.is_quiet_time cfg amb = false)
    by (vm_compute; reflexivity).
  assert (Hne : listen_list cfg <> []) by discriminate.
  assert (Hl : detection cfg Sample.oracle (AutoSendHandler.reply_content cfg)
               = Ok []) by (vm_compute; reflexivity).
  destruct (outreach_text_omits_attempt_number cfg Sample.oracle amb w []
              Hq Hne Hl) as (C & _ & _ & _ & _ & _ & B & _).
  split; [vm_compute; reflexivity|]. split.
  - rewrite C. vm_compute. reflexivity.
  - exact B.
Defined.

Lemma queue_key_not_injective_witness :
  let a1 := Sample.group_arrival 0 "a_b" "c" "one" in
  let a2 := Sample.group_arrival 1 "a" "b_c" "two" in
  arrival_key a1 = arrival_key a2 /\
  exists w' q,
    (enqueue (Sample.config false) Sample.oracle a1 ;;;
     enqueue (Sample.config false) Sample.oracle a2) init_world = (Ok tt, w') /\
    message_queues (message_handler w')
    = <[arrival_key a1 := q]> (message_queues (message_handler init_world)) /\
    messages q = ["[2025-01-01 12:00:00]" +:+ nl +:+ "one"; "two"].
Proof.
  intros a1 a2. split; [reflexivity|].
  destruct queue_key_not_injective as (_ & _ & _ & _ & H).
  destruct (H (Sample.config false) Sample.oracle a1 a2 init_world [] []
              eq_refl eq_refl eq_refl eq_refl)
    as (w' & q & E & Q & M & _).
  exists w', q. repeat split; assumption.
Defined.

Lemma flush_trigger_pops_iff_due_witness :
  let cfg := Sample.config false in
  let w := Sample.after cfg Sample.oracle
             [Sample.private_arrival 0 "alice" "hi"] in
  due cfg 8 "alice" w /\
  pops cfg Sample.oracle (Sample.ambient 8 12 0) "alice" w /\
  ~ due cfg 7 "alice" w /\
  ~ pops cfg Sample.oracle (Sample.ambient 7 12 0) "alice" w.
Proof.
  intros cfg w.
  assert (D8 : due cfg 8 "alice" w).
  { eexists. split; [vm_compute; reflexivity|]. vm_compute. discriminate. }
  assert (D7 : ~ due cfg 7 "alice" w).
  { intros (q & Hq & Hle). vm_compute in Hq. injection Hq as <-.
    vm_compute in Hle. now apply Hle. }
  split; [exact D8|]. split; [|split; [exact D7|]].
  - apply (proj1 (proj2 (proj2
             (flush_trigger_pops_iff_due cfg Sample.oracle
                (Sample.ambient 8 12 0) "alice" w)))). exact D8.
  - intros P. apply D7.
    apply (proj1 (proj2 (proj2
             (flush_trigger_pops_iff_due cfg Sample.oracle
                (Sample.ambient 7 12 0) "alice" w)))). exact P.
Defined.


Lemma quiet_hours_policy_witness :
  let cfg := Sample.config false in
  Datetime.strptime_HM Sample.reader (quiet_time_start cfg)
  = Some (Datetime.mk_time 22 0 0 0) /\
  Datetime.strptime_HM Sample.reader (quiet_time_end cfg)
  = Some (Datetime.mk_time 8 0 0 0) /\
  AutoSendHandler.is_quiet_time cfg (Sample.ambient 0 23 30) = true.
Proof.
  intros cfg.
  assert (Hs : Datetime.strptime_HM Sample.reader (quiet_time_start cfg)
               = Some (Datetime.mk_time 22 0 0 0)) by (vm_compute; reflexivity).
  assert (He : Datetime.strptime_HM Sample.reader (quiet_time_end cfg)
               = Some (Datetime.mk_time 8 0 0 0)) by (vm_compute; reflexivity).
  split; [exact Hs|]. split; [exact He|].
  assert (V : Datetime.valid_time (time_now (Sample.ambient 0 23 30)))
    by (unfold Datetime.valid_time; simpl; lia).
  destruct (quiet_hours_policy cfg (Sample.ambient 0 23 30) V
              sample_reader_sound) as [H _].
  destruct (H _ _ Hs He) as [_ Hover].
  apply Hover; [vm_compute; reflexivity|].
  left. vm_compute. discriminate.
Defined.


Lemma link_accumulation_witness :
  let cfg := Sample.config true in
  let a := Sample.private_arrival 0 "alice" "hello" in
  let b := Sample.private_arrival 7 "alice" ("see " +:+ Sample.url) in
  WEBLENS_ENABLED cfg = true /\
  exists w' q,
    (enqueue cfg Sample.oracle a ;;; enqueue cfg Sample.oracle b) init_world
    = (Ok tt, w') /\
    message_queues (message_handler w') !! arrival_key a = Some q /\
    has_link q = true /\ urls q = [Sample.url].
Proof.
  intros cfg a b. split; [reflexivity|].
  destruct (link_accumulation cfg Sample.oracle eq_refl) as [H _].
  apply (H a b init_world Sample.url []); vm_compute; reflexivity.
Defined.

Lemma flush_calls_one_responder_witness :
  let cfg := Sample.config false in
  let a := Sample.private_arrival 0 "alice" "send a voice note" in
  let w := Sample.after cfg Sample.oracle [a] in
  let q := first_entry cfg a [] in
  let p := MessageHandler.combined_message q in
  message_queues (message_handler w) !! "alice" = Some q /\
  MessageHandler.too_early cfg 8 q = false /\
  MessageHandler._process_message_queue cfg Sample.oracle
    (Sample.ambient 8 12 0) "alice" w
  = flushed "alice" [EvIsVoice p; respond_event VoiceResponder p q]
            (Ok (Some "ok")) w.
Proof.
  intros cfg a w q p.
  assert (Hq : message_queues (message_handler w) !! "alice" = Some q)
    by (vm_compute; reflexivity).
  assert (Ht : MessageHandler.too_early cfg
                 (time_time (Sample.ambient 8 12 0)) q = false)
    by (vm_compute; reflexivity).
  split; [exact Hq|]. split; [exact Ht|].
  destruct (flush_calls_one_responder cfg Sample.oracle (Sample.ambient 8 12 0)
              "alice" w q Hq Ht) as (r1 & e1 & R1 & _ & H).
  assert (E1 : r1 = Ok p /\ e1 = []).
  { eapply runs_functional; [exact R1|]. vm_compute. reflexivity. }
  destruct E1 as [-> ->].
  destruct H as [_ H].
  assert (Eg : negb (String.eqb (sender_name q) "System"
                     || String.eqb (PyStr.lower (sender_name q)) "system")
               && PyStr.contains "可作为你的回复参考" p = false)
    by (vm_compute; reflexivity).
  rewrite Eg in H. destruct H as (r2 & e2 & R2 & _ & H).
  assert (E2 : r2 = Ok p /\ e2 = []).
  { eapply runs_functional; [exact R2|]. vm_compute. reflexivity. }
  destruct E2 as [-> ->].
  destruct H as [_ H].
  assert (Er : spec_route Sample.oracle p = Ok VoiceResponder)
    by (vm_compute; reflexivity).
  rewrite Er in H. exact H.
Defined.

Lemma flush_holds_lock_throughout_witness :
  let cfg := Sample.config false in
  let w := Sample.after cfg Sample.oracle
             [Sample.private_arrival 0 "alice" "hi"] in
  exists evs tail,
    new_events (MessageHandler._process_message_queue cfg Sample.oracle
                  (Sample.ambient 8 12 0) "alice") w
    = [EvAcquire] ++ evs ++ [EvRelease] ++ tail.
Proof.
  intros cfg w.
  destruct (flush_holds_lock_throughout cfg Sample.oracle
              (Sample.ambient 8 12 0) "alice" w) as (evs & tail & E & _).
  exists evs, tail. exact E.
Defined.

(** * Further properties *)

(** ** Keeping a property through the handler monad *)

Lemma preserves_ret {A} (I : World -> Prop) (a : A) : preserves I (ret a).
Proof. now intros w. Qed.

Lemma preserves_lift {A} (I : World -> Prop) (o : outcome A) :
  preserves I (lift o).
Proof. now intros w. Qed.

Lemma preserves_get (I : World -> Prop) : preserves I get.
Proof. now intros w. Qed.

Lemma preserves_bind {A B} (I : World -> Prop) (m : M A) (k : A -> M B) :
  preserves I m -> (forall a, preserves I (k a)) -> preserves I (bind m k).
Proof.
  intros Hm Hk w Hw. unfold bind. specialize (Hm w Hw).
  destruct (m w) as [[a|e] w1]; simpl in *; [|exact Hm].
  now apply Hk.
Qed.

Lemma preserves_try {A} (I : World -> Prop) (m : M A) h :
  preserves I m -> (forall e, preserves I (h e)) ->
  preserves I (try_except m h).
Proof.
  intros Hm Hh w Hw. unfold try_except. specialize (Hm w Hw).
  destruct (m w) as [[a|e] w1]; simpl in *; [exact Hm|].
  now apply Hh.
Qed.

Lemma preserves_emit (I : World -> Prop) e :
  trace_blind_prop I -> preserves I (emit e).
Proof. intros HI w Hw. now apply HI. Qed.

Lemma preserves_call {A} (I : World -> Prop) e (o : outcome A) :
  trace_blind_prop I -> preserves I (call e o).
Proof.
  intros HI. apply preserves_bind;
    [now apply preserves_emit | intros _; apply preserves_lift].
Qed.

Lemma preserves_when (I : World -> Prop) b m :
  preserves I m -> preserves I (when b m).
Proof. intros H. destruct b; [exact H | apply preserves_ret]. Qed.

Lemma preserves_trace_only {A} (I : World -> Prop) (m : M A) :
  trace_blind_prop I -> trace_only m -> preserves I m.
Proof.
  intros HI Hm w Hw. destruct (Hm w) as [evs E]. rewrite E. now apply HI.
Qed.

(** ** Every waiting timer is accounted for *)

Lemma waiting_alter_finished old (ts : list Timer) i t :
  alter Threading.mark_finished old ts !! i = Some t ->
  waiting t = true ->
  ts !! i = Some t /\ i <> old.
Proof.
  intros H Hw. destruct (decide (old = i)) as [->|Hne].
  - rewrite list_lookup_alter_eq in H.
    destruct (ts !! i) as [t0|]; [|discriminate]. injection H as <-.
    unfold waiting in Hw. simpl in Hw. now rewrite andb_false_r in Hw.
  - rewrite list_lookup_alter_ne in H by exact Hne. split; [exact H|].
    congruence.
Qed.

Lemma waiting_cancel_registered o (ts : list Timer) i t :
  cancel_registered o ts !! i = Some t ->
  waiting t = true ->
  ts !! i = Some t /\ o <> Some (Some i).
Proof.
  destruct o as [[old|]|]; simpl; intros H Hw; try (split; [exact H|discriminate]).
  destruct (waiting_alter_finished old ts i t H Hw) as [H1 H2].
  split; [exact H1|]. congruence.
Qed.

Lemma function_alter_finished old (ts : list Timer) n t :
  ts !! n = Some t ->
  exists t', alter Threading.mark_finished old ts !! n = Some t' /\
             function t' = function t.
Proof.
  intros H. destruct (decide (old = n)) as [->|Hne].
  - rewrite list_lookup_alter_eq, H. simpl. eauto.
  - rewrite list_lookup_alter_ne by exact Hne. eauto.
Qed.

Lemma function_cancel_registered o (ts : list Timer) n t :
  ts !! n = Some t ->
  exists t', cancel_registered o ts !! n = Some t' /\
             function t' = function t.
Proof.
  intros H. destruct o as [[old|]|]; simpl; eauto.
  now apply function_alter_finished.
Qed.

Lemma function_snoc_cancel o (ts : list Timer) x n t f :
  ts !! n = Some t -> function t = f ->
  exists t', (cancel_registered o ts ++ [x]) !! n = Some t' /\
             function t' = f.
Proof.
  intros H Hf. destruct (function_cancel_registered o ts n t H) as (t' & E & F).
  exists t'. split; [|congruence].
  rewrite lookup_app_l; [exact E|].
  rewrite length_cancel_registered. now apply lookup_lt_Some in H.
Qed.

Lemma timers_accounted_trace_blind : trace_blind_prop timers_accounted.
Proof. intros g w H. exact H. Qed.

Section Accounting.

Context (cfg : Config) (ext : Oracle).

Lemma lookup_snoc_cases (ts : list Timer) x i t :
  (ts ++ [x]) !! i = Some t ->
  (i < length ts /\ ts !! i = Some t) \/ (i = length ts /\ t = x).
Proof.
  intros H. destruct (lt_eq_lt_dec i (length ts)) as [[Hlt|Heq]|Hgt].
  - left. split; [exact Hlt|]. now rewrite lookup_app_l in H.
  - right. split; [exact Heq|]. subst i.
    rewrite list_lookup_middle in H by reflexivity. now injection H.
  - rewrite lookup_ge_None_2 in H; [discriminate|].
    rewrite length_app. simpl. lia.
Qed.

(** An arrival cancels the timer registered for its key and registers the
    one it arms. *)
Lemma enqueue_accounted (a : arrival) :
  preserves timers_accounted (enqueue cfg ext a).
Proof.
  intros w (Hd & Hq & Hn).
  destruct (detection cfg ext (arr_content a)) as [l|e] eqn:Ed.
  - destruct (enqueue_run cfg ext a w l Ed) as (w' & E & _ & T & S' & A & _).
    rewrite E. simpl.
    fold (cancel_registered
            (queue_timers (message_handler w) !! arrival_key a) (timers w))
      in S'.
    set (old := queue_timers (message_handler w) !! arrival_key a) in *.
    assert (Hlen : length (timers w') = S (length (timers w)))
      by (rewrite S', length_app, length_cancel_registered; simpl; lia).
    split; [|split].
    + intros i t k Hi Hw Hf. rewrite S' in Hi. rewrite T.
      apply lookup_snoc_cases in Hi as [[Hlt Hi]|[-> ->]].
      * destruct (waiting_cancel_registered _ _ _ _ Hi Hw) as [Hi' Hne].
        pose proof (Hd i t k Hi' Hw Hf) as Hreg.
        destruct (decide (arrival_key a = k)) as [<-|Hk].
        -- unfold old in Hne. contradiction.
        -- now rewrite lookup_insert_ne.
      * rewrite length_cancel_registered. simpl in Hf. injection Hf as <-.
        apply lookup_insert_eq.
    + intros k n Hk. rewrite T in Hk. rewrite S'.
      destruct (decide (arrival_key a = k)) as [<-|Hne].
      * rewrite lookup_insert_eq in Hk. injection Hk as <-.
        eexists. split; [apply list_lookup_middle;
                         now rewrite length_cancel_registered|].
        reflexivity.
      * rewrite lookup_insert_ne in Hk by exact Hne.
        destruct (Hq k n Hk) as (t & Ht & Hf).
        now apply (function_snoc_cancel _ _ _ _ t).
    + intros n Hcn. rewrite A in Hcn. rewrite S'.
      destruct (Hn n Hcn) as (t & Ht & Hf).
      now apply (function_snoc_cancel _ _ _ _ t).
  - rewrite (enqueue_raise cfg ext a w e Ed). simpl.
    now repeat split.
Qed.

(** [start_countdown] leaves the debounce timers and their handles alone
    and holds the timer it arms. *)
Lemma start_countdown_accounted amb :
  preserves timers_accounted (AutoSendHandler.start_countdown cfg amb).
Proof.
  intros w (Hd & Hq & Hn).
  destruct (start_countdown_run cfg amb w)
    as (w' & E & (n & Cn & Ln & _) & S' & _ & _ & H & _).
  rewrite E. simpl.
  assert (Hlen : length (timers w') = S (length (timers w)))
    by (rewrite S', length_app, length_cancel_registered; simpl; lia).
  assert (n = length (timers w)) as -> by lia.
  split; [|split].
  - intros i t k Hi Hw Hf. rewrite S' in Hi. rewrite H.
    apply lookup_snoc_cases in Hi as [[Hlt Hi]|[-> ->]]; [|discriminate].
    destruct (waiting_cancel_registered _ _ _ _ Hi Hw) as [Hi' _].
    exact (Hd i t k Hi' Hw Hf).
  - intros k m Hk. rewrite H in Hk. rewrite S'.
    destruct (Hq k m Hk) as (t & Ht & Hf).
    now apply (function_snoc_cancel _ _ _ _ t).
  - intros m Hm. rewrite Cn in Hm. injection Hm as <-. rewrite S'.
    eexists. split; [apply list_lookup_middle;
                     now rewrite length_cancel_registered|].
    reflexivity.
Qed.

End Accounting.

Ltac preserves_step :=
  match goal with
  | |- trace_blind_prop _ => exact timers_accounted_trace_blind
  | |- preserves _ (ret _) => apply preserves_ret
  | |- preserves _ (lift _) => apply preserves_lift
  | |- preserves _ get => apply preserves_get
  | |- preserves _ (emit _) => apply preserves_emit
  | |- preserves _ (call _ _) => apply preserves_call
  | |- preserves _ (bind _ _) => apply preserves_bind; [|intros ?]
  | |- preserves _ (try_except _ _) => apply preserves_try; [|intros ?]
  | |- preserves _ (when _ _) => apply preserves_when
  | |- preserves _ (if ?x then _ else _) => destruct x
  | |- preserves _ (match ?x with _ => _ end) => destruct x
  end.

Ltac preserves_all := cbv zeta; repeat preserves_step.

Section AccountingOps.

Context (cfg : Config) (ext : Oracle).

Lemma add_to_message_queue_accounted amb c chat who user g ir :
  preserves timers_accounted
    (MessageHandler._add_to_message_queue cfg ext amb c chat who user g ir).
Proof.
  exact (enqueue_accounted cfg ext
           {| arr_ambient := amb; arr_content := c; arr_chat_id := chat;
              arr_sender_name := who; arr_username := user;
              arr_is_group := g; arr_is_image_recognition := ir |}).
Qed.

Lemma increment_unanswered_accounted :
  preserves timers_accounted
    (AutoSendHandler.on_sender AutoSendHandler.increment_unanswered).
Proof. intros w H. exact H. Qed.

Lemma handle_user_message_accounted amb c chat who user g ir :
  preserves timers_accounted
    (MessageHandler.handle_user_message cfg ext amb c chat who user g ir).
Proof.
  unfold MessageHandler.handle_user_message, MessageHandler._send_raw_message.
  preserves_all; apply add_to_message_queue_accounted.
Qed.

Lemma handle_wxauto_message_accounted amb msg chat g :
  preserves timers_accounted
    (ChatBot.handle_wxauto_message cfg ext amb msg chat g).
Proof.
  unfold ChatBot.handle_wxauto_message.
  preserves_all;
    try apply start_countdown_accounted;
    try apply handle_user_message_accounted.
Qed.

Lemma auto_send_message_accounted amb :
  preserves timers_accounted (AutoSendHandler.auto_send_message cfg ext amb).
Proof.
  unfold AutoSendHandler.auto_send_message, MessageHandler.add_to_queue.
  preserves_all;
    try apply start_countdown_accounted;
    try apply add_to_message_queue_accounted;
    try apply increment_unanswered_accounted.
Qed.

(** Cancelling a timer leaves fewer timers waiting. *)
Lemma cancel_accounted id : preserves timers_accounted (Threading.cancel id).
Proof.
  intros w (Hd & Hq & Hn).
  unfold Threading.cancel, modify, timers_accounted, debounce_registered,
    handles_in_heap, set_timers. simpl.
  split; [|split].
  - intros i t k Hi Hw Hf.
    destruct (waiting_alter_finished _ _ _ _ Hi Hw) as [Hi' _].
    exact (Hd i t k Hi' Hw Hf).
  - intros k n Hk. destruct (Hq k n Hk) as (t & Ht & Hf).
    destruct (function_alter_finished id _ _ _ Ht) as (t' & E & F).
    exists t'. split; [exact E | congruence].
  - intros n Hk. destruct (Hn n Hk) as (t & Ht & Hf).
    destruct (function_alter_finished id _ _ _ Ht) as (t' & E & F).
    exists t'. split; [exact E | congruence].
Qed.

(** The two ways a flush trigger ends. *)
Lemma flush_cases amb k w :
  (exists q r evs,
      message_queues (message_handler w) !! k = Some q /\
      MessageHandler.too_early cfg (time_time amb) q = false /\
      runs (MessageHandler.process_popped cfg ext q)
           (pop_entry k (set_trace (fun t => t ++ [EvAcquire]) w)) r evs /\
      MessageHandler._process_message_queue cfg ext amb k w
      = (Ok (flush_result r),
         set_trace (fun t => t ++ [EvAcquire] ++ evs ++ [EvRelease]
                               ++ flush_tail r) (pop_entry k w))) \/
  (match message_queues (message_handler w) !! k with
   | None => True
   | Some q => MessageHandler.too_early cfg (time_time amb) q = true
   end /\
   MessageHandler._process_message_queue cfg ext amb k w
   = (Ok None, set_trace (fun t => t ++ [EvAcquire; EvRelease]) w)).
Proof.
  destruct (due_dec cfg (time_time amb) k w) as [(q & Hq & Ht)|Hn].
  - left. apply too_early_false_iff in Ht.
    destruct (process_popped_runs cfg ext q
                (pop_entry k (set_trace (fun t => t ++ [EvAcquire]) w)))
      as (r & pre & d & R & _).
    exists q, r, (pre ++ d).
    split; [exact Hq|]. split; [exact Ht|]. split; [exact R|].
    exact (flush_due cfg ext amb k w q r (pre ++ d) Hq Ht R).
  - right. split; [exact Hn|]. now apply flush_noop.
Qed.

(** The flush trigger leaves the timers alone and changes the registrations
    at most by dropping that of its key. *)
Lemma flush_registrations amb k w :
  let w' := snd (MessageHandler._process_message_queue cfg ext amb k w) in
  timers w' = timers w /\
  auto_sender w' = auto_sender w /\
  (forall k', k' <> k ->
              queue_timers (message_handler w') !! k'
              = queue_timers (message_handler w) !! k') /\
  (queue_timers (message_handler w') !! k
   = queue_timers (message_handler w) !! k
   \/ queue_timers (message_handler w') !! k = None).
Proof.
  intros w'. unfold w'.
  destruct (flush_cases amb k w) as [(q & r & evs & _ & _ & _ & E)|[_ E]];
    rewrite E; simpl.
  - split; [reflexivity|]. split; [reflexivity|]. split.
    + intros k' Hk'. now apply lookup_delete_ne.
    + right. apply lookup_delete_eq.
  - split; [reflexivity|]. split; [reflexivity|]. split; [reflexivity|].
    now left.
Qed.

End AccountingOps.

Section AccountingRun.

Context (cfg : Config) (ext : Oracle).

Lemma flush_returns amb k w :
  exists out, fst (MessageHandler._process_message_queue cfg ext amb k w)
              = Ok out.
Proof.
  destruct (flush_cases cfg ext amb k w)
    as [(q & r & evs & _ & _ & _ & E)|[_ E]]; rewrite E; eauto.
Qed.

(** The thread of a waiting debounce timer: the flush trigger of its key,
    then the timer is finished. *)
Lemma run_debounce_world amb id w t k :
  timers w !! id = Some t -> waiting t = true ->
  function t = CbProcessMessageQueue k ->
  TimerThread.run cfg ext amb id w
  = (Ok tt,
     set_timers (alter Threading.mark_finished id)
       (snd (MessageHandler._process_message_queue cfg ext amb k w))).
Proof.
  intros Ht Hw Hf. unfold TimerThread.run. unfold bind at 1, get. simpl.
  rewrite Ht. unfold waiting in Hw. rewrite Hw, Hf. simpl.
  destruct (flush_returns amb k w) as [out E].
  destruct (MessageHandler._process_message_queue cfg ext amb k w)
    as [r w1] eqn:F. simpl in E. subst r.
  unfold bind. rewrite F. reflexivity.
Qed.

Lemma timer_run_accounted amb id :
  preserves timers_accounted (TimerThread.run cfg ext amb id).
Proof.
  intros w I.
  destruct (timers w !! id) as [t|] eqn:Ht.
  - destruct (waiting t) eqn:Hw.
    + destruct (function t) as [k|] eqn:Hf.
      * rewrite (run_debounce_world amb id w t k Ht Hw Hf). simpl.
        destruct I as (Hd & Hq & Hn).
        destruct (flush_registrations cfg ext amb k w) as (T & A & Ho & Hk).
        set (w1 := snd (MessageHandler._process_message_queue cfg ext amb k w))
          in *.
        unfold timers_accounted, debounce_registered, handles_in_heap,
          set_timers. simpl.
        split; [|split].
        -- intros i t' k' Hi Hw' Hf'.
           destruct (waiting_alter_finished _ _ _ _ Hi Hw') as [Hi' Hne].
           rewrite T in Hi'.
           destruct (decide (k' = k)) as [->|Hkk].
           ++ pose proof (Hd i t' k Hi' Hw' Hf') as R1.
              pose proof (Hd id t k Ht Hw Hf) as R2. congruence.
           ++ rewrite (Ho k' Hkk). exact (Hd i t' k' Hi' Hw' Hf').
        -- intros k' n Hk'. rewrite T.
           assert (Hold : queue_timers (message_handler w) !! k'
                          = Some (Some n)).
           { destruct (decide (k' = k)) as [->|Hkk].
             - destruct Hk as [Hk|Hk]; rewrite Hk in Hk';
                 [exact Hk' | discriminate].
             - now rewrite (Ho k' Hkk) in Hk'. }
           destruct (Hq k' n Hold) as (t0 & Ht0 & Hf0).
           destruct (function_alter_finished id _ _ _ Ht0) as (t' & E & F).
           exists t'. split; [exact E | congruence].
        -- intros n Hcn. rewrite T. rewrite A in Hcn.
           destruct (Hn n Hcn) as (t0 & Ht0 & Hf0).
           destruct (function_alter_finished id _ _ _ Ht0) as (t' & E & F).
           exists t'. split; [exact E | congruence].
      * revert w I Ht.
        assert (H : preserves timers_accounted
                      (AutoSendHandler.auto_send_message cfg ext amb ;;;
                       Threading.cancel id)).
        { apply preserves_bind; [apply auto_send_message_accounted|].
          intros _. apply cancel_accounted. }
        intros w I Ht. unfold TimerThread.run. unfold bind at 1, get. simpl.
        rewrite Ht. unfold waiting in Hw. rewrite Hw, Hf. simpl.
        exact (H w I).
    + unfold TimerThread.run. unfold bind at 1, get. simpl.
      rewrite Ht. unfold waiting in Hw. rewrite Hw. simpl.
      exact (cancel_accounted id w I).
  - unfold TimerThread.run. unfold bind at 1, get. simpl. now rewrite Ht.
Qed.

Lemma stop_accounted : preserves timers_accounted AutoSendHandler.stop.
Proof.
  intros w (Hd & Hq & Hn).
  destruct w as [ts mh [ct run endt cnt lct] tr].
  unfold AutoSendHandler.stop, AutoSendHandler.on_sender, Threading.cancel,
    bind, get, modify, ret, timers_accounted, debounce_registered,
    handles_in_heap in *.
  simpl in *. destruct ct as [old|]; simpl.
  - split; [|split].
    + intros i t k Hi Hw Hf.
      destruct (waiting_alter_finished _ _ _ _ Hi Hw) as [Hi' _].
      exact (Hd i t k Hi' Hw Hf).
    + intros k n Hk. destruct (Hq k n Hk) as (t & Ht & Hf).
      destruct (function_alter_finished old _ _ _ Ht) as (t' & E & F).
      exists t'. split; [exact E | congruence].
    + discriminate.
  - split; [exact Hd|]. split; [exact Hq|exact Hn].
Qed.

(** The two halves of [start_countdown], one after the other, are the
    whole. *)
Lemma start_countdown_halves amb w :
  AutoSendHandler.start_countdown cfg amb w
  = (start_countdown_cancel ;;; start_countdown_arm cfg amb) w.
Proof.
  unfold AutoSendHandler.start_countdown, start_countdown_cancel,
    start_countdown_arm, bind, get. simpl.
  now destruct (countdown_timer (auto_sender w)).
Qed.

Lemma start_countdown_cancel_run w :
  start_countdown_cancel w
  = (Ok tt,
     set_timers
       (cancel_registered (Some (countdown_timer (auto_sender w)))) w).
Proof.
  unfold start_countdown_cancel, bind, get, Threading.cancel, modify, ret.
  simpl. destruct (countdown_timer (auto_sender w)); simpl; [reflexivity|].
  now destruct w.
Qed.

(** The second half arms a new timer and holds it, whatever timer was held
    before. *)
Lemma start_countdown_arm_run amb w :
  exists w',
    start_countdown_arm cfg amb w = (Ok tt, w') /\
    countdown_armed cfg amb w' /\
    timers w'
    = timers w
      ++ [Threading.armed (AutoSendHandler.get_random_countdown_time cfg amb)
                          CbAutoSendMessage] /\
    count w' = count w /\
    message_handler w' = message_handler w /\
    trace w' = trace w.
Proof.
  destruct w as [ts mh [ct run endt cnt lct] tr].
  unfold start_countdown_arm, AutoSendHandler.on_sender,
    Threading.new_timer, Threading.set_daemon,
    Threading.start, bind, get, modify, ret, countdown_armed, count. simpl.
  unfold set_auto_sender, set_timers; simpl.
  rewrite arm_new_timer.
  eexists; split; [reflexivity|]; simpl; split;
    [eexists; split; [reflexivity|];
     split; [rewrite length_app; simpl; lia|];
     split; [now apply list_lookup_middle|];
     split; [unfold Threading.live; simpl;
             rewrite list_lookup_middle by reflexivity; reflexivity|];
     split; reflexivity
    | repeat split].
Qed.

Lemma start_countdown_cancel_accounted :
  preserves timers_accounted start_countdown_cancel.
Proof.
  intros w I. unfold start_countdown_cancel. unfold bind, get. simpl.
  destruct (countdown_timer (auto_sender w)) as [old|]; [|exact I].
  exact (cancel_accounted old w I).
Qed.

Lemma start_countdown_arm_accounted amb :
  preserves timers_accounted (start_countdown_arm cfg amb).
Proof.
  intros w (Hd & Hq & Hn).
  destruct (start_countdown_arm_run amb w)
    as (w' & E & (n & Cn & Ln & _) & S' & _ & H & _).
  rewrite E. simpl.
  assert (Hlen : length (timers w') = S (length (timers w)))
    by (rewrite S', length_app; simpl; lia).
  assert (n = length (timers w)) as -> by lia.
  split; [|split].
  - intros i t k Hi Hw Hf. rewrite S' in Hi. rewrite H.
    apply lookup_snoc_cases in Hi as [[Hlt Hi]|[-> ->]]; [|discriminate].
    exact (Hd i t k Hi Hw Hf).
  - intros k m Hk. rewrite H in Hk. rewrite S'.
    destruct (Hq k m Hk) as (t & Ht & Hf).
    exists t. split; [|exact Hf].
    rewrite lookup_app_l; [exact Ht | now apply lookup_lt_Some in Ht].
  - intros m Hm. rewrite Cn in Hm. injection Hm as <-. rewrite S'.
    eexists. split; [now apply list_lookup_middle|]. reflexivity.
Qed.

Lemma perform_accounted o : preserves timers_accounted (perform cfg ext o).
Proof.
  destruct o; simpl.
  - apply handle_wxauto_message_accounted.
  - apply add_to_message_queue_accounted.
  - apply timer_run_accounted.
  - apply start_countdown_accounted.
  - apply stop_accounted.
  - apply start_countdown_cancel_accounted.
  - apply start_countdown_arm_accounted.
Qed.

Lemma run_ops_accounted ops : forall w,
  timers_accounted w -> timers_accounted (run_ops cfg ext ops w).
Proof.
  induction ops as [|o ops IH]; intros w I; simpl; [exact I|].
  apply IH. now apply perform_accounted.
Qed.

End AccountingRun.

Lemma init_world_accounted : timers_accounted init_world.
Proof.
  split; [|split].
  - intros i t k Hi. discriminate.
  - intros k n Hk. discriminate.
  - intros n Hn. discriminate.
Qed.


(** ** Stopping and re-arming the countdown *)

Lemma accounted_and_waiting_trace_blind :
  trace_blind_prop accounted_and_waiting.
Proof. intros g w H. exact H. Qed.

Ltac preserves_step ::=
  match goal with
  | |- trace_blind_prop timers_accounted => exact timers_accounted_trace_blind
  | |- trace_blind_prop accounted_and_waiting =>
      exact accounted_and_waiting_trace_blind
  | |- preserves _ (ret _) => apply preserves_ret
  | |- preserves _ (lift _) => apply preserves_lift
  | |- preserves _ get => apply preserves_get
  | |- preserves _ (emit _) => apply preserves_emit
  | |- preserves _ (call _ _) => apply preserves_call
  | |- preserves _ (bind _ _) => apply preserves_bind; [|intros ?]
  | |- preserves _ (try_except _ _) => apply preserves_try; [|intros ?]
  | |- preserves _ (when _ _) => apply preserves_when
  | |- preserves _ (if ?x then _ else _) => destruct x
  | |- preserves _ (match ?x with _ => _ end) => destruct x
  end.

Section StopAndRearm.

Context (cfg : Config) (ext : Oracle).






Lemma stop_run w :
  exists w',
    AutoSendHandler.stop w = (Ok tt, w') /\
    countdown_timer (auto_sender w') = None /\
    is_countdown_running (auto_sender w') = false /\
    message_handler w' = message_handler w /\
    count w' = count w /\
    trace w' = trace w /\
    timers w'
    = cancel_registered (Some (countdown_timer (auto_sender w))) (timers w).
Proof.
  destruct w as [ts mh [ct run endt cnt lct] tr].
  unfold AutoSendHandler.stop, AutoSendHandler.on_sender, Threading.cancel,
    bind, get, modify, ret in *.
  simpl in *. destruct ct as [old|]; simpl in *;
    (eexists; split; [reflexivity|]; simpl; repeat split).
Qed.

End StopAndRearm.


(** X22. [start_countdown] is not safe against itself.  When a thread has
    cancelled the timer held (lines 111-115) and another thread makes a
    whole call before the first arms its timer (lines 118-132), two
    countdown timers wait: the one the overtaking call armed, which the auto
    sender no longer holds, and the one the overtaken call armed, which it
    holds.  [stop] then cancels only the latter, and the thread of the
    former still calls [auto_send_message]. *)
Theorem overtaken_start_countdown_leaves_two_timers cfg ext amb1 amb2 w :
  let w3 :=
    run_ops cfg ext
      [OpCountdownCancel; OpStartCountdown amb1; OpCountdownArm amb2] w in
  let a := length (timers w) in
  let b := S (length (timers w)) in
  (forall amb v,
      AutoSendHandler.start_countdown cfg amb v
      = (start_countdown_cancel ;;; start_countdown_arm cfg amb) v) /\
  w3 = snd (start_countdown_arm cfg amb2
              (snd (AutoSendHandler.start_countdown cfg amb1
                      (snd (start_countdown_cancel w))))) /\
  timers w3 !! a
  = Some (Threading.armed (AutoSendHandler.get_random_countdown_time cfg amb1)
                          CbAutoSendMessage) /\
  timers w3 !! b
  = Some (Threading.armed (AutoSendHandler.get_random_countdown_time cfg amb2)
                          CbAutoSendMessage) /\
  countdown_timer (auto_sender w3) = Some b /\
  ~ countdown_registered w3 /\
  let w4 := snd (AutoSendHandler.stop w3) in
  countdown_timer (auto_sender w4) = None /\
  Threading.live w4 b = false /\
  Threading.live w4 a = true /\
  forall amb,
    TimerThread.run cfg ext amb a w4
    = (AutoSendHandler.auto_send_message cfg ext amb ;;; Threading.cancel a)
        w4.
Proof.
  intros w3 a b.
  split; [intros amb v; apply start_countdown_halves|].
  split; [reflexivity|].
  unfold w3.
  change (run_ops cfg ext
            [OpCountdownCancel; OpStartCountdown amb1; OpCountdownArm amb2] w)
    with (snd (start_countdown_arm cfg amb2
                 (snd (AutoSendHandler.start_countdown cfg amb1
                         (snd (start_countdown_cancel w)))))).
  rewrite start_countdown_cancel_run. cbn [snd].
  set (w1 := set_timers _ w).
  assert (L1 : length (timers w1) = length (timers w)).
  { unfold w1, set_timers. cbn [timers]. apply length_cancel_registered. }
  destruct (start_countdown_run cfg amb1 w1) as (w2 & E2 & _ & S2 & _).
  rewrite E2. cbn [snd].
  assert (L2 : length (timers w2) = S (length (timers w))).
  { rewrite S2, length_app, length_cancel_registered, L1. simpl. lia. }
  destruct (start_countdown_arm_run cfg amb2 w2)
    as (w3' & E3 & (n & Cn & Ln & _) & S3 & _).
  rewrite E3. cbn [snd].
  assert (L3 : length (timers w3') = S (S (length (timers w)))).
  { rewrite S3, length_app, L2. simpl. lia. }
  assert (n = b) as -> by (unfold b; lia).
  assert (Ha : timers w3' !! a
               = Some (Threading.armed
                         (AutoSendHandler.get_random_countdown_time cfg amb1)
                         CbAutoSendMessage)).
  { rewrite S3, lookup_app_l by (rewrite L2; unfold a; lia).
    rewrite S2. apply list_lookup_middle.
    now rewrite length_cancel_registered, L1. }
  assert (Hb : timers w3' !! b
               = Some (Threading.armed
                         (AutoSendHandler.get_random_countdown_time cfg amb2)
                         CbAutoSendMessage)).
  { rewrite S3. apply list_lookup_middle. now rewrite L2. }
  split; [exact Ha|]. split; [exact Hb|]. split; [exact Cn|].
  split.
  { intros Hreg. specialize (Hreg a _ Ha eq_refl eq_refl).
    rewrite Cn in Hreg. injection Hreg. unfold a, b. lia. }
  destruct (stop_run w3') as (w4 & E4 & Hn & _ & _ & _ & _ & S4).
  rewrite E4. cbn [snd]. rewrite Cn in S4. simpl in S4.
  split; [exact Hn|].
  split.
  { unfold Threading.live. now rewrite S4, list_lookup_alter_eq, Hb. }
  assert (Ha4 : timers w4 !! a
                = Some (Threading.armed
                          (AutoSendHandler.get_random_countdown_time cfg amb1)
                          CbAutoSendMessage)).
  { rewrite S4, list_lookup_alter_ne by (unfold a, b; lia). exact Ha. }
  split; [unfold Threading.live; now rewrite Ha4|].
  intros amb. unfold TimerThread.run. unfold bind at 1, get. simpl.
  now rewrite Ha4.
Qed.


(** ** Failures stay inside the handlers *)






Section Containment.

Context (cfg : Config) (ext : Oracle).




End Containment.



(** ** Messages that do not reach the queue *)

Lemma truthy_false s : PyStr.truthy s = false -> s = "".
Proof.
  unfold PyStr.truthy. intros H. apply negb_false_iff in H.
  now apply String.eqb_eq in H.
Qed.

Lemma truthy_opt_false o :
  ChatBot.truthy_opt o = false -> o = None \/ o = Some "".
Proof.
  destruct o as [s|]; simpl; [|now left].
  intros H. right. now rewrite (truthy_false s H).
Qed.

Section NotEnqueued.

Context (cfg : Config) (ext : Oracle).

Lemma start_countdown_ok amb w :
  fst (AutoSendHandler.start_countdown cfg amb w) = Ok tt.
Proof.
  destruct (start_countdown_run cfg amb w) as (w' & E & _). now rewrite E.
Qed.

Lemma when_false_after_countdown amb w (h : string -> M unit) :
  try_except
    (AutoSendHandler.start_countdown cfg amb ;;; ret tt) h w
  = AutoSendHandler.start_countdown cfg amb w.
Proof.
  unfold try_except, bind. pose proof (start_countdown_ok amb w) as H.
  destruct (AutoSendHandler.start_countdown cfg amb w) as [r w1].
  simpl in H. subst r. reflexivity.
Qed.

End NotEnqueued.

(** X4. A message without text only re-arms the countdown.  When neither
    [content] nor [text] holds a non-empty string, and when a group message
    is empty once the mention of the robot is removed, [handle_wxauto_message]
    does what [start_countdown] does and nothing more: no collaborator is
    called and nothing is enqueued. *)
Theorem message_without_text_only_rearms cfg ext amb msg chatName g w :
  (ChatBot.truthy_opt (ChatBot.content msg) = false ->
   ChatBot.truthy_opt (ChatBot.text msg) = false ->
   ChatBot.handle_wxauto_message cfg ext amb msg chatName g w
   = AutoSendHandler.start_countdown cfg amb w) /\
  (forall c,
      ChatBot.py_or (ChatBot.content msg) (ChatBot.text msg) = Some c ->
      g = true -> PyStr.truthy (robot_name cfg) = true ->
      PyStr.truthy c = true ->
      strip_mention ext (robot_name cfg) c = "" ->
      ChatBot.handle_wxauto_message cfg ext amb msg chatName g w
      = AutoSendHandler.start_countdown cfg amb w).
Proof.
  split.
  - intros Hc Ht. unfold ChatBot.handle_wxauto_message, ChatBot.py_or.
    rewrite Hc. cbv zeta.
    destruct (truthy_opt_false _ Ht) as [-> | ->]; simpl;
      rewrite ?andb_false_r; simpl; apply when_false_after_countdown.
  - intros c Hor -> Hr Hc Hs. unfold ChatBot.handle_wxauto_message.
    rewrite Hor. cbv zeta. rewrite Hr, Hc, Hs. simpl.
    apply when_false_after_countdown.
Qed.

Lemma message_without_text_only_rearms_witness :
  let msg := {| ChatBot.sender := "alice"; ChatBot.content := Some "";
                ChatBot.text := None |} in
  ChatBot.handle_wxauto_message (Sample.config true) Sample.oracle
    (Sample.ambient 0 12 0) msg "alice" false init_world
  = AutoSendHandler.start_countdown (Sample.config true)
      (Sample.ambient 0 12 0) init_world.
Proof.
  intros msg.
  apply (message_without_text_only_rearms (Sample.config true) Sample.oracle
           (Sample.ambient 0 12 0) msg "alice" false init_world);
    reflexivity.
Defined.

(** A message that is not a debug command goes to the queue as it is. *)
Lemma handle_user_message_enqueues cfg ext amb c chat who user g ir w l :
  is_debug_command ext c = Ok false ->
  detection cfg ext c = Ok l ->
  MessageHandler.handle_user_message cfg ext amb c chat who user g ir w
  = MessageHandler._add_to_message_queue cfg ext amb c chat who user g ir
      (set_trace (fun t => t ++ [EvDebugCommand c]) w).
Proof.
  intros Hd Hdet. unfold MessageHandler.handle_user_message,
    try_except, call.
  unfold bind at 1. unfold bind at 1. unfold emit, modify, lift. simpl.
  rewrite Hd. simpl. unfold bind at 1. unfold ret. simpl.
  pose proof (enqueue_run cfg ext
                {| arr_ambient := amb; arr_content := c; arr_chat_id := chat;
                   arr_sender_name := who; arr_username := user;
                   arr_is_group := g; arr_is_image_recognition := ir |}
                (set_trace (fun t => t ++ [EvDebugCommand c]) w) l Hdet)
    as (w' & E & _).
  unfold enqueue in E. simpl in E. now rewrite E.
Qed.



(** ** What an entry keeps from its first message *)

Section Metadata.

Context (cfg : Config) (ext : Oracle).

Lemma enqueue_all_metadata (rs : list arrival) : forall (w : World) k q,
  Forall (arrives_at cfg ext k) rs ->
  message_queues (message_handler w) !! k = Some q ->
  exists w' q',
    enqueue_all cfg ext rs w = (Ok tt, w') /\
    message_queues (message_handler w') !! k = Some q' /\
    metadata q' = metadata q.
Proof.
  induction rs as [|a rs IH]; intros w k q Hall Hq.
  - exists w, q. repeat split; assumption.
  - apply Forall_cons in Hall as [[Hk [l Hl]] Hall]. subst k.
    destruct (enqueue_run cfg ext a w l Hl) as (w1 & E1 & Q1 & _).
    rewrite Hq in Q1.
    assert (Hq1 : message_queues (message_handler w1) !! arrival_key a
                  = Some (MessageHandler.append_message q (arr_content a)
                            (time_time (arr_ambient a)) (link_found cfg l) l))
      by (rewrite Q1; apply lookup_insert_eq).
    destruct (IH w1 _ _ Hall Hq1) as (w2 & q2 & E2 & Q2 & M2).
    exists w2, q2. simpl. rewrite (bind_ok _ _ _ _ _ E1).
    split; [exact E2|]. split; [exact Q2|]. now rewrite M2.
Qed.

(** A responder call made for a popped batch carries the chat, sender,
    username and group flag of the entry. *)
Lemma process_popped_respond_fields q w r evs resp p c s u g :
  runs (MessageHandler.process_popped cfg ext q) w r evs ->
  In (EvRespond resp p c s u g) evs ->
  (c, s, u, g) = (chat_id q, sender_name q, username q, is_group q).
Proof.
  intros R Hin.
  destruct (process_popped_runs cfg ext q w) as (r' & pre & d & R' & P & C).
  apply runs_new_events in R, R'. rewrite R in R'. rewrite R' in Hin.
  apply in_app_or in Hin as [Hin|Hin].
  - rewrite forallb_forall in P. specialize (P _ Hin). discriminate.
  - destruct C as [[-> _] | (resp' & p' & -> & _)]; [destruct Hin|].
    destruct Hin as [Hin|[]]. unfold respond_event in Hin.
    now injection Hin as _ _ <- <- <- <-.
Qed.

(** The events of a flush trigger, in its two cases. *)
Lemma flush_new_events amb k w :
  (exists q r evs,
      message_queues (message_handler w) !! k = Some q /\
      MessageHandler.too_early cfg (time_time amb) q = false /\
      runs (MessageHandler.process_popped cfg ext q)
           (pop_entry k (set_trace (fun t => t ++ [EvAcquire]) w)) r evs /\
      new_events (MessageHandler._process_message_queue cfg ext amb k) w
      = [EvAcquire] ++ evs ++ [EvRelease] ++ flush_tail r) \/
  new_events (MessageHandler._process_message_queue cfg ext amb k) w
  = [EvAcquire; EvRelease].
Proof.
  destruct (flush_cases cfg ext amb k w)
    as [(q & r & evs & Hq & Ht & R & E)|[_ E]].
  - left. exists q, r, evs. repeat split; try assumption.
    unfold new_events. rewrite E. simpl. apply (drop_app_length (trace w)).
  - right. unfold new_events. rewrite E. simpl.
    apply (drop_app_length (trace w)).
Qed.

End Metadata.

(** X6. An entry keeps the chat id, sender name, username, group flag and
    image flag of the message that created it, whatever the later arrivals
    under the same key carry; and every responder call of the flush is
    addressed with them. *)
Theorem entry_keeps_first_metadata cfg ext k a rs w :
  Forall (arrives_at cfg ext k) (a :: rs) ->
  message_queues (message_handler w) !! k = None ->
  exists w' q,
    enqueue_all cfg ext (a :: rs) w = (Ok tt, w') /\
    message_queues (message_handler w') !! k = Some q /\
    metadata q = arrival_metadata a /\
    (forall amb resp p c s u g,
        In (EvRespond resp p c s u g)
           (new_events (MessageHandler._process_message_queue cfg ext amb k) w') ->
        (c, s, u, g)
        = (arr_chat_id a, arr_sender_name a, arr_username a, arr_is_group a)).
Proof.
  intros Hall Hnone. apply Forall_cons in Hall as [[Hk [l Hl]] Hall]. subst k.
  destruct (enqueue_run cfg ext a w l Hl) as (w1 & E1 & Q1 & _).
  rewrite Hnone in Q1.
  assert (Hq1 : message_queues (message_handler w1) !! arrival_key a
                = Some (first_entry cfg a l))
    by (rewrite Q1; apply lookup_insert_eq).
  destruct (enqueue_all_metadata cfg ext rs w1 _ _ Hall Hq1)
    as (w2 & q2 & E2 & Q2 & M2).
  exists w2, q2. simpl. rewrite (bind_ok _ _ _ _ _ E1).
  split; [exact E2|]. split; [exact Q2|]. split; [exact M2|].
  intros amb resp p c s u g Hin.
  destruct (flush_new_events cfg ext amb (arrival_key a) w2)
    as [(q & r & evs & Hq & _ & R & E)|E]; rewrite E in Hin.
  - rewrite Q2 in Hq. injection Hq as <-.
    simpl in Hin. destruct Hin as [Hin|Hin]; [discriminate|].
    apply in_app_or in Hin as [Hin|Hin].
    + rewrite (process_popped_respond_fields cfg ext q2 _ r evs resp p c s u g
                 R Hin).
      unfold metadata, arrival_metadata in M2. now injection M2 as -> -> -> -> _.
    + destruct Hin as [Hin|Hin]; [discriminate|].
      destruct r; simpl in Hin; [destruct Hin|].
      destruct Hin as [Hin|[]]. discriminate.
  - destruct Hin as [Hin|[Hin|[]]]; discriminate.
Qed.

Lemma entry_keeps_first_metadata_witness :
  let cfg := Sample.config true in
  let a := Sample.group_arrival 0 "a_b" "c" "one" in
  let b := Sample.group_arrival 1 "a" "b_c" "two" in
  Forall (arrives_at cfg Sample.oracle "a_b_c") [a; b] /\
  exists w' q,
    enqueue_all cfg Sample.oracle [a; b] init_world = (Ok tt, w') /\
    message_queues (message_handler w') !! "a_b_c" = Some q /\
    metadata q = ("a_b", "c", "c", true, false).
Proof.
  intros cfg a b.
  assert (H : Forall (arrives_at cfg Sample.oracle "a_b_c") [a; b]).
  { repeat constructor; eexists; vm_compute; reflexivity. }
  split; [exact H|].
  destruct (entry_keeps_first_metadata cfg Sample.oracle "a_b_c" a [b]
              init_world H eq_refl) as (w' & q & E & Q & M & _).
  exists w', q. split; [exact E|]. split; [exact Q|]. exact M.
Defined.

(** ** Links of a batch *)

Lemma emits_only_ret {A} P (a : A) : emits_only P (ret a).
Proof. intros w. exists (Ok a), []. split; [apply runs_ret | reflexivity]. Qed.

Lemma emits_only_call {A} (P : event -> bool) e (o : outcome A) :
  P e = true -> emits_only P (call e o).
Proof.
  intros H w. exists o, [e]. split; [apply runs_call|]. simpl. now rewrite H.
Qed.

Lemma emits_only_bind {A B} P (m : M A) (k : A -> M B) :
  emits_only P m -> (forall a, emits_only P (k a)) -> emits_only P (bind m k).
Proof.
  intros Hm Hk w. destruct (Hm w) as (r1 & e1 & R1 & P1).
  destruct r1 as [a|e].
  - destruct (Hk a (set_trace (fun t => t ++ e1) w)) as (r2 & e2 & R2 & P2).
    exists r2, (e1 ++ e2). split; [now apply (runs_bind m k w a)|].
    now rewrite forallb_app, P1, P2.
  - exists (Raise e), e1. split; [now apply runs_bind_raise | exact P1].
Qed.

Section Links.

Context (cfg : Config) (ext : Oracle).

Lemma dispatch_no_extract r p q :
  emits_only not_extract (MessageHandler.dispatch ext r p q).
Proof. now apply emits_only_call. Qed.

Lemma search_step_no_extract q p :
  emits_only not_extract (MessageHandler.search_step cfg ext q p).
Proof.
  unfold MessageHandler.search_step.
  destruct (NETWORK_SEARCH_ENABLED cfg); [|apply emits_only_ret].
  apply emits_only_bind; [now apply emits_only_call|]. intros intent.
  destruct (search_required intent && PyStr.truthy (search_query intent));
    [|apply emits_only_ret].
  apply emits_only_bind; [now apply emits_only_call|]. intros res.
  apply emits_only_ret.
Qed.

Lemma classify_no_extract q p :
  emits_only not_extract (MessageHandler.classify_and_dispatch ext q p).
Proof.
  unfold MessageHandler.classify_and_dispatch.
  apply emits_only_bind; [now apply emits_only_call|]. intros [|].
  - apply dispatch_no_extract.
  - apply emits_only_bind; [now apply emits_only_call|].
    intros [|]; apply dispatch_no_extract.
Qed.

(** The link step makes the fetch [link_fetch] names and nothing else. *)
Lemma resolve_links_fetch q w :
  exists r, runs (MessageHandler.resolve_links cfg ext q) w r (link_fetch cfg q).
Proof.
  unfold MessageHandler.resolve_links, link_fetch.
  destruct (has_link q && WEBLENS_ENABLED cfg).
  - destruct (urls q) as [|url rest].
    + eexists. apply runs_ret.
    + destruct (extract_web_content ext url) as [res|e] eqn:E.
      * eexists. change [EvExtractWeb url] with ([EvExtractWeb url] ++ []).
        eapply runs_bind; [apply runs_call | apply runs_ret].
      * exists (Raise e). apply runs_bind_raise. apply runs_call.
  - eexists. apply runs_ret.
Qed.

Lemma filter_none (P : event -> bool) evs :
  forallb (fun e => negb (P e)) evs = true -> List.filter P evs = [].
Proof.
  induction evs as [|e evs IH]; simpl; [reflexivity|].
  intros [He H]%andb_prop. apply negb_true_iff in He. rewrite He. now apply IH.
Qed.

Lemma filter_all (P : event -> bool) evs :
  forallb P evs = true -> List.filter P evs = evs.
Proof.
  induction evs as [|e evs IH]; simpl; [reflexivity|].
  intros [He H]%andb_prop. rewrite He. now rewrite IH.
Qed.

Lemma link_fetch_extract q : forallb is_extract (link_fetch cfg q) = true.
Proof.
  unfold link_fetch. destruct (has_link q && WEBLENS_ENABLED cfg);
    [|reflexivity].
  now destruct (urls q).
Qed.

(** The fetches made while a popped batch is processed. *)
Lemma process_popped_fetches q w r evs :
  runs (MessageHandler.process_popped cfg ext q) w r evs ->
  List.filter is_extract evs = link_fetch cfg q.
Proof.
  intros R.
  assert (H : exists r' e2,
             runs (MessageHandler.process_popped cfg ext q) w r'
                  (link_fetch cfg q ++ e2) /\
             forallb not_extract e2 = true).
  { unfold MessageHandler.process_popped.
    destruct (resolve_links_fetch q w) as [[p1|e] R1].
    - set (w1 := set_trace (fun t => t ++ link_fetch cfg q) w).
      assert (Hk : emits_only not_extract
                (if MessageHandler._check_time_reminder_and_search p1
                      (sender_name q)
                 then MessageHandler.dispatch ext TextResponder p1 q
                 else processed_message <-
                        MessageHandler.search_step cfg ext q p1 ;;
                      MessageHandler.classify_and_dispatch ext q
                        processed_message)).
      { destruct (MessageHandler._check_time_reminder_and_search p1
                    (sender_name q)).
        - apply dispatch_no_extract.
        - apply emits_only_bind; [apply search_step_no_extract|].
          intros p2. apply classify_no_extract. }
      destruct (Hk w1) as (r2 & e2 & R2 & P2).
      exists r2, e2. split; [|exact P2].
      now apply (runs_bind _ _ w p1).
    - exists (Raise e), []. rewrite app_nil_r.
      split; [now apply runs_bind_raise | reflexivity]. }
  destruct H as (r' & e2 & R' & P2).
  destruct (runs_functional _ _ _ _ _ _ R R') as [_ ->].
  rewrite List.filter_app, (filter_all _ _ (link_fetch_extract q)).
  rewrite (filter_none is_extract e2 P2). apply app_nil_r.
Qed.

Lemma enqueue_links (a : arrival) :
  preserves store_links_consistent (enqueue cfg ext a).
Proof.
  intros w I.
  destruct (detection cfg ext (arr_content a)) as [l|e] eqn:Ed.
  - destruct (enqueue_run cfg ext a w l Ed) as (w' & E & Q & _).
    rewrite E. simpl. intros k q Hk. rewrite Q in Hk.
    destruct (decide (arrival_key a = k)) as [<-|Hne].
    + rewrite lookup_insert_eq in Hk. injection Hk as <-.
      destruct (message_queues (message_handler w) !! arrival_key a)
        as [q0|] eqn:E0.
      * specialize (I _ _ E0). unfold links_consistent in *. simpl.
        unfold link_found. destruct l as [|u l']; simpl.
        -- now rewrite andb_false_r.
        -- rewrite andb_true_r. destruct (WEBLENS_ENABLED cfg); simpl;
             [now destruct (urls q0) | exact I].
      * unfold links_consistent, first_entry. simpl.
        destruct (link_found cfg l) eqn:El; [|reflexivity].
        unfold link_found in El. apply andb_prop in El as [_ El].
        now destruct l.
    + rewrite lookup_insert_ne in Hk by exact Hne. exact (I k q Hk).
  - rewrite (enqueue_raise cfg ext a w e Ed). exact I.
Qed.

Lemma flush_links amb k :
  preserves store_links_consistent
    (MessageHandler._process_message_queue cfg ext amb k).
Proof.
  intros w I.
  destruct (flush_cases cfg ext amb k w)
    as [(q & r & evs & _ & _ & _ & E)|[_ E]]; rewrite E;
    unfold store_links_consistent in *; simpl.
  - intros k' q' Hk'. destruct (decide (k = k')) as [->|Hne].
    + now rewrite lookup_delete_eq in Hk'.
    + rewrite lookup_delete_ne in Hk' by exact Hne. exact (I k' q' Hk').
  - exact I.
Qed.

End Links.

Ltac preserves_step ::=
  match goal with
  | |- trace_blind_prop _ => let H := fresh in intros ? ? H; exact H
  | |- preserves _ (ret _) => apply preserves_ret
  | |- preserves _ (lift _) => apply preserves_lift
  | |- preserves _ get => apply preserves_get
  | |- preserves _ (emit _) => apply preserves_emit
  | |- preserves _ (call _ _) => apply preserves_call
  | |- preserves _ (bind _ _) => apply preserves_bind; [|intros ?]
  | |- preserves _ (try_except _ _) => apply preserves_try; [|intros ?]
  | |- preserves _ (when _ _) => apply preserves_when
  | |- preserves _ (if ?x then _ else _) => destruct x
  | |- preserves _ (match ?x with _ => _ end) => destruct x
  end.

Lemma keeps_handler_preserves {A} (I : MessageHandlerState -> Prop) (m : M A) :
  keeps message_handler m -> preserves (fun w => I (message_handler w)) m.
Proof. intros H w Hw. now rewrite H. Qed.

Section LinksOps.

Context (cfg : Config) (ext : Oracle).

Lemma start_countdown_keeps_handler amb :
  keeps message_handler (AutoSendHandler.start_countdown cfg amb).
Proof.
  unfold AutoSendHandler.start_countdown, AutoSendHandler.on_sender,
    Threading.cancel, Threading.new_timer, Threading.set_daemon,
    Threading.start.
  keeps_all.
Qed.

Lemma stop_keeps_handler : keeps message_handler AutoSendHandler.stop.
Proof.
  unfold AutoSendHandler.stop, AutoSendHandler.on_sender, Threading.cancel.
  keeps_all.
Qed.

Lemma cancel_keeps_handler id : keeps message_handler (Threading.cancel id).
Proof. unfold Threading.cancel. keeps_all. Qed.

Lemma start_countdown_cancel_keeps_handler :
  keeps message_handler start_countdown_cancel.
Proof. unfold start_countdown_cancel, Threading.cancel. keeps_all. Qed.

Lemma start_countdown_arm_keeps_handler amb :
  keeps message_handler (start_countdown_arm cfg amb).
Proof.
  unfold start_countdown_arm, AutoSendHandler.on_sender,
    Threading.new_timer, Threading.set_daemon, Threading.start.
  keeps_all.
Qed.

Lemma start_countdown_links amb :
  preserves store_links_consistent (AutoSendHandler.start_countdown cfg amb).
Proof.
  apply (keeps_handler_preserves
           (fun h => forall k q, message_queues h !! k = Some q ->
                                 links_consistent q)).
  apply start_countdown_keeps_handler.
Qed.

Lemma add_to_message_queue_links amb c chat who user g ir :
  preserves store_links_consistent
    (MessageHandler._add_to_message_queue cfg ext amb c chat who user g ir).
Proof.
  exact (enqueue_links cfg ext
           {| arr_ambient := amb; arr_content := c; arr_chat_id := chat;
              arr_sender_name := who; arr_username := user;
              arr_is_group := g; arr_is_image_recognition := ir |}).
Qed.

Lemma perform_links o : preserves store_links_consistent (perform cfg ext o).
Proof.
  destruct o; simpl.
  - unfold ChatBot.handle_wxauto_message, MessageHandler.handle_user_message,
      MessageHandler._send_raw_message.
    preserves_all;
      try apply start_countdown_links;
      try apply add_to_message_queue_links.
  - apply add_to_message_queue_links.
  - unfold TimerThread.run, TimerThread.invoke,
      AutoSendHandler.auto_send_message, MessageHandler.add_to_queue.
    preserves_all;
      try apply start_countdown_links;
      try apply add_to_message_queue_links;
      try apply flush_links;
      try (intros w H; exact H);
      try (apply (keeps_handler_preserves
                    (fun h => forall k q, message_queues h !! k = Some q ->
                                          links_consistent q));
           apply cancel_keeps_handler).
  - apply start_countdown_links.
  - apply (keeps_handler_preserves
             (fun h => forall k q, message_queues h !! k = Some q ->
                                   links_consistent q)).
    apply stop_keeps_handler.
  - apply (keeps_handler_preserves
             (fun h => forall k q, message_queues h !! k = Some q ->
                                   links_consistent q)).
    apply start_countdown_cancel_keeps_handler.
  - apply (keeps_handler_preserves
             (fun h => forall k q, message_queues h !! k = Some q ->
                                   links_consistent q)).
    apply start_countdown_arm_keeps_handler.
Qed.

Lemma run_ops_links ops : forall w,
  store_links_consistent w -> store_links_consistent (run_ops cfg ext ops w).
Proof.
  induction ops as [|o ops IH]; intros w I; simpl; [exact I|].
  apply IH. now apply perform_links.
Qed.

End LinksOps.

(** X7. In every entry of the store the link flag is set exactly when the
    entry holds a URL, at any point of a run.  A flush fetches at most one
    page: with the flag set and WebLens enabled, the first URL held, that is
    the first link the batch met; every further URL of the batch is stored
    and never fetched. *)
Theorem only_first_link_is_fetched cfg ext ops :
  let w := run_ops cfg ext ops init_world in
  store_links_consistent w /\
  (forall amb k q,
      message_queues (message_handler w) !! k = Some q ->
      MessageHandler.too_early cfg (time_time amb) q = false ->
      let fetched :=
        List.filter is_extract
          (new_events (MessageHandler._process_message_queue cfg ext amb k) w) in
      (has_link q = false -> urls q = [] /\ fetched = []) /\
      (has_link q = true ->
       exists u rest,
         urls q = u :: rest /\
         fetched = if WEBLENS_ENABLED cfg then [EvExtractWeb u] else [])).
Proof.
  intros w.
  assert (I : store_links_consistent w).
  { apply run_ops_links. intros k q Hk. discriminate. }
  split; [exact I|].
  intros amb k q Hq Ht fetched.
  assert (F : fetched = link_fetch cfg q).
  { unfold fetched, new_events.
    destruct (flush_cases cfg ext amb k w)
      as [(q' & r & evs & Hq' & _ & R & E)|[Hn _]].
    - rewrite Hq in Hq'. injection Hq' as <-. rewrite E. simpl.
      rewrite (drop_app_length (trace w)). simpl.
      rewrite List.filter_app, (process_popped_fetches cfg ext q _ r evs R).
      simpl. destruct r; simpl; now rewrite app_nil_r.
    - rewrite Hq, Ht in Hn. discriminate. }
  specialize (I k q Hq). unfold links_consistent in I.
  rewrite F. unfold link_fetch. split.
  - intros Hl. rewrite Hl in *. split; [now destruct (urls q)|reflexivity].
  - intros Hl. rewrite Hl in *. destruct (urls q) as [|u rest];
      [discriminate|].
    exists u, rest. split; [reflexivity|]. now destruct (WEBLENS_ENABLED cfg).
Qed.

Lemma only_first_link_is_fetched_witness :
  let cfg := Sample.config true in
  let ops := [OpAddToQueue (Sample.ambient 0 12 0) "alice"
                ("see " +:+ Sample.url) "alice" "alice" false;
              OpAddToQueue (Sample.ambient 1 12 0) "alice"
                "and http://example.com/b" "alice" "alice" false] in
  let w := run_ops cfg Sample.oracle ops init_world in
  List.filter is_extract
    (new_events (MessageHandler._process_message_queue cfg Sample.oracle
                   (Sample.ambient 9 12 0) "alice") w)
  = [EvExtractWeb Sample.url].
Proof.
  intros cfg ops w.
  destruct (only_first_link_is_fetched cfg Sample.oracle ops) as [_ H].
  destruct (H (Sample.ambient 9 12 0) "alice"
              (MessageHandler.append_message
                 (first_entry cfg (Sample.private_arrival 0 "alice"
                                     ("see " +:+ Sample.url)) [Sample.url])
                 "and http://example.com/b" 1 false []))
    as [_ Hl]; [vm_compute; reflexivity | vm_compute; reflexivity |].
  destruct (Hl eq_refl) as (u & rest & Hu & Hf).
  vm_compute in Hu. injection Hu as <- <-. exact Hf.
Defined.

(** ** Traffic on one key and the other keys *)

Section Isolation.

Context (cfg : Config) (ext : Oracle).

Lemma flush_other_entries amb k w k' :
  k' <> k ->
  message_queues
    (message_handler
       (snd (MessageHandler._process_message_queue cfg ext amb k w))) !! k'
  = message_queues (message_handler w) !! k'.
Proof.
  intros Hne.
  destruct (flush_cases cfg ext amb k w)
    as [(q & r & evs & _ & _ & _ & E)|[_ E]]; rewrite E; simpl.
  - now apply lookup_delete_ne.
  - reflexivity.
Qed.

Lemma run_not_waiting amb id w t :
  timers w !! id = Some t -> waiting t = false ->
  TimerThread.run cfg ext amb id w
  = (Ok tt, set_timers (alter Threading.mark_finished id) w).
Proof.
  intros Ht Hw. unfold TimerThread.run. unfold bind at 1, get. simpl.
  rewrite Ht. unfold waiting in Hw. rewrite Hw. reflexivity.
Qed.

End Isolation.

(** X8. Traffic on one key leaves the other keys alone, at any point of a
    run: an arrival for a key, and the thread of a debounce timer of that
    key, change neither the entry, nor the registered timer handle, nor the
    state of the registered timer of any other key. *)
Theorem other_keys_are_untouched cfg ext ops :
  let w := run_ops cfg ext ops init_world in
  (forall a k',
      k' <> arrival_key a ->
      let w' := snd (enqueue cfg ext a w) in
      message_queues (message_handler w') !! k'
      = message_queues (message_handler w) !! k' /\
      queue_timers (message_handler w') !! k'
      = queue_timers (message_handler w) !! k' /\
      (forall n, queue_timers (message_handler w) !! k' = Some (Some n) ->
                 timers w' !! n = timers w !! n)) /\
  (forall amb id t k k',
      timers w !! id = Some t ->
      function t = CbProcessMessageQueue k ->
      k' <> k ->
      let w' := snd (TimerThread.run cfg ext amb id w) in
      message_queues (message_handler w') !! k'
      = message_queues (message_handler w) !! k' /\
      queue_timers (message_handler w') !! k'
      = queue_timers (message_handler w) !! k' /\
      (forall n, queue_timers (message_handler w) !! k' = Some (Some n) ->
                 timers w' !! n = timers w !! n)).
Proof.
  intros w.
  assert (I : timers_accounted w)
    by (apply run_ops_accounted, init_world_accounted).
  destruct I as (Hd & Hq & Hn).
  split.
  - intros a k' Hne w'. unfold w'.
    destruct (detection cfg ext (arr_content a)) as [l|e] eqn:Ed.
    + destruct (enqueue_run cfg ext a w l Ed) as (w1 & E & Q & T & S1 & _).
      rewrite E. simpl. split; [|split].
      * rewrite Q. now apply lookup_insert_ne.
      * rewrite T. now apply lookup_insert_ne.
      * intros n Hreg. destruct (Hq k' n Hreg) as (t & Ht & Hf).
        rewrite S1, lookup_app_l.
        2:{ apply lookup_lt_Some in Ht.
            destruct (queue_timers (message_handler w) !! arrival_key a)
              as [[old|]|]; rewrite ?length_alter; exact Ht. }
        destruct (queue_timers (message_handler w) !! arrival_key a)
          as [[old|]|] eqn:Eo; try reflexivity.
        apply list_lookup_alter_ne. intros ->.
        destruct (Hq _ _ Eo) as (t0 & Ht0 & Hf0). congruence.
    + rewrite (enqueue_raise cfg ext a w e Ed). simpl. repeat split.
  - intros amb id t k k' Ht Hf Hne w'. unfold w'.
    assert (Hid : forall n, queue_timers (message_handler w) !! k'
                            = Some (Some n) -> n <> id).
    { intros n Hreg ->. destruct (Hq k' id Hreg) as (t0 & Ht0 & Hf0).
      congruence. }
    destruct (waiting t) eqn:Hw.
    + rewrite (run_debounce_world cfg ext amb id w t k Ht Hw Hf). simpl.
      destruct (flush_registrations cfg ext amb k w) as (T & _ & Ho & _).
      split; [now apply flush_other_entries|]. split; [now apply Ho|].
      intros n Hreg. rewrite T.
      apply list_lookup_alter_ne. intros ->. now apply (Hid n).
    + rewrite (run_not_waiting cfg ext amb id w t Ht Hw). simpl.
      split; [reflexivity|]. split; [reflexivity|].
      intros n Hreg. apply list_lookup_alter_ne. intros ->. now apply (Hid n).
Qed.

Lemma other_keys_are_untouched_witness :
  let cfg := Sample.config true in
  let ops := [OpAddToQueue (Sample.ambient 0 12 0) "alice" "hi" "alice"
                "alice" false] in
  let w := run_ops cfg Sample.oracle ops init_world in
  let w' := snd (enqueue cfg Sample.oracle
                   (Sample.private_arrival 1 "bob" "yo") w) in
  message_queues (message_handler w') !! "alice"
  = message_queues (message_handler w) !! "alice" /\
  timers w' !! 0 = timers w !! 0.
Proof.
  intros cfg ops w w'.
  destruct (other_keys_are_untouched cfg Sample.oracle ops) as [H _].
  destruct (H (Sample.private_arrival 1 "bob" "yo") "alice")
    as (Hm & _ & Ht); [discriminate|].
  split; [exact Hm|].
  apply Ht. vm_compute. reflexivity.
Defined.

(** ** When queue keys do not collide *)

Lemma contains_cons_false needle c r :
  PyStr.contains needle (String c r) = false ->
  String.prefix needle (String c r) = false /\ PyStr.contains needle r = false.
Proof. simpl. intros H. now apply orb_false_elim in H. Qed.

Lemma no_underscore_cons c r :
  PyStr.contains "_" (String c r) = false ->
  c <> "_"%char /\ PyStr.contains "_" r = false.
Proof.
  intros H. apply contains_cons_false in H as [Hp Hr]. split; [|exact Hr].
  intros ->. simpl in Hp. now destruct r.
Qed.

Lemma group_key_split c1 : forall s1 c2 s2,
  PyStr.contains "_" c1 = false -> PyStr.contains "_" c2 = false ->
  c1 +:+ "_" +:+ s1 = c2 +:+ "_" +:+ s2 ->
  c1 = c2 /\ s1 = s2.
Proof.
  induction c1 as [|x c1 IH]; intros s1 c2 s2 H1 H2 E.
  - destruct c2 as [|y c2]; simpl in E.
    + now injection E.
    + injection E as <- _. now destruct (no_underscore_cons _ _ H2).
  - destruct c2 as [|y c2]; simpl in E.
    + injection E as -> _. now destruct (no_underscore_cons _ _ H1).
    + injection E as -> E.
      destruct (no_underscore_cons _ _ H1) as [_ H1'].
      destruct (no_underscore_cons _ _ H2) as [_ H2'].
      destruct (IH s1 c2 s2 H1' H2' E) as [-> ->]. now split.
Qed.

Lemma contains_underscore_append c s :
  PyStr.contains "_" (c +:+ "_" +:+ s) = true.
Proof.
  induction c as [|x c IH]; simpl.
  - now destruct s.
  - rewrite IH. apply orb_true_r.
Qed.

(** X9. Queue keys are as good as the chat ids: private conversations get
    distinct keys when their chat ids differ, and when no chat id contains
    an underscore, two group conversations get the same key only if chat and
    sender agree, and a group key is never the key of a private
    conversation. *)
Theorem keys_distinct_without_underscore :
  (forall c1 s1 c2 s2,
      MessageHandler._get_queue_key c1 s1 false
      = MessageHandler._get_queue_key c2 s2 false -> c1 = c2) /\
  (forall c1 s1 c2 s2,
      PyStr.contains "_" c1 = false -> PyStr.contains "_" c2 = false ->
      MessageHandler._get_queue_key c1 s1 true
      = MessageHandler._get_queue_key c2 s2 true ->
      c1 = c2 /\ s1 = s2) /\
  (forall c1 s1 c2 s2,
      PyStr.contains "_" c2 = false ->
      MessageHandler._get_queue_key c1 s1 true
      <> MessageHandler._get_queue_key c2 s2 false).
Proof.
  split; [|split].
  - intros c1 s1 c2 s2 H. exact H.
  - intros c1 s1 c2 s2 H1 H2 E. now apply (group_key_split c1 s1 c2 s2).
  - intros c1 s1 c2 s2 H2 E. simpl in E. rewrite <- E in H2.
    now rewrite contains_underscore_append in H2.
Qed.

Lemma keys_distinct_without_underscore_witness :
  MessageHandler._get_queue_key "fans" "a_b" true
  <> MessageHandler._get_queue_key "fans" "a_c" true.
Proof.
  intros E.
  destruct keys_distinct_without_underscore as (_ & H & _).
  destruct (H "fans" "a_b" "fans" "a_c" eq_refl eq_refl E) as [_ Hs].
  discriminate.
Defined.

(** ** The sampled countdown *)








(** ** Requests for a picture *)

Lemma lower_ascii_no_letter a c :
  is_letter a = false -> (a = PyStr.lower_ascii c <-> a = c).
Proof.
  unfold is_letter, PyStr.lower_ascii. intros Ha.
  destruct ((65 <=? nat_of_ascii c)%nat && (nat_of_ascii c <=? 90)%nat) eqn:Hc;
    [|reflexivity].
  apply andb_prop in Hc as [H1 H2]. apply Nat.leb_le in H1, H2.
  split; intros ->.
  - exfalso. rewrite nat_ascii_embedding in Ha by lia.
    apply orb_false_elim in Ha as [_ Ha].
    apply andb_false_iff in Ha as [Ha|Ha]; apply Nat.leb_gt in Ha; lia.
  - exfalso. apply orb_false_elim in Ha as [Ha _].
    apply andb_false_iff in Ha as [Ha|Ha]; apply Nat.leb_gt in Ha; lia.
Qed.

Lemma prefix_lower p : forall s,
  no_letters p = true ->
  String.prefix p (PyStr.lower s) = String.prefix p s.
Proof.
  induction p as [|a p IH]; intros s Hp; [now destruct s|].
  unfold no_letters in Hp. simpl in Hp. apply andb_prop in Hp as [Ha Hp].
  apply negb_true_iff in Ha. destruct s as [|c s]; [reflexivity|]. simpl.
  destruct (ascii_dec a (PyStr.lower_ascii c)) as [E|E];
    destruct (ascii_dec a c) as [E'|E'].
  - now apply IH.
  - exfalso. apply E'. now apply (lower_ascii_no_letter a c Ha).
  - exfalso. apply E. now apply (lower_ascii_no_letter a c Ha).
  - reflexivity.
Qed.

Lemma contains_cons_eq p c s :
  PyStr.contains p (String c s)
  = String.prefix p (String c s) || PyStr.contains p s.
Proof. reflexivity. Qed.

Lemma contains_lower p s :
  no_letters p = true ->
  PyStr.contains p (PyStr.lower s) = PyStr.contains p s.
Proof.
  intros Hp. induction s as [|c s IH].
  - reflexivity.
  - change (PyStr.lower (String c s))
      with (String (PyStr.lower_ascii c) (PyStr.lower s)).
    rewrite !contains_cons_eq, IH. f_equal.
    exact (prefix_lower p (String c s) Hp).
Qed.

Lemma prefix_app_r p : forall s b,
  String.prefix p s = true -> String.prefix p (s +:+ b) = true.
Proof.
  induction p as [|a p IH]; intros s b H; [now destruct (s +:+ b)|].
  destruct s as [|c s]; [discriminate|]. simpl in *.
  destruct (ascii_dec a c); [now apply IH | discriminate].
Qed.

Lemma contains_app_r p s b :
  PyStr.contains p s = true -> PyStr.contains p (s +:+ b) = true.
Proof.
  induction s as [|c s IH].
  - intros H. destruct p; [now destruct b|discriminate].
  - rewrite contains_cons_eq. intros H.
    change (String c s +:+ b) with (String c (s +:+ b)).
    rewrite contains_cons_eq.
    apply orb_prop in H as [H|H].
    + change (String c (s +:+ b)) with (String c s +:+ b).
      now rewrite (prefix_app_r p (String c s) b H).
    + rewrite (IH H). apply orb_true_r.
Qed.

Lemma contains_app_l p a s :
  PyStr.contains p s = true -> PyStr.contains p (a +:+ s) = true.
Proof.
  intros H. induction a as [|c a IH]; [exact H|].
  change (String c a +:+ s) with (String c (a +:+ s)).
  rewrite contains_cons_eq, IH. apply orb_true_r.
Qed.

Lemma prefix_split c : forall p,
  String.prefix c p = true -> exists t, p = c +:+ t.
Proof.
  induction c as [|a c IH]; intros p H.
  - now exists p.
  - destruct p as [|x p]; [discriminate|]. simpl in H.
    destruct (ascii_dec a x) as [->|]; [|discriminate].
    destruct (IH p H) as [t ->]. now exists t.
Qed.

Lemma string_app_assoc (a b c : string) : (a +:+ b) +:+ c = a +:+ (b +:+ c).
Proof.
  induction a as [|x a IH]; [reflexivity|].
  change (String x ((a +:+ b) +:+ c) = String x (a +:+ (b +:+ c))).
  now rewrite IH.
Qed.

Lemma string_app_nil_r (a : string) : a +:+ "" = a.
Proof.
  induction a as [|x a IH]; [reflexivity|].
  change (String x (a +:+ "") = String x a). now rewrite IH.
Qed.

Lemma prefix_contains p s :
  String.prefix p s = true -> PyStr.contains p s = true.
Proof.
  intros H. destruct s as [|c s]; [now destruct p|].
  now rewrite contains_cons_eq, H.
Qed.

(** [needle in hay] holds exactly when [hay] is the needle with something
    before and something after it. *)
Lemma contains_split p s :
  PyStr.contains p s = true <-> exists a b, s = a +:+ p +:+ b.
Proof.
  split.
  - induction s as [|c s IH].
    + intros H. destruct p; [|discriminate]. now exists "", "".
    + rewrite contains_cons_eq. intros [H|H]%orb_prop.
      * destruct (prefix_split _ _ H) as [t ->]. now exists "", t.
      * destruct (IH H) as (a & b & ->). now exists (String c a), b.
  - intros (a & b & ->). apply contains_app_l, prefix_contains.
    apply prefix_app_r, prefix_refl.
Qed.

Lemma join_member sep (l : list string) m :
  In m l -> exists a b, PyStr.join sep l = a +:+ m +:+ b.
Proof.
  unfold PyStr.join. induction l as [|x l IH]; intros Hin; [destruct Hin|].
  destruct Hin as [->|Hin].
  - destruct l as [|y l].
    + exists "", "". symmetry. exact (string_app_nil_r m).
    + exists "", (sep +:+ String.concat sep (y :: l)). reflexivity.
  - destruct (IH Hin) as (a & b & E). destruct l as [|y l]; [destruct Hin|].
    exists (x +:+ sep +:+ a), b.
    change (String.concat sep (x :: y :: l))
      with (x +:+ sep +:+ String.concat sep (y :: l)).
    now rewrite E, !string_app_assoc.
Qed.

(** [is_random_image_request] looks for one of eleven phrases: the two
    pattern lists overlap, and the case folding it starts with leaves the
    phrases, which hold no letter, where they are. *)
Lemma is_random_image_request_phrases m :
  ImageHandler.is_random_image_request m
  = existsb (fun p => PyStr.contains p m) ImageHandler.phrases.
Proof.
  unfold ImageHandler.is_random_image_request.
  assert (E : forall t,
    (if existsb (fun pattern => PyStr.contains pattern t)
                ImageHandler.basic_patterns
     then true
     else if existsb (fun '(first, class, last) =>
                        ImageHandler.search_class first class last t)
                     ImageHandler.complex_patterns
     then true else false)
    = existsb (fun p => PyStr.contains p t) ImageHandler.phrases).
  { intros t. cbv [existsb ImageHandler.basic_patterns
                   ImageHandler.complex_patterns ImageHandler.search_class
                   ImageHandler.phrases append].
    destruct (PyStr.contains "来个图" t), (PyStr.contains "来张图" t),
      (PyStr.contains "来点图" t), (PyStr.contains "想看图" t),
      (PyStr.contains "来幅图" t), (PyStr.contains "发张图" t),
      (PyStr.contains "发个图" t), (PyStr.contains "发幅图" t),
      (PyStr.contains "看张图" t), (PyStr.contains "看个图" t),
      (PyStr.contains "看幅图" t); reflexivity. }
  cbv zeta. rewrite E. clear E.
  unfold ImageHandler.phrases. cbv [existsb].
  rewrite !contains_lower by reflexivity. reflexivity.
Qed.

(** X11. [ImageHandler.is_random_image_request] answers yes exactly for a
    message in which one of the eleven phrases of [ImageHandler.phrases]
    occurs, whatever stands before and after it and whatever the case of
    the letters around it. *)
Theorem picture_request_is_phrase_search m :
  ImageHandler.is_random_image_request m = true
  <-> exists p a b, In p ImageHandler.phrases /\ m = a +:+ p +:+ b.
Proof.
  rewrite is_random_image_request_phrases, existsb_exists. split.
  - intros (p & Hin & Hp). apply contains_split in Hp as (a & b & ->).
    now exists p, a, b.
  - intros (p & a & b & Hin & ->). exists p. split; [exact Hin|].
    apply contains_split. now exists a, b.
Qed.

Lemma is_random_image_request_embedded a m b :
  ImageHandler.is_random_image_request m = true ->
  ImageHandler.is_random_image_request (a +:+ m +:+ b) = true.
Proof.
  rewrite !is_random_image_request_phrases, !existsb_exists.
  intros (p & Hin & Hp). exists p. split; [exact Hin|].
  now apply contains_app_l, contains_app_r.
Qed.

Lemma in_flush_events_respond {A} (r : outcome A) evs e :
  is_respond e = true ->
  In e ([EvAcquire] ++ evs ++ [EvRelease] ++ flush_tail r) -> In e evs.
Proof.
  intros He [<-|Hin]; [discriminate|].
  change (In e (evs ++ [EvRelease] ++ flush_tail r)) in Hin.
  apply in_app_or in Hin as [Hin|Hin]; [exact Hin|].
  simpl in Hin. destruct Hin as [<-|Hin]; [discriminate|].
  destruct r; [destruct Hin|]. destruct Hin as [<-|[]]. discriminate.
Qed.

(** A responder call seen in the events of a flush trigger: the entry of
    the key was popped, the content begins with its merged messages, and the
    responder is the text one through the marker gate or the one the
    classification names. *)
Lemma flush_respond_event cfg ext amb k w resp p c s u g :
  In (EvRespond resp p c s u g)
     (new_events (MessageHandler._process_message_queue cfg ext amb k) w) ->
  exists q,
    message_queues (message_handler w) !! k = Some q /\
    String.prefix (MessageHandler.combined_message q) p = true /\
    ((MessageHandler._check_time_reminder_and_search p (sender_name q) = true
      /\ resp = TextResponder) \/
     spec_route ext p = Ok resp).
Proof.
  intros Hin.
  destruct (flush_new_events cfg ext amb k w)
    as [(q & r & evs & Hq & _ & R & E)|E]; rewrite E in Hin.
  2:{ destruct Hin as [Hin|[Hin|[]]]; discriminate. }
  apply in_flush_events_respond in Hin; [|reflexivity].
  destruct (process_popped_runs cfg ext q
              (pop_entry k (set_trace (fun t => t ++ [EvAcquire]) w)))
    as (r' & pre & d & R' & P & C).
  destruct (runs_functional _ _ _ _ _ _ R R') as [_ ->].
  apply in_app_or in Hin as [Hin|Hin].
  { rewrite forallb_forall in P. specialize (P _ Hin). discriminate. }
  destruct C as [[-> _]|(resp' & p' & -> & _ & Hpre & Hroute)];
    [destruct Hin|].
  destruct Hin as [Hin|[]]. unfold respond_event in Hin.
  injection Hin as -> -> _ _ _ _.
  exists q. split; [exact Hq|]. split; [exact Hpre|].
  destruct Hroute as [(Hg & -> & _)|Hroute]; [now left | now right].
Qed.

(** X12. With the picture test of [ImageHandler] in place, a batch one of
    whose messages asks for a picture is never answered as plain text through
    the classification: the string handed to the responder still asks for a
    picture, whatever was appended to it, and the responder is the voice one
    when the voice test says yes, the random-image one when it says no, and
    the text one only through the marker gate. *)
Theorem picture_phrase_decides_responder cfg ext amb k w q m resp p c s u g :
  message_queues (message_handler w) !! k = Some q ->
  In m (messages q) ->
  ImageHandler.is_random_image_request m = true ->
  In (EvRespond resp p c s u g)
     (new_events (MessageHandler._process_message_queue
                    cfg (with_image_handler ext) amb k) w) ->
  ImageHandler.is_random_image_request p = true /\
  ((MessageHandler._check_time_reminder_and_search p (sender_name q) = true
    /\ resp = TextResponder) \/
   (is_voice_request ext p = Ok true /\ resp = VoiceResponder) \/
   (is_voice_request ext p = Ok false /\ resp = RandomImageResponder)).
Proof.
  intros Hq Hm Hreq Hin.
  destruct (flush_respond_event _ _ _ _ _ _ _ _ _ _ _ Hin)
    as (q' & Hq' & Hpre & Hroute).
  rewrite Hq in Hq'. injection Hq' as <-.
  assert (Hp : ImageHandler.is_random_image_request p = true).
  { destruct (prefix_split _ _ Hpre) as [t ->].
    destruct (join_member nl (messages q) m Hm) as (a & b & Ej).
    unfold MessageHandler.combined_message. rewrite Ej.
    rewrite !string_app_assoc.
    now apply is_random_image_request_embedded. }
  split; [exact Hp|].
  destruct Hroute as [Hg|Hroute]; [now left|]. right.
  unfold spec_route in Hroute.
  change (is_voice_request (with_image_handler ext) p)
    with (is_voice_request ext p) in Hroute.
  change (is_random_image_request (with_image_handler ext) p)
    with (Ok (A:=bool) (ImageHandler.is_random_image_request p)) in Hroute.
  rewrite Hp in Hroute.
  destruct (is_voice_request ext p) as [[|]|e]; [| |discriminate].
  - left. now injection Hroute as <-.
  - right. now injection Hroute as <-.
Qed.

Lemma picture_phrase_decides_responder_witness :
  let cfg := Sample.config false in
  let q := first_entry cfg (Sample.private_arrival 0 "alice" "来张图") [] in
  let p := MessageHandler.combined_message q in
  ImageHandler.is_random_image_request p = true /\
  ((MessageHandler._check_time_reminder_and_search p (sender_name q) = true
    /\ RandomImageResponder = TextResponder) \/
   (is_voice_request Sample.oracle p = Ok true
    /\ RandomImageResponder = VoiceResponder) \/
   (is_voice_request Sample.oracle p = Ok false
    /\ RandomImageResponder = RandomImageResponder)).
Proof.
  intros cfg q p.
  apply (picture_phrase_decides_responder cfg Sample.oracle
           (Sample.ambient 9 12 0) "alice"
           (run_ops cfg (with_image_handler Sample.oracle)
              [OpAddToQueue (Sample.ambient 0 12 0) "alice" "来张图"
                 "alice" "alice" false] init_world)
           q ("[2025-01-01 12:00:00]" +:+ nl +:+ "来张图")
           RandomImageResponder p "alice" "alice" "alice" false).
  - vm_compute. reflexivity.
  - left. reflexivity.
  - vm_compute. reflexivity.
  - vm_compute. tauto.
Defined.

(** ** What the text responder is handed *)

Section StoreAll.

Context (cfg : Config) (ext : Oracle) (P : queue_data -> Prop).

Hypothesis P_first : forall a l, P (first_entry cfg a l).
Hypothesis P_append : forall q c now link l,
  P q -> P (MessageHandler.append_message q c now link l).

Lemma enqueue_store_all (a : arrival) :
  preserves (store_all P) (enqueue cfg ext a).
Proof.
  intros w I.
  destruct (detection cfg ext (arr_content a)) as [l|e] eqn:Ed.
  - destruct (enqueue_run cfg ext a w l Ed) as (w' & E & Q & _).
    rewrite E. simpl. intros k q Hk. rewrite Q in Hk.
    destruct (decide (arrival_key a = k)) as [<-|Hne].
    + rewrite lookup_insert_eq in Hk. injection Hk as <-.
      destruct (message_queues (message_handler w) !! arrival_key a)
        as [q0|] eqn:E0; [apply P_append; exact (I _ _ E0) | apply P_first].
    + rewrite lookup_insert_ne in Hk by exact Hne. exact (I k q Hk).
  - rewrite (enqueue_raise cfg ext a w e Ed). exact I.
Qed.

Lemma add_to_message_queue_store_all amb c chat who user g ir :
  preserves (store_all P)
    (MessageHandler._add_to_message_queue cfg ext amb c chat who user g ir).
Proof.
  exact (enqueue_store_all
           {| arr_ambient := amb; arr_content := c; arr_chat_id := chat;
              arr_sender_name := who; arr_username := user;
              arr_is_group := g; arr_is_image_recognition := ir |}).
Qed.

Lemma flush_store_all amb k :
  preserves (store_all P) (MessageHandler._process_message_queue cfg ext amb k).
Proof.
  intros w I.
  destruct (flush_cases cfg ext amb k w)
    as [(q & r & evs & _ & _ & _ & E)|[_ E]]; rewrite E;
    unfold store_all in *; simpl.
  - intros k' q' Hk'. destruct (decide (k = k')) as [->|Hne].
    + now rewrite lookup_delete_eq in Hk'.
    + rewrite lookup_delete_ne in Hk' by exact Hne. exact (I k' q' Hk').
  - exact I.
Qed.

Lemma keeps_handler_store_all {A} (m : M A) :
  keeps message_handler m -> preserves (store_all P) m.
Proof.
  exact (keeps_handler_preserves
           (fun h => forall k q, message_queues h !! k = Some q -> P q) m).
Qed.

Lemma perform_store_all o : preserves (store_all P) (perform cfg ext o).
Proof.
  destruct o; simpl.
  - unfold ChatBot.handle_wxauto_message, MessageHandler.handle_user_message,
      MessageHandler._send_raw_message.
    preserves_all;
      try (apply keeps_handler_store_all, start_countdown_keeps_handler);
      try apply add_to_message_queue_store_all.
  - apply add_to_message_queue_store_all.
  - unfold TimerThread.run, TimerThread.invoke,
      AutoSendHandler.auto_send_message, MessageHandler.add_to_queue.
    preserves_all;
      try (apply keeps_handler_store_all, start_countdown_keeps_handler);
      try apply add_to_message_queue_store_all;
      try apply flush_store_all;
      try (intros w H; exact H);
      try (apply keeps_handler_store_all, cancel_keeps_handler).
  - apply keeps_handler_store_all, start_countdown_keeps_handler.
  - apply keeps_handler_store_all, stop_keeps_handler.
  - apply keeps_handler_store_all, start_countdown_cancel_keeps_handler.
  - apply keeps_handler_store_all, start_countdown_arm_keeps_handler.
Qed.

Lemma run_ops_store_all ops : forall w,
  store_all P w -> store_all P (run_ops cfg ext ops w).
Proof.
  induction ops as [|o ops IH]; intros w I; simpl; [exact I|].
  apply IH. now apply perform_store_all.
Qed.

End StoreAll.

Lemma stamped_combined q :
  stamped q -> String.prefix "[" (MessageHandler.combined_message q) = true.
Proof.
  intros (m & rest & E & Hm).
  unfold MessageHandler.combined_message, PyStr.join. rewrite E.
  destruct rest as [|m' rest]; [exact Hm|].
  change (String.concat nl (m :: m' :: rest))
    with (m +:+ nl +:+ String.concat nl (m' :: rest)).
  now apply prefix_app_r.
Qed.

Lemma run_ops_stamped cfg ext ops :
  store_all stamped (run_ops cfg ext ops init_world).
Proof.
  apply run_ops_store_all.
  - intros a l. eexists _, []. split; [reflexivity|]. apply prefix_append.
  - intros q c now link l (m & rest & E & Hm).
    exists m, (rest ++ [c]). split; [|exact Hm].
    unfold MessageHandler.append_message. simpl. now rewrite E.
  - intros k q Hk. discriminate.
Qed.

Lemma stamped_no_command p :
  String.prefix "[" p = true -> Reply.command_of p = None.
Proof.
  intros H. destruct (prefix_split _ _ H) as [t ->].
  unfold Reply.command_of. change ("[" +:+ t) with (String "["%char t).
  simpl. now destruct (ascii_dec "/" "[").
Qed.

Lemma handle_text_without_command env p c s u g :
  Reply.command_of p = None ->
  forallb (fun a => negb (Reply.is_raw a))
          (fst (Reply._handle_text_message env p c s u g)) = true.
Proof.
  intros H. unfold Reply._handle_text_message. rewrite H.
  unfold Reply.bind, Reply.call. simpl.
  destruct (Reply.get_api_response env _ c g) as [r|e]; [|reflexivity].
  destruct (Reply._send_message_with_dollar env _ c) as [[]|e]; reflexivity.
Qed.

(** X13. The content a flush hands to a responder begins with the time stamp
    of the first message, at any point of a run.  So [_handle_text_message]
    never reads a command off it, even when the user typed one: [command]
    stays [None], and the reply never goes out through [_send_raw_message]. *)
Theorem queued_text_is_never_a_command cfg ext ops amb k resp p c s u g env :
  In (EvRespond resp p c s u g)
     (new_events (MessageHandler._process_message_queue cfg ext amb k)
                 (run_ops cfg ext ops init_world)) ->
  String.prefix "[" p = true /\
  Reply.command_of p = None /\
  forallb (fun a => negb (Reply.is_raw a))
          (fst (Reply._handle_text_message env p c s u g)) = true.
Proof.
  intros Hin.
  destruct (flush_respond_event _ _ _ _ _ _ _ _ _ _ _ Hin)
    as (q & Hq & Hpre & _).
  pose proof (stamped_combined q (run_ops_stamped cfg ext ops k q Hq)) as Hs.
  assert (Hp : String.prefix "[" p = true).
  { destruct (prefix_split _ _ Hpre) as [t ->]. now apply prefix_app_r. }
  split; [exact Hp|].
  pose proof (stamped_no_command p Hp) as Hc.
  split; [exact Hc|]. now apply handle_text_without_command.
Qed.

Lemma queued_text_is_never_a_command_witness :
  let p := "[2025-01-01 12:00:00]" +:+ nl +:+ "/state now" in
  Reply.command_of "/state now" = Some "/state" /\
  (String.prefix "[" p = true /\
   Reply.command_of p = None /\
   forallb (fun a => negb (Reply.is_raw a))
           (fst (Reply._handle_text_message ReplySample.env p
                   "alice" "alice" "alice" false)) = true).
Proof.
  intros p. split; [vm_compute; reflexivity|].
  apply (queued_text_is_never_a_command (Sample.config false) Sample.oracle
           [OpAddToQueue (Sample.ambient 0 12 0) "alice" "/state now"
              "alice" "alice" false]
           (Sample.ambient 9 12 0) "alice" TextResponder p
           "alice" "alice" "alice" false ReplySample.env).
  vm_compute. tauto.
Defined.

(** ** The reply that is sent and the reply that is remembered *)

Lemma skip_append a b : Reply.skip (String.length a) (a +:+ b) = b.
Proof.
  induction a as [|x a IH]; [reflexivity|].
  change (String x a +:+ b) with (String x (a +:+ b)). exact IH.
Qed.

Lemma mention_truthy who r : PyStr.truthy (Reply.mention who +:+ r) = true.
Proof. reflexivity. Qed.

(** X14. In a group chat the reply goes out with the mention of the sender
    in front and is stored that way in the database, while the memory
    receives the reply of the model as it was before the mention was added
    (and after the reasoning up to [</think>] was cut off): what
    [_handle_text_message] prepends, [save_message] removes. *)
Theorem group_reply_is_remembered_without_mention
  env avatar content chat who user r :
  let api := Reply.group_content who content in
  let reply := Reply.mention who +:+ Reply.without_think r in
  let system := String.eqb who "System" || String.eqb user "System" in
  let command := Reply.command_of content in
  Reply.get_api_response env api chat true = Ok r ->
  (Reply.command_truthy command && Reply.preserved command = false ->
   Reply._send_message_with_dollar env reply chat = Ok tt) ->
  Reply.session_add env chat who api reply = Ok tt ->
  (exists sent,
      Reply._handle_text_message env content chat who user true
      = ([Reply.GetApiResponse api chat true; sent;
          Reply.StartSaveMessage chat who api reply system], Ok reply) /\
      (sent = Reply.SendRawMessage reply chat \/
       sent = Reply.SendMessageWithDollar reply chat)) /\
  firstn 2 (fst (Reply.save_message env avatar chat who api reply system))
  = [Reply.SessionAdd chat who api reply;
     Reply.AddConversation avatar api (Reply.without_think r) chat system] /\
  snd (Reply.save_message env avatar chat who api reply system) = Ok tt.
Proof.
  intros api reply system command Hapi Hsend Hdb. split; [|split].
  - unfold Reply._handle_text_message. fold api command. cbv zeta.
    rewrite Hapi. unfold Reply.bind at 1. unfold Reply.call at 1.
    fold reply system.
    destruct (Reply.command_truthy command && Reply.preserved command)
      eqn:Ec.
    + apply andb_prop in Ec as [_ Ep].
      unfold Reply._send_command_response. subst reply.
      rewrite mention_truthy, Ep. simpl.
      eexists. split; [reflexivity | now left].
    + unfold Reply.call, Reply.bind. rewrite (Hsend eq_refl). simpl.
      eexists. split; [reflexivity | now right].
  - unfold Reply.save_message, Reply.try_except, Reply.bind, Reply.call.
    rewrite Hdb. subst reply.
    rewrite prefix_append, skip_append.
    now destruct (Reply.add_conversation env avatar api _ chat system).
  - unfold Reply.save_message, Reply.try_except, Reply.bind, Reply.call.
    rewrite Hdb.
    now destruct (Reply.add_conversation env avatar api _ chat system)
      as [[]|e].
Qed.

Lemma group_reply_is_remembered_without_mention_witness :
  firstn 2 (fst (Reply.save_message ReplySample.env "ava" "room" "alice"
                   (Reply.group_content "alice" "hi")
                   (Reply.mention "alice" +:+ "hello") false))
  = [Reply.SessionAdd "room" "alice" (Reply.group_content "alice" "hi")
       (Reply.mention "alice" +:+ "hello");
     Reply.AddConversation "ava" (Reply.group_content "alice" "hi") "hello"
       "room" false].
Proof.
  exact (proj1 (proj2 (group_reply_is_remembered_without_mention
                         ReplySample.env "ava" "hi" "room" "alice" "alice"
                         ("let me see" +:+ "</think>" +:+ "hello")
                         eq_refl (fun _ => eq_refl) eq_refl))).
Defined.

(** [_handle_text_message] in closed form. *)
Lemma handle_text_message_cases env content chat who user (g : bool) :
  let command := Reply.command_of content in
  let api := if g then Reply.group_content who content else content in
  let system := String.eqb who "System" || String.eqb user "System" in
  Reply._handle_text_message env content chat who user g
  = match Reply.get_api_response env api chat g return Reply.R string with
    | Raise e => ([Reply.GetApiResponse api chat g], Raise e)
    | Ok r =>
        let out := if g then Reply.mention who +:+ Reply.without_think r
                   else Reply.without_think r in
        if Reply.command_truthy command && Reply.preserved command then
          (Reply.GetApiResponse api chat g
             :: (if PyStr.truthy out then [Reply.SendRawMessage out chat]
                 else [])
             ++ [Reply.StartSaveMessage chat who api out system], Ok out)
        else
          match Reply._send_message_with_dollar env out chat
                return Reply.R string with
          | Ok _ =>
              ([Reply.GetApiResponse api chat g;
                Reply.SendMessageWithDollar out chat;
                Reply.StartSaveMessage chat who api out system], Ok out)
          | Raise e =>
              ([Reply.GetApiResponse api chat g;
                Reply.SendMessageWithDollar out chat], Raise e)
          end
    end.
Proof.
  intros command api system. unfold Reply._handle_text_message.
  fold command. cbv zeta.
  assert (Ea : (if g then if g then Reply.group_content who content
                          else content
                else content) = api) by (unfold api; now destruct g).
  rewrite Ea. clear Ea. fold api system.
  unfold Reply.bind at 1. unfold Reply.call at 1.
  destruct (Reply.get_api_response env api chat g) as [r|e]; [|reflexivity].
  generalize (if g then Reply.mention who +:+ Reply.without_think r
              else Reply.without_think r). intros out.
  destruct (Reply.command_truthy command && Reply.preserved command) eqn:Ec.
  - apply andb_prop in Ec as [_ Ep].
    unfold Reply._send_command_response. rewrite Ep.
    now destruct (PyStr.truthy out).
  - unfold Reply.call, Reply.bind.
    now destruct (Reply._send_message_with_dollar env out chat) as [[]|e].
Qed.

(** X15. An exchange is saved exactly when the reply was handed to the
    transport without an exception.  When the model call raises,
    [_handle_text_message] raises the same after that call alone; when the
    reply goes through [_send_message_with_dollar] and that raises, it
    raises the same after the two calls; in both cases no [save_message]
    thread is started.  When the reply is sent raw, or
    [_send_message_with_dollar] returns, it returns the reply, and the
    [save_message] thread, with that reply, is the last thing it starts and
    the only one.  [save_message] itself never raises, and when the database
    insert fails the memory is not written either. *)
Theorem unsent_reply_is_not_saved
  env avatar content chat who user (g : bool) message reply system :
  let api := if g then Reply.group_content who content else content in
  let run := Reply._handle_text_message env content chat who user g in
  (forall e,
      Reply.get_api_response env api chat g = Raise e ->
      run = ([Reply.GetApiResponse api chat g], Raise e)) /\
  (forall r,
      Reply.get_api_response env api chat g = Ok r ->
      let out := if g then Reply.mention who +:+ Reply.without_think r
                 else Reply.without_think r in
      let raw := Reply.command_truthy (Reply.command_of content)
                 && Reply.preserved (Reply.command_of content) in
      (forall e,
          raw = false ->
          Reply._send_message_with_dollar env out chat = Raise e ->
          run = ([Reply.GetApiResponse api chat g;
                  Reply.SendMessageWithDollar out chat], Raise e)) /\
      (raw = true \/ Reply._send_message_with_dollar env out chat = Ok tt ->
       snd run = Ok out /\
       exists acts,
         fst run
         = acts ++ [Reply.StartSaveMessage chat who api out
                      (String.eqb who "System" || String.eqb user "System")]
         /\ forallb (fun a => negb (Reply.is_save a)) acts = true)) /\
  snd (Reply.save_message env avatar chat who message reply system) = Ok tt /\
  match Reply.session_add env chat who message reply with
  | Ok _ => True
  | Raise _ =>
      fst (Reply.save_message env avatar chat who message reply system)
      = [Reply.SessionAdd chat who message reply;
         Reply.LogError "保存消息失败"]
  end.
Proof.
  intros api run. unfold run. rewrite handle_text_message_cases. cbv zeta.
  fold api.
  split; [|split; [|split]].
  - intros e E. now rewrite E.
  - intros r E. rewrite E.
    set (out := if g then Reply.mention who +:+ Reply.without_think r
                else Reply.without_think r).
    set (raw := Reply.command_truthy (Reply.command_of content)
                && Reply.preserved (Reply.command_of content)).
    split.
    + intros e Hraw Hs. now rewrite Hraw, Hs.
    + intros [Hraw|Hs].
      * rewrite Hraw. split; [reflexivity|].
        destruct (PyStr.truthy out); simpl.
        -- now exists [Reply.GetApiResponse api chat g;
                       Reply.SendRawMessage out chat].
        -- now exists [Reply.GetApiResponse api chat g].
      * destruct raw.
        -- split; [reflexivity|].
           destruct (PyStr.truthy out); simpl.
           ++ now exists [Reply.GetApiResponse api chat g;
                          Reply.SendRawMessage out chat].
           ++ now exists [Reply.GetApiResponse api chat g].
        -- rewrite Hs. split; [reflexivity|].
           now exists [Reply.GetApiResponse api chat g;
                       Reply.SendMessageWithDollar out chat].
  - unfold Reply.save_message, Reply.try_except, Reply.bind, Reply.call.
    destruct (Reply.session_add env chat who message reply) as [[]|e];
      [|reflexivity].
    now destruct (Reply.add_conversation env avatar message _ chat system)
      as [[]|e].
  - unfold Reply.save_message, Reply.try_except, Reply.bind, Reply.call.
    now destruct (Reply.session_add env chat who message reply) as [[]|e].
Qed.

Lemma unsent_reply_is_not_saved_witness :
  Reply._handle_text_message ReplySample.env_without_model
    "hi" "alice" "alice" "alice" false
  = ([Reply.GetApiResponse "hi" "alice" false], Raise "model") /\
  Reply._handle_text_message ReplySample.env_without_transport
    "hi" "alice" "alice" "alice" false
  = ([Reply.GetApiResponse "hi" "alice" false;
      Reply.SendMessageWithDollar "hello" "alice"], Raise "send") /\
  snd (Reply._handle_text_message ReplySample.env
         "hi" "alice" "alice" "alice" false) = Ok "hello".
Proof.
  split; [|split].
  - destruct (unsent_reply_is_not_saved ReplySample.env_without_model
                "ava" "hi" "alice" "alice" "alice" false "hi" "hello" false)
      as (H & _).
    apply (H "model"). reflexivity.
  - destruct (unsent_reply_is_not_saved ReplySample.env_without_transport
                "ava" "hi" "alice" "alice" "alice" false "hi" "hello" false)
      as (_ & H & _).
    destruct (H ("let me see" +:+ "</think>" +:+ "hello") eq_refl) as [H1 _].
    apply (H1 "send"); reflexivity.
  - destruct (unsent_reply_is_not_saved ReplySample.env
                "ava" "hi" "alice" "alice" "alice" false "hi" "hello" false)
      as (_ & H & _).
    destruct (H ("let me see" +:+ "</think>" +:+ "hello") eq_refl) as [_ H2].
    apply H2. right. reflexivity.
Defined.

(** ** Reference information for the model *)

Lemma last_five_length l : length (Prompts.last_five l) <= 5.
Proof. unfold Prompts.last_five. rewrite length_drop. lia. Qed.

Lemma last_five_app a b :
  Prompts.last_five (Prompts.last_five a ++ b) = Prompts.last_five (a ++ b).
Proof.
  unfold Prompts.last_five.
  rewrite !length_app, length_drop.
  destruct (le_lt_dec (length a) 5) as [Ha|Ha].
  - replace (length a - 5) with 0 by lia. simpl.
    now replace (length a - 0 + length b - 5) with (length a + length b - 5)
      by lia.
  - replace (length a - (length a - 5) + length b - 5) with (length b) by lia.
    destruct (le_lt_dec (length b) 5) as [Hb|Hb].
    + rewrite !drop_app_le by (rewrite ?length_drop; lia).
      rewrite drop_drop. f_equal. f_equal. lia.
    + rewrite !drop_app_ge by (rewrite ?length_drop; lia).
      rewrite length_drop. f_equal. lia.
Qed.

Lemma add_entries chat c sp :
  Prompts.entries (Prompts._add_to_system_prompt chat c sp) chat
  = Some (Prompts.last_five (default [] (Prompts.entries sp chat) ++ [c])).
Proof.
  unfold Prompts._add_to_system_prompt, Prompts.entries. cbv zeta.
  set (d := match sp with Some d => d | None => ∅ end).
  assert (Ed : match sp with Some d => d !! chat | None => None end
               = d !! chat) by (unfold d; now destruct sp).
  rewrite Ed. clear Ed.
  set (d1 := match d !! chat with Some _ => d | None => <[chat := []]> d end).
  assert (E1 : default [] (d1 !! chat) = default [] (d !! chat)).
  { unfold d1. destruct (d !! chat) eqn:E; [now rewrite E|].
    now rewrite lookup_insert_eq. }
  rewrite E1, lookup_insert_eq. simpl.
  set (l := default [] (d !! chat) ++ [c]).
  destruct (5 <? length l)%nat eqn:E5.
  - now rewrite lookup_insert_eq.
  - rewrite lookup_insert_eq. apply Nat.ltb_ge in E5.
    unfold Prompts.last_five. now replace (length l - 5) with 0 by lia.
Qed.

Lemma add_entries_ne chat chat' c sp :
  chat <> chat' ->
  Prompts.entries (Prompts._add_to_system_prompt chat c sp) chat'
  = Prompts.entries sp chat'.
Proof.
  intros Hne. unfold Prompts._add_to_system_prompt, Prompts.entries. cbv zeta.
  set (d := match sp with Some d => d | None => ∅ end).
  assert (Ed : match sp with Some d => d !! chat' | None => None end
               = d !! chat') by (unfold d; now destruct sp).
  rewrite Ed. clear Ed.
  set (d1 := match d !! chat with Some _ => d | None => <[chat := []]> d end).
  assert (E1 : d1 !! chat' = d !! chat').
  { unfold d1. destruct (d !! chat); [reflexivity|].
    now rewrite lookup_insert_ne. }
  destruct (5 <? _)%nat; rewrite !lookup_insert_ne by exact Hne; exact E1.
Qed.

Lemma add_all_entries chat adds : forall sp,
  Prompts.entries (Prompts.add_all adds sp) chat
  = match Prompts.added_for chat adds with
    | [] => Prompts.entries sp chat
    | l => Some (Prompts.last_five (default [] (Prompts.entries sp chat) ++ l))
    end.
Proof.
  induction adds as [|[c x] adds IH]; intros sp; [reflexivity|].
  change (Prompts.add_all ((c, x) :: adds) sp)
    with (Prompts.add_all adds (Prompts._add_to_system_prompt c x sp)).
  rewrite IH. unfold Prompts.added_for. cbn [List.filter fst].
  destruct (String.eqb c chat) eqn:Ec; cbn [map snd].
  - apply String.eqb_eq in Ec. subst c. rewrite add_entries.
    simpl (default _ (Some _)).
    destruct (map snd (List.filter _ adds)) as [|y rest]; [reflexivity|].
    rewrite last_five_app. now rewrite <- app_assoc.
  - apply String.eqb_neq in Ec. now rewrite add_entries_ne.
Qed.

Ltac prompts_cases :=
  repeat match goal with
         | |- context [match ?x with _ => _ end] =>
             lazymatch x with
             | context [match _ with _ => _ end] => fail
             | _ => destruct x eqn:?; simpl
             end
         end.

(** What a question does to the prompts: nothing, or the list of the user
    is emptied. *)
Lemma ask_state env avatar fallback message user g sp :
  snd (Prompts.get_api_response env avatar fallback message user g sp) = sp \/
  exists d l, sp = Some d /\ d !! user = Some l /\ l <> [] /\
    snd (Prompts.get_api_response env avatar fallback message user g sp)
    = Some (<[user := []]> d).
Proof.
  unfold Prompts.get_api_response, Prompts.try_except, Prompts.bind,
    Prompts.lift, Prompts.ret, Prompts.get, Prompts.put, Prompts.call,
    Prompts.entries.
  destruct sp as [d|]; simpl; prompts_cases; try (left; reflexivity);
    right;
    match goal with
    | H : d !! user = Some ?l, N : Prompts.nonempty ?l = true |- _ =>
        exists d, l; split; [reflexivity|]; split; [exact H|];
        split; [intros ->; discriminate N | reflexivity]
    end.
Qed.

Lemma add_at_most_five chat c sp :
  Prompts.at_most_five sp ->
  Prompts.at_most_five (Prompts._add_to_system_prompt chat c sp).
Proof.
  intros I chat' l Hl. destruct (decide (chat = chat')) as [<-|Hne].
  - rewrite add_entries in Hl. injection Hl as <-. apply last_five_length.
  - rewrite add_entries_ne in Hl by exact Hne. exact (I chat' l Hl).
Qed.

Lemma ask_at_most_five env avatar fallback message user g sp :
  Prompts.at_most_five sp ->
  Prompts.at_most_five
    (snd (Prompts.get_api_response env avatar fallback message user g sp)).
Proof.
  intros I.
  destruct (ask_state env avatar fallback message user g sp)
    as [->|(d & l & -> & _ & _ & ->)]; [exact I|].
  intros chat l' Hl. simpl in Hl.
  destruct (decide (user = chat)) as [<-|Hne].
  - rewrite lookup_insert_eq in Hl. injection Hl as <-. simpl. lia.
  - rewrite lookup_insert_ne in Hl by exact Hne. exact (I chat l' Hl).
Qed.

Lemma do_steps_at_most_five steps : forall sp,
  Prompts.at_most_five sp -> Prompts.at_most_five (Prompts.do_steps steps sp).
Proof.
  induction steps as [|s steps IH]; intros sp I; [exact I|].
  change (Prompts.do_steps (s :: steps) sp)
    with (Prompts.do_steps steps (Prompts.do_step s sp)).
  apply IH. destruct s; simpl.
  - now apply add_at_most_five.
  - now apply ask_at_most_five.
Qed.

(** X16. The reference texts of a chat are the newest five that were added
    for it, oldest first, whatever was added for other chats in between; and
    however additions and questions follow one another, no chat ever holds
    more than five. *)
Theorem system_prompts_hold_the_newest_five :
  (forall adds chat,
      Prompts.entries (Prompts.add_all adds None) chat
      = match Prompts.added_for chat adds with
        | [] => None
        | l => Some (Prompts.last_five l)
        end) /\
  (forall steps, Prompts.at_most_five (Prompts.do_steps steps None)).
Proof.
  split.
  - intros adds chat. rewrite add_all_entries. reflexivity.
  - intros steps. apply do_steps_at_most_five. intros chat l Hl. discriminate.
Qed.

(** X17. Reference texts are used once.  A question that gets as far as the
    model call puts the texts held for the user, joined by blank lines, at
    the end of the system prompt under the heading, and empties the list
    before the call is made.  So when that call fails, the fallback call
    goes out with the bare prompt and the texts are gone: the next question
    for the user is asked without them. *)
Theorem reference_information_is_used_once
  env avatar fallback message user (g : bool) d l a cm :
  d !! user = Some l -> l <> [] ->
  Prompts.read_avatar env = Ok a ->
  Prompts.get_core_memory env avatar user = Ok (Some cm) ->
  (Prompts.in_chat_contexts env user = false ->
   exists c, Prompts.get_recent_context env avatar user = Ok c) ->
  (g = true -> exists gp, Prompts.read_group_prompt env = Ok gp) ->
  exists base previous core,
    let reference :=
      nl +:+ nl +:+ "参考信息:" +:+ nl +:+ PyStr.join (nl +:+ nl) l in
    let ask p := Prompts.GetResponse message user p previous core in
    let last := Prompts.GetResponse message user fallback None None in
    let emptied := Some (<[user := []]> d) in
    Prompts.get_api_response env avatar fallback message user g (Some d)
    = match Prompts.get_response env message user (base +:+ reference)
              previous core with
      | Ok x => ([ask (base +:+ reference)], Ok x, emptied)
      | Raise _ =>
          ([ask (base +:+ reference); last],
           Prompts.get_response env message user fallback None None, emptied)
      end /\
    Prompts.get_api_response env avatar fallback message user g emptied
    = match Prompts.get_response env message user base previous core with
      | Ok x => ([ask base], Ok x, emptied)
      | Raise _ =>
          ([ask base; last],
           Prompts.get_response env message user fallback None None, emptied)
      end.
Proof.
  intros Hl Hne Ha Hcm Hctx Hg.
  exists (if g then match Prompts.read_group_prompt env with
                    | Ok gp => gp +:+ nl +:+ nl +:+ a
                    | Raise _ => a
                    end
          else a),
    (if Prompts.in_chat_contexts env user then None
     else match Prompts.get_recent_context env avatar user with
          | Ok c => Some c
          | Raise _ => None
          end),
    (Some (if PyStr.truthy cm then "# 核心记忆" +:+ nl +:+ cm else "")).
  cbv zeta.
  unfold Prompts.get_api_response, Prompts.try_except, Prompts.bind,
    Prompts.lift, Prompts.ret, Prompts.get, Prompts.put, Prompts.call,
    Prompts.entries.
  rewrite Ha, Hcm. simpl.
  destruct l as [|x l]; [now destruct Hne|].
  destruct (Prompts.in_chat_contexts env user) eqn:Ec;
    [|destruct (Hctx eq_refl) as [c Hc]; rewrite Hc]; simpl;
    (destruct g; [destruct (Hg eq_refl) as [gp Hgp]; rewrite Hgp|]); simpl;
    rewrite Hl, lookup_insert_eq; simpl;
    split; reflexivity.
Qed.

Lemma reference_information_is_used_once_witness :
  let d : gmap string (list string) := {[ "alice" := ["page summary"] ]} in
  exists base previous core,
    let reference :=
      nl +:+ nl +:+ "参考信息:" +:+ nl
         +:+ PyStr.join (nl +:+ nl) ["page summary"] in
    let ask p := Prompts.GetResponse "hi" "alice" p previous core in
    let last := Prompts.GetResponse "hi" "alice" "bare prompt" None None in
    let emptied := Some (<["alice" := []]> d) in
    Prompts.get_api_response PromptsSample.env "ava" "bare prompt"
      "hi" "alice" true (Some d)
    = match Prompts.get_response PromptsSample.env "hi" "alice"
              (base +:+ reference) previous core with
      | Ok x => ([ask (base +:+ reference)], Ok x, emptied)
      | Raise _ =>
          ([ask (base +:+ reference); last],
           Prompts.get_response PromptsSample.env "hi" "alice" "bare prompt"
             None None, emptied)
      end /\
    Prompts.get_api_response PromptsSample.env "ava" "bare prompt"
      "hi" "alice" true emptied
    = match Prompts.get_response PromptsSample.env "hi" "alice" base
              previous core with
      | Ok x => ([ask base], Ok x, emptied)
      | Raise _ =>
          ([ask base; last],
           Prompts.get_response PromptsSample.env "hi" "alice" "bare prompt"
             None None, emptied)
      end.
Proof.
  intros d.
  apply (reference_information_is_used_once PromptsSample.env "ava"
           "bare prompt" "hi" "alice" true d ["page summary"]
           "persona" "likes tea").
  - vm_compute. reflexivity.
  - discriminate.
  - reflexivity.
  - reflexivity.
  - intros _. now exists [].
  - intros _. now exists "group rules".
Defined.

(** ** The image recognition service *)

Lemma heading_truthy (h t : string) :
  PyStr.truthy h = true -> PyStr.truthy (h +:+ t) = true.
Proof. destruct h; [discriminate|reflexivity]. Qed.

(** The answers of [recognize_image]. *)
Lemma recognize_image_cases self env image_path is_emoji :
  exists recognized_text,
    ImageRecognitionService.recognize_image self env image_path is_emoji
    = ImageRecognitionService.Val recognized_text /\
    PyStr.truthy recognized_text = true /\
    (In recognized_text ImageRecognitionService.apologies \/
     String.prefix (if is_emoji then ImageRecognitionService.emoji_heading
                    else ImageRecognitionService.photo_heading)
                   recognized_text = true).
Proof.
  unfold ImageRecognitionService.recognize_image,
    ImageRecognitionService.ask, ImageRecognitionService.bind.
  cbv zeta.
  assert (Hap : forall t, In t ImageRecognitionService.apologies ->
                          PyStr.truthy t = true).
  { intros t Ht. unfold ImageRecognitionService.apologies in Ht. simpl in Ht.
    repeat (destruct Ht as [<-|Ht]; [reflexivity|]). destruct Ht. }
  assert (Hdone : forall t, In t ImageRecognitionService.apologies ->
    exists r, ImageRecognitionService.Val t = ImageRecognitionService.Val r /\
              PyStr.truthy r = true /\
              (In r ImageRecognitionService.apologies \/
               String.prefix (if is_emoji
                              then ImageRecognitionService.emoji_heading
                              else ImageRecognitionService.photo_heading)
                             r = true)).
  { intros t Ht. exists t. split; [reflexivity|]. split; [now apply Hap|].
    now left. }
  assert (Hhead : forall t,
    exists r,
      ImageRecognitionService.Val
        ((if is_emoji then ImageRecognitionService.emoji_heading
          else ImageRecognitionService.photo_heading) +:+ t)
      = ImageRecognitionService.Val r /\
      PyStr.truthy r = true /\
      (In r ImageRecognitionService.apologies \/
       String.prefix (if is_emoji
                      then ImageRecognitionService.emoji_heading
                      else ImageRecognitionService.photo_heading)
                     r = true)).
  { intros t. eexists. split; [reflexivity|]. split.
    - apply heading_truthy. now destruct is_emoji.
    - right. apply prefix_append. }
  destruct (ImageRecognitionService.os_path_exists env image_path)
    as [[|]|e]; simpl;
    [| apply Hdone; simpl; tauto | apply Hdone; simpl; tauto].
  destruct (ImageRecognitionService.os_path_getsize env image_path)
    as [size|e]; simpl; [| apply Hdone; simpl; tauto].
  destruct (Qltb 100 _); [apply Hdone; simpl; tauto|].
  destruct (ImageRecognitionService.read_base64 env image_path)
    as [image|e]; [| apply Hdone; simpl; tauto].
  destruct (ImageRecognitionService.requests_post env _) as [resp|[| |]];
    [| apply Hdone; simpl; tauto ..].
  destruct (negb _); [apply Hdone; simpl; tauto|].
  destruct (ImageRecognitionService.json resp) as [result|[| |]];
    [| apply Hdone; simpl; tauto ..].
  destruct (ImageRecognitionService.has_choices result) as [[|]|[| |]];
    simpl; [| apply Hdone; simpl; tauto ..].
  destruct (ImageRecognitionService.message_content result)
    as [[t|]|[| |]]; [| apply Hdone; simpl; tauto ..].
  destruct is_emoji; [|apply (Hhead t)].
  apply (Hhead (if PyStr.contains ImageRecognitionService.emoji_marker t
                then match Reply.split_once
                             ImageRecognitionService.emoji_marker t with
                     | Some (_, rest) => ImageRecognitionService.strip env rest
                     | None => t
                     end
                else t)).
Qed.

Lemma Qltb_false a b : Qltb a b = false -> (b <= a)%Q.
Proof.
  unfold Qltb. intros H. apply negb_false_iff in H. now apply Qle_bool_iff.
Qed.

Lemma Qltb_true a b : Qltb a b = true -> (a < b)%Q.
Proof.
  unfold Qltb. intros H. apply negb_true_iff in H.
  apply Qnot_le_lt. intros Hle. apply Qle_bool_iff in Hle. congruence.
Qed.

(** X18. [recognize_image] always answers with a text and the text is never
    empty, whatever the file system and the recognition service do: it is one
    of nine apologies, or the description under the heading of a photo or of
    a sticker.  So the caller, which enqueues any non-empty text, cannot tell
    a failure from a description, and the call it makes never raises.  The
    temperature the service was built with, and sends, lies in [0, 1]. *)
Theorem recognize_image_always_answers self env ext image_path is_emoji :
  (exists recognized_text,
      ImageRecognitionService.recognize_image self env image_path is_emoji
      = ImageRecognitionService.Val recognized_text /\
      recognize_image (with_recognition self env ext) image_path is_emoji
      = Ok recognized_text /\
      PyStr.truthy recognized_text = true /\
      (In recognized_text ImageRecognitionService.apologies \/
       String.prefix (if is_emoji then ImageRecognitionService.emoji_heading
                      else ImageRecognitionService.photo_heading)
                     recognized_text = true)) /\
  (forall base_url temperature model,
      (0 <= ImageRecognitionService.temperature
              (ImageRecognitionService.init base_url temperature model)
       <= 1)%Q).
Proof.
  split.
  - destruct (recognize_image_cases self env image_path is_emoji)
      as (t & Hr & Ht & Hc).
    exists t. split; [exact Hr|]. split; [|split; [exact Ht | exact Hc]].
    unfold with_recognition. simpl. now rewrite Hr.
  - intros base_url temperature model. simpl.
    unfold ImageRecognitionService.py_min, ImageRecognitionService.py_max.
    destruct (Qltb 0 temperature) eqn:E0.
    + apply Qltb_true in E0.
      destruct (Qltb 1 temperature) eqn:E1.
      * split; [discriminate | apply Qle_refl].
      * apply Qltb_false in E1. split; [now apply Qlt_le_weak | exact E1].
    + destruct (Qltb 1 0) eqn:E1; [discriminate E1|].
      split; [apply Qle_refl | discriminate].
Qed.

(** ** A picture on its way to the queue *)

(** X19. A message that names a picture file reaches the queue as what the
    recognition service said about it, and only as that: with the service of
    [ImageRecognitionService] in place, [handle_wxauto_message] re-arms the
    countdown, asks for the recognition of the file, and enqueues the answer
    under the key of the chat, flagged as an image recognition.  The answer
    is never empty, so the message is never dropped, and an apology of the
    service is enqueued like a description. *)
Theorem picture_is_queued_as_its_description
  cfg ext self env amb msg chat (g : bool) w c l :
  let ext' := with_recognition self env ext in
  let path := if g && PyStr.truthy (robot_name cfg) && PyStr.truthy c
              then strip_mention ext (robot_name cfg) c else c in
  ChatBot.py_or (ChatBot.content msg) (ChatBot.text msg) = Some c ->
  PyStr.truthy path = true ->
  ChatBot.is_image_name path = true ->
  (forall t, is_debug_command ext t = Ok false) ->
  (forall t, detection cfg ext t = Ok (l t)) ->
  exists t w',
    ImageRecognitionService.recognize_image self env path false
    = ImageRecognitionService.Val t /\
    PyStr.truthy t = true /\
    ChatBot.handle_wxauto_message cfg ext' amb msg chat g w = (Ok tt, w') /\
    let a := {| arr_ambient := amb; arr_content := t; arr_chat_id := chat;
                arr_sender_name := ChatBot.sender msg;
                arr_username := ChatBot.sender msg;
                arr_is_group := g; arr_is_image_recognition := true |} in
    message_queues (message_handler w')
    = <[arrival_key a :=
          match message_queues (message_handler w) !! arrival_key a with
          | None => first_entry cfg a (l t)
          | Some q =>
              MessageHandler.append_message q t (time_time amb)
                (link_found cfg (l t)) (l t)
          end]> (message_queues (message_handler w)) /\
    new_events (ChatBot.handle_wxauto_message cfg ext' amb msg chat g) w
    = [EvRecognizeImage path false; EvDebugCommand t]
        ++ (if WEBLENS_ENABLED cfg then [EvDetectUrls t] else [])
        ++ [EvAcquire; EvRelease].
Proof.
  intros ext' path Hor Hp Hi Hd Hl.
  destruct (recognize_image_cases self env path false) as (t & Hr & Ht & _).
  exists t.
  destruct (start_countdown_run cfg amb w)
    as (w1 & E1 & _ & _ & _ & _ & Hh1 & Ht1).
  set (a := {| arr_ambient := amb; arr_content := t; arr_chat_id := chat;
               arr_sender_name := ChatBot.sender msg;
               arr_username := ChatBot.sender msg;
               arr_is_group := g; arr_is_image_recognition := true |}).
  set (w2 := set_trace (fun tr => tr ++ [EvDebugCommand t])
               (set_trace (fun tr => tr ++ [EvRecognizeImage path false]) w1)).
  assert (Hl' : detection cfg ext' (arr_content a) = Ok (l t)) by apply Hl.
  destruct (enqueue_run cfg ext' a w2 (l t) Hl')
    as (w' & E & Q & _ & _ & _ & T).
  exists w'. split; [exact Hr|]. split; [exact Ht|].
  assert (Hrun : ChatBot.handle_wxauto_message cfg ext' amb msg chat g w
                 = (Ok tt, w')).
  { unfold ChatBot.handle_wxauto_message. rewrite Hor. cbv zeta.
    fold path.
    assert (Ec : (if g && PyStr.truthy (robot_name cfg) && PyStr.truthy c
                  then Some (strip_mention ext' (robot_name cfg) c)
                  else Some c) = Some path).
    { unfold path. now destruct (g && _ && _). }
    rewrite Ec, Hp, Hi. cbn [andb].
    unfold try_except. unfold bind at 1. rewrite E1.
    unfold bind at 1. unfold ret at 1.
    unfold ChatBot.truthy_opt. rewrite Hp. cbn [default from_option id].
    unfold bind at 1. unfold bind at 1. unfold call, bind, emit, modify, lift.
    simpl. unfold ext' at 1. simpl. rewrite Hr. simpl.
    unfold ret at 1. rewrite Ht. unfold when.
    rewrite (handle_user_message_enqueues cfg ext' amb t chat
               (ChatBot.sender msg) (ChatBot.sender msg) g true _ (l t))
      by (try apply Hd; apply Hl).
    pose proof E as E'. unfold enqueue, a, w2 in E'. simpl in E'.
    now rewrite E'. }
  split; [exact Hrun|]. split.
  - rewrite Q. unfold w2. simpl. now rewrite Hh1.
  - unfold new_events. rewrite Hrun. simpl. rewrite T. unfold w2. simpl.
    rewrite Ht1, <- !app_assoc. simpl.
    now rewrite drop_app_length.
Qed.

Lemma picture_is_queued_as_its_description_witness :
  let cfg := Sample.config false in
  let ext' := with_recognition RecognitionSample.service
                RecognitionSample.offline Sample.oracle in
  let amb := Sample.ambient 0 12 0 in
  let msg := {| ChatBot.sender := "alice"; ChatBot.content := Some "cat.PNG";
                ChatBot.text := None |} in
  exists t w',
    ImageRecognitionService.recognize_image RecognitionSample.service
      RecognitionSample.offline "cat.PNG" false
    = ImageRecognitionService.Val t /\
    PyStr.truthy t = true /\
    ChatBot.handle_wxauto_message cfg ext' amb msg "alice" false init_world
    = (Ok tt, w') /\
    let a := {| arr_ambient := amb; arr_content := t; arr_chat_id := "alice";
                arr_sender_name := "alice"; arr_username := "alice";
                arr_is_group := false; arr_is_image_recognition := true |} in
    message_queues (message_handler w')
    = <[arrival_key a :=
          match message_queues (message_handler init_world) !! arrival_key a
          with
          | None => first_entry cfg a []
          | Some q =>
              MessageHandler.append_message q t (time_time amb)
                (link_found cfg []) []
          end]> (message_queues (message_handler init_world)) /\
    new_events (ChatBot.handle_wxauto_message cfg ext' amb msg "alice" false)
               init_world
    = [EvRecognizeImage "cat.PNG" false; EvDebugCommand t]
        ++ (if WEBLENS_ENABLED cfg then [EvDetectUrls t] else [])
        ++ [EvAcquire; EvRelease].
Proof.
  intros cfg ext' amb msg.
  apply (picture_is_queued_as_its_description cfg Sample.oracle
           RecognitionSample.service RecognitionSample.offline amb msg
           "alice" false init_world "cat.PNG" (fun _ => [])).
  - reflexivity.
  - reflexivity.
  - vm_compute. reflexivity.
  - intros t. reflexivity.
  - intros t. reflexivity.
Defined.

(** ** The cleanup of old logs *)

Lemma digit_char k :
  k < 10 ->
  Datetime.is_digit (ascii_of_nat (48 + k)) = true /\
  Datetime.digit (ascii_of_nat (48 + k)) = k.
Proof.
  intros H. do 10 (destruct k as [|k]; [now vm_compute|]). lia.
Qed.

Lemma chars_append a b :
  list_ascii_of_string (a +:+ b)
  = list_ascii_of_string a ++ list_ascii_of_string b.
Proof.
  induction a as [|x a IH]; [reflexivity|].
  change (String x a +:+ b) with (String x (a +:+ b)). simpl. now rewrite IH.
Qed.

Lemma four_digits_value y :
  1000 * (y / 1000) + 100 * ((y / 100) mod 10) + 10 * ((y / 10) mod 10)
  + y mod 10 = y.
Proof.
  assert (E3 : y / 1000 = y / 100 / 10)
    by (rewrite Nat.Div0.div_div; reflexivity).
  assert (E2 : y / 100 = y / 10 / 10)
    by (rewrite Nat.Div0.div_div; reflexivity).
  pose proof (Nat.div_mod_eq y 10) as D1.
  pose proof (Nat.div_mod_eq (y / 10) 10) as D2.
  pose proof (Nat.div_mod_eq (y / 100) 10) as D3.
  rewrite <- E2 in D2. rewrite <- E3 in D3.
  lia.
Qed.

Lemma alt_Y_render y rest :
  (Z.of_nat y < 10000)%Z ->
  LoggerConfig.alt_Y (list_ascii_of_string (LoggerConfig.four_digits y) ++ rest)
  = [(y, rest)].
Proof.
  intros H. unfold LoggerConfig.four_digits, LoggerConfig.alt_Y.
  cbn [list_ascii_of_string app].
  assert (H3 : y / 1000 < 10) by (apply Nat.Div0.div_lt_upper_bound; lia).
  assert (H2 : (y / 100) mod 10 < 10) by (apply Nat.mod_upper_bound; lia).
  assert (H1 : (y / 10) mod 10 < 10) by (apply Nat.mod_upper_bound; lia).
  assert (H0 : y mod 10 < 10) by (apply Nat.mod_upper_bound; lia).
  destruct (digit_char _ H3) as [-> ->]. destruct (digit_char _ H2) as [-> ->].
  destruct (digit_char _ H1) as [-> ->]. destruct (digit_char _ H0) as [-> ->].
  cbn [andb]. now rewrite four_digits_value.
Qed.

Lemma match_md_render m d :
  1 <= m <= 12 -> 1 <= d <= 31 ->
  LoggerConfig.match_md (list_ascii_of_string (two_digits m)
                         ++ list_ascii_of_string (two_digits d))
  = Some (m, d, []).
Proof.
  intros Hm Hd.
  assert (H : forallb (fun i =>
            forallb (fun j =>
              match LoggerConfig.match_md
                      (list_ascii_of_string (two_digits i)
                       ++ list_ascii_of_string (two_digits j)) with
              | Some (i', j', []) => Nat.eqb i' i && Nat.eqb j' j
              | _ => false
              end) (seq 1 31)) (seq 1 12) = true)
    by (vm_compute; reflexivity).
  rewrite forallb_forall in H.
  assert (Hin : In m (seq 1 12)) by (apply in_seq; lia).
  specialize (H m Hin). rewrite forallb_forall in H.
  assert (Hin' : In d (seq 1 31)) by (apply in_seq; lia).
  specialize (H d Hin').
  destruct (LoggerConfig.match_md _) as [[[m' d'] [|? ?]]|]; try discriminate.
  apply andb_prop in H as [H1 H2]. apply Nat.eqb_eq in H1, H2. now subst.
Qed.

Lemma days_in_month_le y m : LoggerConfig.days_in_month y m <= 31.
Proof.
  unfold LoggerConfig.days_in_month.
  do 13 (destruct m as [|m]; [try lia; destruct (LoggerConfig.is_leap y); lia|]).
  lia.
Qed.

Lemma valid_date_bounds D :
  LoggerConfig.valid_date D = true ->
  (1 <= Z.of_nat (LoggerConfig.year D) < 10000)%Z /\
  1 <= LoggerConfig.month D <= 12 /\
  1 <= LoggerConfig.day D <= 31.
Proof.
  unfold LoggerConfig.valid_date. intros H.
  repeat (apply andb_prop in H as [H ?]).
  repeat match goal with
         | X : (_ <=? _)%nat = true |- _ => apply Nat.leb_le in X
         | X : (_ <=? _)%Z = true |- _ => apply Z.leb_le in X
         end.
  pose proof (days_in_month_le (LoggerConfig.year D) (LoggerConfig.month D)).
  lia.
Qed.

(** Reading back what [strftime] wrote gives the date. *)
Lemma strptime_strftime D :
  LoggerConfig.valid_date D = true ->
  LoggerConfig.strptime_Ymd (LoggerConfig.strftime_Ymd D) = Some D.
Proof.
  intros Hv. destruct (valid_date_bounds D Hv) as (Hy & Hm & Hd).
  unfold LoggerConfig.strptime_Ymd, LoggerConfig.strftime_Ymd,
    LoggerConfig.match_Ymd.
  rewrite !chars_append, alt_Y_render by lia.
  cbn [Datetime.first_match]. rewrite match_md_render by lia.
  destruct D as [y m d]. simpl in *. now rewrite Hv.
Qed.

Lemma log_name_shape D :
  String.prefix "bot_" (LoggerConfig.log_name D) = true /\
  PyStr.endswith (LoggerConfig.log_name D) ".log" = true /\
  String.substring 4 8 (LoggerConfig.log_name D) = LoggerConfig.strftime_Ymd D.
Proof.
  split; [apply prefix_append|]. split; now vm_compute.
Qed.

Lemma backup_name_shape D n :
  PyStr.endswith (LoggerConfig.backup_name D n) ".log" = false.
Proof. now vm_compute. Qed.

Lemma micros_bounds t :
  Datetime.valid_time t ->
  (0 <= Datetime.micros t < LoggerConfig.day_micros)%Z.
Proof.
  unfold Datetime.valid_time, Datetime.micros, LoggerConfig.day_micros.
  intros (Hh & Hm & Hs & Hu). lia.
Qed.

Lemma days_between_midnight now D :
  Datetime.valid_time (LoggerConfig.time_of now) ->
  LoggerConfig.days_between now
    {| LoggerConfig.date_of := D; LoggerConfig.time_of := LoggerConfig.midnight |}
  = (Z.of_nat (LoggerConfig.toordinal (LoggerConfig.date_of now))
     - Z.of_nat (LoggerConfig.toordinal D))%Z.
Proof.
  intros Hv. pose proof (micros_bounds _ Hv) as Hb.
  unfold LoggerConfig.days_between, LoggerConfig.instant. simpl.
  change (Datetime.micros LoggerConfig.midnight) with 0%Z.
  set (a := Z.of_nat (LoggerConfig.toordinal (LoggerConfig.date_of now))).
  set (b := Z.of_nat (LoggerConfig.toordinal D)).
  set (mu := Datetime.micros (LoggerConfig.time_of now)) in *.
  unfold LoggerConfig.day_micros in *.
  replace (a * 86400000000 + mu - (b * 86400000000 + 0))%Z
    with ((a - b) * 86400000000 + mu)%Z by lia.
  rewrite Z.div_add_l by lia. rewrite Z.div_small by lia. lia.
Qed.

Lemma expired_log_name now days D :
  LoggerConfig.valid_date D = true ->
  Datetime.valid_time (LoggerConfig.time_of now) ->
  LoggerConfig.expired now days (LoggerConfig.log_name D)
  = (days <? Z.of_nat (LoggerConfig.toordinal (LoggerConfig.date_of now))
             - Z.of_nat (LoggerConfig.toordinal D))%Z.
Proof.
  intros Hv Ht. unfold LoggerConfig.expired.
  destruct (log_name_shape D) as (-> & -> & ->). cbn [negb orb].
  rewrite (strptime_strftime D Hv). cbv zeta.
  now rewrite days_between_midnight.
Qed.

Lemma sweep_removals env dir now days files :
  (forall f, In f files -> LoggerConfig.remove env dir f = Ok tt) ->
  LoggerConfig.sweep env dir now days files
  = (map (LoggerConfig.OsRemove dir)
         (List.filter (LoggerConfig.expired now days) files), Ok tt).
Proof.
  induction files as [|f files IH]; intros H; [reflexivity|]. simpl.
  destruct (LoggerConfig.expired now days f).
  - rewrite (H f) by now left. rewrite IH by (intros; apply H; now right).
    reflexivity.
  - apply IH. intros; apply H; now right.
Qed.

Lemma sweep_only_expired env dir now days files d f :
  In (LoggerConfig.OsRemove d f)
     (fst (LoggerConfig.sweep env dir now days files)) ->
  In f files /\ LoggerConfig.expired now days f = true.
Proof.
  induction files as [|x files IH]; simpl; [intros []|].
  destruct (LoggerConfig.expired now days x) eqn:Ex.
  - destruct (LoggerConfig.remove env dir x) as [[]|e].
    + destruct (LoggerConfig.sweep env dir now days files) as [l r].
      simpl in *. intros [[= <- <-]|Hin]; [now split; [left|]|].
      destruct (IH Hin) as [Hf He]. split; [now right | exact He].
    + simpl. intros [[= <- <-]|[]]. split; [now left | exact Ex].
  - intros Hin. destruct (IH Hin) as [Hf He]. split; [now right | exact He].
Qed.

(** X20. The log of a day is removed exactly when it is old.  With a
    listing that holds the file [get_log_file] named on the day [D] (a year
    of four digits, where [strftime] writes all four) and removals that
    succeed, [cleanup_old_logs] calls [os.remove] on it exactly when more
    than [days] days lie between [D] and today; with [days] not negative the
    log of today stays.  The backups [RotatingFileHandler] puts beside it do
    not end in [.log] and are never removed, however old. *)
Theorem log_is_removed_exactly_when_old env dir now days D files :
  LoggerConfig.valid_date D = true ->
  1000 <= LoggerConfig.year D ->
  Datetime.valid_time (LoggerConfig.time_of now) ->
  LoggerConfig.listdir env dir = Ok files ->
  (forall f, In f files -> LoggerConfig.remove env dir f = Ok tt) ->
  In (LoggerConfig.log_name D) files ->
  (In (LoggerConfig.OsRemove dir (LoggerConfig.log_name D))
      (fst (LoggerConfig.cleanup_old_logs env dir now days))
   <-> (days < Z.of_nat (LoggerConfig.toordinal (LoggerConfig.date_of now))
               - Z.of_nat (LoggerConfig.toordinal D))%Z) /\
  (D = LoggerConfig.date_of now -> (0 <= days)%Z ->
   ~ In (LoggerConfig.OsRemove dir (LoggerConfig.log_name D))
        (fst (LoggerConfig.cleanup_old_logs env dir now days))) /\
  (forall n,
      ~ In (LoggerConfig.OsRemove dir (LoggerConfig.backup_name D n))
           (fst (LoggerConfig.cleanup_old_logs env dir now days))).
Proof.
  intros Hv _ Ht Hls Hrm Hin.
  assert (Hfst : fst (LoggerConfig.cleanup_old_logs env dir now days)
                 = fst (LoggerConfig.sweep env dir now days files)).
  { unfold LoggerConfig.cleanup_old_logs. rewrite Hls.
    now destruct (LoggerConfig.sweep env dir now days files) as [l [[]|e]]. }
  rewrite Hfst.
  assert (Hiff : In (LoggerConfig.OsRemove dir (LoggerConfig.log_name D))
                    (fst (LoggerConfig.sweep env dir now days files))
                 <-> (days < Z.of_nat (LoggerConfig.toordinal
                                         (LoggerConfig.date_of now))
                             - Z.of_nat (LoggerConfig.toordinal D))%Z).
  { rewrite <- Z.ltb_lt, <- (expired_log_name now days D Hv Ht). split.
    - intros H. now apply sweep_only_expired in H.
    - intros H. rewrite (sweep_removals env dir now days files Hrm). simpl.
      apply in_map, filter_In. now split. }
  split; [exact Hiff|]. split.
  - intros -> Hd H. apply Hiff in H. lia.
  - intros n H. apply sweep_only_expired in H as [_ H].
    unfold LoggerConfig.expired in H.
    rewrite backup_name_shape in H. cbn [negb] in H.
    rewrite orb_true_r in H. discriminate.
Qed.

Lemma log_is_removed_exactly_when_old_witness :
  let D := LoggerConfig.mk_date 2025 1 1 in
  let removed :=
    fst (LoggerConfig.cleanup_old_logs LoggerSample.env "logs"
           LoggerSample.now 7) in
  (In (LoggerConfig.OsRemove "logs" (LoggerConfig.log_name D)) removed
   <-> (7 < Z.of_nat (LoggerConfig.toordinal
                        (LoggerConfig.date_of LoggerSample.now))
            - Z.of_nat (LoggerConfig.toordinal D))%Z) /\
  (D = LoggerConfig.date_of LoggerSample.now -> (0 <= 7)%Z ->
   ~ In (LoggerConfig.OsRemove "logs" (LoggerConfig.log_name D)) removed) /\
  (forall n,
      ~ In (LoggerConfig.OsRemove "logs" (LoggerConfig.backup_name D n))
           removed).
Proof.
  intros D removed.
  apply (log_is_removed_exactly_when_old LoggerSample.env "logs"
           LoggerSample.now 7 D
           ["bot_20250101.log"; "bot_20250101.log.1"; "bot_20250110.log";
            "notes.txt"]).
  - reflexivity.
  - unfold D. simpl. lia.
  - unfold Datetime.valid_time. simpl. lia.
  - reflexivity.
  - intros f _. reflexivity.
  - left. vm_compute. reflexivity.
Defined.

(** X21. A removal that fails ends the cleanup.  When [os.remove] raises on
    an old log, [cleanup_old_logs] stops there and prints its failure
    message: the old logs listed before it are removed, those listed after
    it are not even tried. *)
Theorem failed_removal_ends_the_cleanup env dir now days before name after e :
  LoggerConfig.listdir env dir = Ok (before ++ name :: after) ->
  (forall f, In f before -> LoggerConfig.remove env dir f = Ok tt) ->
  LoggerConfig.expired now days name = true ->
  LoggerConfig.remove env dir name = Raise e ->
  LoggerConfig.cleanup_old_logs env dir now days
  = (map (LoggerConfig.OsRemove dir)
         (List.filter (LoggerConfig.expired now days) before)
       ++ [LoggerConfig.OsRemove dir name], true).
Proof.
  intros Hls Hrm Hex Hfail. unfold LoggerConfig.cleanup_old_logs.
  rewrite Hls.
  assert (H : LoggerConfig.sweep env dir now days (before ++ name :: after)
              = (map (LoggerConfig.OsRemove dir)
                     (List.filter (LoggerConfig.expired now days) before)
                   ++ [LoggerConfig.OsRemove dir name], Raise e)).
  { clear Hls. induction before as [|f before IH].
    - simpl. now rewrite Hex, Hfail.
    - change ((f :: before) ++ name :: after)
        with (f :: (before ++ name :: after)).
      cbn [LoggerConfig.sweep List.filter].
      rewrite IH by (intros; apply Hrm; now right).
      destruct (LoggerConfig.expired now days f); [|reflexivity].
      rewrite (Hrm f) by now left. reflexivity. }
  now rewrite H.
Qed.

Lemma failed_removal_ends_the_cleanup_witness :
  LoggerConfig.cleanup_old_logs LoggerSample.read_only "logs"
    LoggerSample.now 7
  = ([LoggerConfig.OsRemove "logs" "bot_20250101.log"], true).
Proof.
  apply (failed_removal_ends_the_cleanup LoggerSample.read_only "logs"
           LoggerSample.now 7 [] "bot_20250101.log"
           ["bot_20250101.log.1"; "bot_20250110.log"; "notes.txt"]
           "PermissionError").
  - reflexivity.
  - intros f [].
  - vm_compute. reflexivity.
  - reflexivity.
Defined.
